(** * Deep clustering source separation

    A shallow embedding of [nussl/separation/deep_clustering.py] (class
    [DeepClustering]) and the properties of its mask-derivation pipeline.

    Conventions of the embedding.
    - Arrays are numpy's: a shape and a flat, row-major buffer.
    - Array entries are real numbers; the rounding of float32/float64 is not
      modelled.  Where numpy divides by zero it stores nan or inf and goes on;
      the model marks those places instead: a whole-array division by a zero
      scalar ends in the outcome [Undefined], and the row-wise division of the
      soft-mask sharpening yields [None] at the entries of a row whose
      denominator is zero.
    - A Python exception is the outcome [Raise].  Methods run in a state monad
      whose state survives a raise, as mutations do in Python.
    - Collaborators that live outside the file (the audio signal's methods,
      librosa, torch, scikit-learn) are the fields of the class [Externals]. *)

From Stdlib Require Import Reals Lra Lia String Bool Arith ZArith List.
Import ListNotations.
Open Scope R_scope.

(** ** Outcomes and monads *)

Inductive exn : Type :=
| ValueError (msg : string)
| UnboundLocalError (name : string)
| NoModelError (msg : string)
| IndexError (msg : string)
| TypeError (msg : string)
| AttributeError (name : string)
| ExternalError (msg : string).

Inductive result (A : Type) : Type :=
| Ok (a : A)
| Raise (e : exn)
| Undefined.
Arguments Ok {A} a.
Arguments Raise {A} e.
Arguments Undefined {A}.

Definition bind {A B : Type} (c : result A) (k : A -> result B) : result B :=
  match c with
  | Ok a => k a
  | Raise e => Raise e
  | Undefined => Undefined
  end.

Notation "x <- c ;; k" := (bind c (fun x => k))
  (at level 61, c at next level, right associativity).

(** Sequencing over a list, left to right, stopping at the first failure. *)
Fixpoint mapM {A B : Type} (f : A -> result B) (l : list A) : result (list B) :=
  match l with
  | [] => Ok []
  | x :: xs => y <- f x ;; ys <- mapM f xs ;; Ok (y :: ys)
  end.

(** State that outlives an exception. *)
Definition M (S A : Type) : Type := S -> result A * S.

Definition ret {S A : Type} (a : A) : M S A := fun s => (Ok a, s).

Definition sbind {S A B : Type} (c : M S A) (k : A -> M S B) : M S B :=
  fun s =>
    match c s with
    | (Ok a, s') => k a s'
    | (Raise e, s') => (Raise e, s')
    | (Undefined, s') => (Undefined, s')
    end.

Definition lift {S A : Type} (r : result A) : M S A := fun s => (r, s).
Definition get {S : Type} : M S S := fun s => (Ok s, s).
Definition modify {S : Type} (f : S -> S) : M S unit := fun s => (Ok tt, f s).

Notation "x <~ c ;; k" := (sbind c (fun x => k))
  (at level 61, c at next level, right associativity).
Notation "c ;;; k" := (sbind c (fun _ => k))
  (at level 61, right associativity).

(** ** numpy arrays *)

Module np.

Record ndarray (A : Type) : Type := array { shape : list nat; data : list A }.
Arguments array {A} shape data.
Arguments shape {A} n.
Arguments data {A} n.

Definition size (shp : list nat) : nat := fold_right Nat.mul 1%nat shp.

(** The buffer has as many entries as the shape says. *)
Definition wf {A : Type} (a : ndarray A) : Prop :=
  length (data a) = size (shape a).

Definition amap {A B : Type} (f : A -> B) (a : ndarray A) : ndarray B :=
  array (shape a) (map f (data a)).

Definition same_shape (s1 s2 : list nat) : bool :=
  if list_eq_dec Nat.eq_dec s1 s2 then true else false.

(** Elementwise binary operation on two arrays of one shape. *)
Definition elementwise {A B C : Type} (f : A -> B -> C)
    (a : ndarray A) (b : ndarray B) : result (ndarray C) :=
  if same_shape (shape a) (shape b)
  then Ok (array (shape a)
             (map (fun p => f (fst p) (snd p)) (combine (data a) (data b))))
  else Raise (ValueError "operands could not be broadcast together").

(** Reductions over the whole array. *)
Definition min (a : ndarray R) : result R :=
  match data a with
  | [] => Raise (ValueError "zero-size array to reduction operation minimum which has no identity")
  | x :: xs => Ok (fold_right Rmin x xs)
  end.

Definition max (a : ndarray R) : result R :=
  match data a with
  | [] => Raise (ValueError "zero-size array to reduction operation maximum which has no identity")
  | x :: xs => Ok (fold_right Rmax x xs)
  end.

Definition lsum (l : list R) : R := fold_right Rplus 0 l.

Definition sum (a : ndarray R) : R := lsum (data a).

(** [np.mean] of an empty array is nan. *)
Definition mean (a : ndarray R) : result R :=
  match data a with
  | [] => Undefined
  | _ => Ok (sum a / INR (length (data a)))
  end.

Definition std (a : ndarray R) : result R :=
  m <- mean a ;;
  v <- mean (amap (fun x => (x - m) * (x - m)) a) ;;
  Ok (sqrt v).

Definition log10 (x : R) : R := ln x / ln 10.

(** [a / d] for a scalar [d]. *)
Definition div_scalar (a : ndarray R) (d : R) : result (ndarray R) :=
  if Req_dec_T d 0 then Undefined else Ok (amap (fun x => x / d) a).

(** One quotient of a row-wise division. *)
Definition fdiv (x d : R) : option R :=
  if Req_dec_T d 0 then None else Some (x / d).

(** [np.dot] of two matrices. *)
Definition dot (a b : ndarray R) : result (ndarray R) :=
  match shape a, shape b with
  | [n; k], [k'; m] =>
      if Nat.eqb k k'
      then Ok (array [n; m]
                 (flat_map (fun i =>
                    map (fun j =>
                      lsum (map (fun l => nth (i * k + l) (data a) 0
                                           * nth (l * m + j) (data b) 0)
                                (seq 0 k)))
                        (seq 0 m))
                  (seq 0 n)))
      else Raise (ValueError "shapes not aligned")
  | _, _ => Raise (ValueError "shapes not aligned")
  end.

(** [a.T] of a matrix. *)
Definition T (a : ndarray R) : result (ndarray R) :=
  match shape a with
  | [n; m] =>
      Ok (array [m; n]
            (flat_map (fun j => map (fun i => nth (i * m + j) (data a) 0) (seq 0 n))
                      (seq 0 m)))
  | _ => Raise (ValueError "transpose of a matrix expected")
  end.

(** [a[i]] on the leading axis (for a 3-D array: [a[i, :, :]]). *)
Definition index0 {A : Type} (a : ndarray A) (i : nat) : result (ndarray A) :=
  match shape a with
  | c :: rest =>
      if (i <? c)%nat
      then Ok (array rest (firstn (size rest) (skipn (i * size rest) (data a))))
      else Raise (IndexError "index out of bounds")
  | [] => Raise (IndexError "too many indices for array")
  end.

(** [a[:, :, i]] of a 3-D array. *)
Definition index_last {A : Type} (d : A) (a : ndarray A) (i : nat)
  : result (ndarray A) :=
  match shape a with
  | [f; t; c] =>
      if (i <? c)%nat
      then Ok (array [f; t]
                 (map (fun j => nth (j * c + i) (data a) d) (seq 0 (f * t))))
      else Raise (IndexError "index out of bounds")
  | _ => Raise (IndexError "too many indices for array")
  end.

(** [np.stack(l, axis=-1)]. *)
Definition stack_last {A : Type} (d : A) (l : list (ndarray A))
  : result (ndarray A) :=
  match l with
  | [] => Raise (ValueError "need at least one array to stack")
  | a :: rest =>
      if forallb (fun b => same_shape (shape b) (shape a)) rest
      then Ok (array (shape a ++ [length l])
                 (flat_map (fun j => map (fun b => nth j (data b) d) l)
                           (seq 0 (size (shape a)))))
      else Raise (ValueError "all input arrays must have the same shape")
  end.

(** [a.reshape(shp)]. *)
Definition reshape {A : Type} (a : ndarray A) (shp : list nat)
  : result (ndarray A) :=
  if Nat.eqb (size shp) (length (data a))
  then Ok (array shp (data a))
  else Raise (ValueError "cannot reshape array").

(** [a.reshape(-1, 2)]. *)
Definition reshape_pairs {A : Type} (a : ndarray A) : result (ndarray A) :=
  if Nat.even (length (data a))
  then Ok (array [Nat.div2 (length (data a)); 2%nat] (data a))
  else Raise (ValueError "cannot reshape array").

(** [np.round]: to the nearest integer, ties to the even one. *)
Definition round (x : R) : R :=
  let f := Int_part x in
  let r := x - IZR f in
  if Rlt_dec r (1 / 2) then IZR f
  else if Rlt_dec (1 / 2) r then IZR (f + 1)
  else if Z.even f then IZR f else IZR (f + 1).

End np.

Import np.

Definition b2r (b : bool) : R := if b then 1 else 0.
Definition Rgtb (x y : R) : bool := if Rlt_dec y x then true else false.

(** Left fold in the [result] monad: a [for] loop over [l]. *)
Fixpoint foldM {A B : Type} (f : A -> B -> result A) (l : list B) (a : A)
  : result A :=
  match l with
  | [] => Ok a
  | x :: xs => a' <- f a x ;; foldM f xs a'
  end.

(** ** The objects *)

(** Complex numbers: real and imaginary part. *)
Definition complex : Type := (R * R)%type.
Definition Cabs (z : complex) : R := sqrt (fst z * fst z + snd z * snd z).

(** What the source reads of an [AudioSignal]. *)
Record AudioSignal : Type := {
  sample_rate : Z;
  num_channels : nat;
  n_fft_bins : nat;                       (* stft_params.n_fft_bins *)
  signal_length : nat;
  audio_data : ndarray R;
  stft_data : option (ndarray complex)
}.

Definition set_stft_data (s : option (ndarray complex)) (a : AudioSignal)
  : AudioSignal :=
  {| sample_rate := sample_rate a; num_channels := num_channels a;
     n_fft_bins := n_fft_bins a; signal_length := signal_length a;
     audio_data := audio_data a; stft_data := s |}.

(** Audio signals live in a store; a variable holds a reference. *)
Definition loc : Type := nat.
Definition store : Type := loc -> AudioSignal.

Definition upd (h : store) (l : loc) (a : AudioSignal) : store :=
  fun l' => if Nat.eqb l' l then a else h l'.

(** Calls to the embedding network and to the clusterer, in order. *)
Inductive event : Type :=
| ModelCall (input : ndarray R)
| KMeansFit (n_clusters : nat) (X : ndarray R).

Record World : Type := { heap : store; trace : list event }.

Definition set_heap (h : store) (w : World) : World :=
  {| heap := h; trace := trace w |}.
Definition log (e : event) (w : World) : World :=
  {| heap := heap w; trace := trace w ++ [e] |}.

(** Modelled from the spec: the two mask types of [MaskSeparationBase]
    (section 6: [mask_type] is one of binary and soft); the class is not
    among the sources. *)
Definition BINARY_MASK : string := "binary".
Definition SOFT_MASK : string := "soft".

(** The collaborators of the class. *)
Class Externals : Type := {
  (* MaskSeparationBase.__init__: the reference and the mask type it binds
     to self.audio_signal and self.mask_type *)
  separation_base_init : loc -> string -> M World (loc * string);
  (* AudioSignal.resample(rate), .to_mono(overwrite=True): in place *)
  resample : Z -> AudioSignal -> AudioSignal;
  to_mono : AudioSignal -> AudioSignal;
  (* AudioSignal.stft(remove_reflection=True, use_librosa): frequency x time x channel *)
  stft_transform : bool -> AudioSignal -> result (ndarray complex);
  (* librosa.filters.mel(sr, n_fft, n_mels).T and np.linalg.pinv *)
  mel_filters_T : Z -> nat -> nat -> ndarray R;
  pinv : ndarray R -> ndarray R;
  cuda_is_available : bool;
  (* torch.load into TransformerDeepClustering(num_layers, hidden_size, embedding_size),
     giving the network's forward pass: (channel, time, mel) to (channel, time, mel, K) *)
  load_network : nat -> nat -> nat -> string -> result (ndarray R -> result (ndarray R));
  (* KMeans(n_clusters).fit(X): labels_ and cluster_centers_ *)
  kmeans_fit : nat -> ndarray R -> result (ndarray Z * ndarray R)
}.

(** The masks handed to the caller: opaque containers.  A soft mask may hold
    undefined entries ([None]). *)
Inductive mask_object : Type :=
| BinaryMask (a : ndarray (option R))
| SoftMask (a : ndarray (option R)).

Record DeepClustering : Type := {
  audio_signal : loc;
  mask_type : string;
  model_path : string;
  resample_rate : Z;
  use_librosa_stft : bool;
  num_mels : nat;
  num_sources : nat;
  num_fft : nat;
  mel_filter_bank : ndarray R;
  inverse_mel_filter_bank : ndarray R;
  max_distance : R;
  use_cuda : bool;
  stft : option (ndarray complex);
  mel_spectrogram : option (ndarray R);
  silence_mask : option (ndarray bool);
  cutoff : R;
  model : ndarray R -> result (ndarray R);
  n_clusters : nat;                       (* self.clusterer = KMeans(n_clusters) *)
  embeddings : option (ndarray R);
  do_mono : bool;
  (* attributes that exist only once deep_clustering has set them *)
  assignments : option (ndarray Z);
  centroids : option (ndarray R);
  masks : option (list mask_object)
}.

(** The keyword arguments of the constructor. *)
Record InitArgs : Type := {
  arg_model_path : option string;
  arg_mask_type : string;
  arg_num_sources : nat;
  arg_num_layers : nat;
  arg_hidden_size : nat;
  arg_max_distance : R;
  arg_embedding_size : nat;
  arg_num_mels : nat;
  arg_do_mono : bool;
  arg_resample_rate : Z;
  arg_use_librosa_stft : bool;
  arg_cutoff : R
}.

Definition default_args : InitArgs :=
  {| arg_model_path := None; arg_mask_type := SOFT_MASK; arg_num_sources := 2;
     arg_num_layers := 4; arg_hidden_size := 500; arg_max_distance := 1;
     arg_embedding_size := 20; arg_num_mels := 150; arg_do_mono := false;
     arg_resample_rate := 44100; arg_use_librosa_stft := false;
     arg_cutoff := -40 |}.

(** Assignment to the attributes that the methods rebind. *)
Definition rebind (self : DeepClustering)
    (stft' : option (ndarray complex)) (mel' : option (ndarray R))
    (silence' : option (ndarray bool)) (embeddings' : option (ndarray R))
    (assignments' : option (ndarray Z)) (centroids' : option (ndarray R))
    (masks' : option (list mask_object)) : DeepClustering :=
  {| audio_signal := audio_signal self; mask_type := mask_type self;
     model_path := model_path self; resample_rate := resample_rate self;
     use_librosa_stft := use_librosa_stft self; num_mels := num_mels self;
     num_sources := num_sources self; num_fft := num_fft self;
     mel_filter_bank := mel_filter_bank self;
     inverse_mel_filter_bank := inverse_mel_filter_bank self;
     max_distance := max_distance self; use_cuda := use_cuda self;
     stft := stft'; mel_spectrogram := mel'; silence_mask := silence';
     cutoff := cutoff self; model := model self; n_clusters := n_clusters self;
     embeddings := embeddings'; do_mono := do_mono self;
     assignments := assignments'; centroids := centroids'; masks := masks' |}.

Definition set_stft v (self : DeepClustering) :=
  rebind self v (mel_spectrogram self) (silence_mask self) (embeddings self)
         (assignments self) (centroids self) (masks self).
Definition set_mel_spectrogram v (self : DeepClustering) :=
  rebind self (stft self) v (silence_mask self) (embeddings self)
         (assignments self) (centroids self) (masks self).
Definition set_silence_mask v (self : DeepClustering) :=
  rebind self (stft self) (mel_spectrogram self) v (embeddings self)
         (assignments self) (centroids self) (masks self).
Definition set_embeddings v (self : DeepClustering) :=
  rebind self (stft self) (mel_spectrogram self) (silence_mask self) v
         (assignments self) (centroids self) (masks self).
Definition set_assignments v (self : DeepClustering) :=
  rebind self (stft self) (mel_spectrogram self) (silence_mask self)
         (embeddings self) v (centroids self) (masks self).
Definition set_centroids v (self : DeepClustering) :=
  rebind self (stft self) (mel_spectrogram self) (silence_mask self)
         (embeddings self) (assignments self) v (masks self).
Definition set_masks v (self : DeepClustering) :=
  rebind self (stft self) (mel_spectrogram self) (silence_mask self)
         (embeddings self) (assignments self) (centroids self) v.

(** A method runs on the object and the world around it. *)
Record State : Type := { this : DeepClustering; world : World }.

Definition assign (f : DeepClustering -> DeepClustering) : M State unit :=
  modify (fun st => {| this := f (this st); world := world st |}).
Definition on_world (f : World -> World) : M State unit :=
  modify (fun st => {| this := this st; world := f (world st) |}).
Definition self_ : M State DeepClustering := fun st => (Ok (this st), st).
(** [self.audio_signal], dereferenced. *)
Definition signal_ : M State AudioSignal :=
  fun st => (Ok (heap (world st) (audio_signal (this st))), st).

(** [x] when it is an array, a [TypeError] when it is [None]. *)
Definition not_none {A : Type} (x : option A) : result A :=
  match x with
  | Some a => Ok a
  | None => Raise (TypeError "NoneType")
  end.

(** [self.name] for an attribute that may not be set yet. *)
Definition attribute {A : Type} (name : string) (x : option A) : result A :=
  match x with
  | Some a => Ok a
  | None => Raise (AttributeError name)
  end.

(** [l[i]] of a Python list. *)
Definition list_index {A : Type} (l : list A) (i : nat) : result A :=
  match nth_error l i with
  | Some a => Ok a
  | None => Raise (IndexError "list index out of range")
  end.

(** ** The methods of [DeepClustering] *)

Definition eps : R := 1e-7.

(** [np.sqrt(np.sum((e - c)**2, axis=-1))] for an array [e] whose last axis
    has length [k] and a vector [c] of length [k']; an axis of length 1 is
    stretched to the other one, as numpy broadcasts. *)
Definition distances_to (e c : ndarray R) : result (ndarray R) :=
  match rev (shape e), shape c with
  | k :: pre, [k'] =>
      if (k =? k')%nat || (k' =? 1)%nat || (k =? 1)%nat
      then
        let w := if (k =? k')%nat then k else if (k' =? 1)%nat then k else k' in
        Ok (array (rev pre)
              (map (fun i =>
                 sqrt (lsum (map (fun j =>
                   (nth (i * k + (if (k =? 1)%nat then 0 else j)) (data e) 0
                    - nth (if (k' =? 1)%nat then 0 else j) (data c) 0) ^ 2)
                   (seq 0 w))))
                 (seq 0 (size (rev pre)))))
      else Raise (ValueError "operands could not be broadcast together")
  | _, _ => Raise (ValueError "operands could not be broadcast together")
  end.

(** [a[ch, :, :]]. *)
Definition channel {A : Type} (a : ndarray A) (ch : nat) : result (ndarray A) :=
  if (3 <=? length (shape a))%nat
  then index0 a ch
  else Raise (IndexError "too many indices for array").

(** Line 185: the binary mel-domain mask of source [cluster_index]. *)
Definition binary_mel_mask (self : DeepClustering) (ch cluster_index : nat)
  : result (ndarray bool) :=
  s <- not_none (silence_mask self) ;;
  s <- channel s ch ;;
  a <- attribute "assignments" (assignments self) ;;
  a <- channel a ch ;;
  p <- elementwise (fun (b : bool) (z : Z) => if b then z else 0%Z) s a ;;
  Ok (amap (fun z => Z.eqb z (Z.of_nat cluster_index)) p).

(** Lines 187-189: the distances to centroid [cluster_index], shifted and
    scaled. *)
Definition normalized_distances (self : DeepClustering) (cluster_index : nat)
  : result (ndarray R) :=
  c <- attribute "centroids" (centroids self) ;;
  c <- index0 c (cluster_index - 1) ;;
  e <- not_none (embeddings self) ;;
  distances <- distances_to e c ;;
  mn <- np.min distances ;;
  let distances := amap (fun x => x + mn) distances in
  mx <- np.max distances ;;
  div_scalar distances (mx + eps).

(** Line 190: [distances[distances > max_distance] = 1]. *)
Definition clip (max_distance : R) (distances : ndarray R) : ndarray R :=
  amap (fun x => if Rlt_dec max_distance x then 1 else x) distances.

Definition soft_distances (self : DeepClustering) (cluster_index : nat)
  : result (ndarray R) :=
  distances <- normalized_distances self cluster_index ;;
  Ok (clip (max_distance self) distances).

(** Lines 187-192: the soft mel-domain mask of source [cluster_index]. *)
Definition soft_mel_mask (self : DeepClustering) (ch cluster_index : nat)
  : result (ndarray R) :=
  distances <- soft_distances self cluster_index ;;
  m <- attribute "shape" (mel_spectrogram self) ;;
  distances <- reshape distances (shape m) ;;
  let distances := amap (fun x => 1 - x) distances in
  s <- not_none (silence_mask self) ;;
  s <- channel s ch ;;
  d <- channel distances ch ;;
  elementwise (fun (b : bool) (x : R) => b2r b * x) s d.

(** Line 193: projection to linear frequency. *)
Definition project (self : DeepClustering) (mask : ndarray R)
  : result (ndarray R) :=
  mask <- np.dot mask (inverse_mel_filter_bank self) ;;
  np.T mask.

(** Lines 194-195: [mask += np.abs(mask.min())], [mask /= (np.max(mask) + 1e-7)]. *)
Definition normalize (mask : ndarray R) : result (ndarray R) :=
  mn <- np.min mask ;;
  let mask := amap (fun x => x + Rabs mn) mask in
  mx <- np.max mask ;;
  div_scalar mask (mx + eps).

Definition project_and_normalize (self : DeepClustering) (mask : ndarray R)
  : result (ndarray R) :=
  mask <- project self mask ;;
  normalize mask.

(** One turn of the loop of line 183.  The local [mask] is unbound ([None])
    until a branch assigns it. *)
Definition mask_loop_body (self : DeepClustering) (ch : nat)
    (st : option (ndarray R) * list (ndarray R)) (cluster_index : nat)
  : result (option (ndarray R) * list (ndarray R)) :=
  let '(mask, channel_mask_list) := st in
  mask <- (if String.eqb (mask_type self) BINARY_MASK
           then m <- binary_mel_mask self ch cluster_index ;;
                Ok (Some (amap b2r m))
           else if String.eqb (mask_type self) SOFT_MASK
           then m <- soft_mel_mask self ch cluster_index ;; Ok (Some m)
           else Ok mask) ;;
  mask <- match mask with
          | Some m => Ok m
          | None => Raise (UnboundLocalError "mask")
          end ;;
  mask <- project_and_normalize self mask ;;
  Ok (Some mask, channel_mask_list ++ [mask]).

Definition mask_loop (self : DeepClustering) (ch : nat)
  : result (list (ndarray R)) :=
  st <- foldM (mask_loop_body self ch) (seq 1 (num_sources self)) (None, []) ;;
  Ok (snd st).

(** [(data.T / np.sum(data, axis=-1)).T] on a buffer of rows of two. *)
Fixpoint rows_div_sum (l : list R) : list (option R) :=
  match l with
  | x :: y :: rest =>
      fdiv x (lsum [x; y]) :: fdiv y (lsum [x; y]) :: rows_div_sum rest
  | _ => []
  end.

(** Lines 199-204: the sharpening across sources. *)
Definition sharpen (self : DeepClustering) (channel_mask_list : list (ndarray R))
  : result (list (ndarray (option R))) :=
  data <- stack_last 0 channel_mask_list ;;
  let original_shape := shape data in
  data <- reshape_pairs data ;;
  let data := amap (fun x => x ^ 3) data in
  let data := array (shape data) (rows_div_sum (np.data data)) in
  data <- reshape data original_shape ;;
  mapM (fun i => index_last None data i) (seq 0 (num_sources self)).

Definition _extract_masks (self : DeepClustering) (h : store) (ch : nat)
  : result (list (ndarray (option R))) :=
  match stft_data (h (audio_signal self)) with
  | None => Raise (ValueError "Cannot extract masks with no signal_stft data")
  | Some _ =>
      channel_mask_list <- mask_loop self ch ;;
      if String.eqb (mask_type self) SOFT_MASK
      then sharpen self channel_mask_list
      else Ok (map (amap Some) channel_mask_list)
  end.

Section Methods.

Context {ext : Externals}.

(** [if model_path:] -- neither [None] nor the empty string. *)
Definition truthy (p : option string) : option string :=
  match p with
  | Some EmptyString => None
  | _ => p
  end.

(** A method call on the object a reference points to, mutating it in place. *)
Definition in_place (l : loc) (f : AudioSignal -> AudioSignal) : M World unit :=
  modify (fun w => set_heap (upd (heap w) l (f (heap w l))) w).

(** Lines 57-113. *)
Definition __init__ (input_audio_signal : loc) (a : InitArgs)
  : M World DeepClustering :=
  base <~ separation_base_init input_audio_signal (arg_mask_type a) ;;
  match truthy (arg_model_path a) with
  | None => lift (Raise (NoModelError "To use DeepClustering, a trained model is required."))
  | Some path =>
      let sig := fst base in
      w <~ get ;;
      (if negb (Z.eqb (sample_rate (heap w sig)) (arg_resample_rate a))
       then in_place sig (resample (arg_resample_rate a))
       else ret tt) ;;;
      w <~ get ;;
      let nfft := n_fft_bins (heap w sig) in
      let bank := mel_filters_T (arg_resample_rate a) nfft (arg_num_mels a) in
      net <~ lift (load_network (arg_num_layers a) (arg_hidden_size a)
                                (arg_embedding_size a) path) ;;
      (if arg_do_mono a then in_place sig to_mono else ret tt) ;;;
      ret {| audio_signal := sig; mask_type := snd base; model_path := path;
             resample_rate := arg_resample_rate a;
             use_librosa_stft := arg_use_librosa_stft a;
             num_mels := arg_num_mels a; num_sources := arg_num_sources a;
             num_fft := nfft; mel_filter_bank := bank;
             inverse_mel_filter_bank := pinv bank;
             max_distance := arg_max_distance a;
             use_cuda := cuda_is_available;
             stft := None; mel_spectrogram := None; silence_mask := None;
             cutoff := arg_cutoff a; model := net;
             n_clusters := arg_num_sources a; embeddings := None;
             do_mono := arg_do_mono a;
             assignments := None; centroids := None; masks := None |}
  end.

(** Line 141, for channel [i]: [np.dot(magnitude[:, :, i].T, self.mel_filter_bank)],
    which must fit the slice [(time, num_mels)] it is stored in. *)
Definition mel_projection (self : DeepClustering) (magnitude : ndarray R)
    (frames i : nat) : result (list R) :=
  m <- index_last 0 magnitude i ;;
  m <- np.T m ;;
  p <- np.dot m (mel_filter_bank self) ;;
  if same_shape (shape p) [frames; num_mels self]
  then Ok (data p)
  else Raise (ValueError "could not broadcast input array").

(** Lines 136-146.  The array of line 138 is uninitialised until the loop has
    filled it; the model binds [self.mel_spectrogram] at line 143.  After a
    failure inside the loop of line 141 the code holds the partly filled
    array and the model the spectrogram it held before; nothing below reads
    the spectrogram of such a state. *)
Definition _compute_spectrograms : M State unit :=
  self <~ self_ ;;
  sig <~ signal_ ;;
  s <~ lift (stft_transform (use_librosa_stft self) sig) ;;
  on_world (fun w =>
    set_heap (upd (heap w) (audio_signal self) (set_stft_data (Some s) sig)) w) ;;;
  assign (set_stft (Some s)) ;;;
  let magnitude := amap Cabs s in
  sig <~ signal_ ;;
  frames <~ lift (match shape s with
                  | _ :: t :: _ => Ok t
                  | _ => Raise (IndexError "tuple index out of range")
                  end) ;;
  slices <~ lift (mapM (mel_projection self magnitude frames)
                       (seq 0 (num_channels sig))) ;;
  let mel := array [num_channels sig; frames; num_mels self] (concat slices) in
  let mel := amap (fun p => 10 * log10 (p ^ 2 + eps)) mel in
  assign (set_mel_spectrogram (Some mel)) ;;;
  assign (set_silence_mask (Some (amap (fun x => Rgtb x (cutoff self)) mel))) ;;;
  mu <~ lift (np.mean mel) ;;
  let mel := amap (fun x => x - mu) mel in
  assign (set_mel_spectrogram (Some mel)) ;;;
  sd <~ lift (np.std mel) ;;
  mel <~ lift (div_scalar mel (sd + eps)) ;;
  assign (set_mel_spectrogram (Some mel)).

(** [embeddings.view(-1, embeddings.size(-1))]. *)
Definition view_rows (a : ndarray R) : result (ndarray R) :=
  match rev (shape a) with
  | O :: _ => Raise (ValueError "cannot reshape tensor of 0 elements")
  | k :: _ => Ok (array [(length (data a) / k)%nat; k] (data a))
  | [] => Raise (IndexError "dimension specified as -1 but tensor has no dimensions")
  end.

(** Lines 157-167. *)
Definition deep_clustering : M State unit :=
  self <~ self_ ;;
  input_data <~ lift (not_none (mel_spectrogram self)) ;;
  (match embeddings self with
   | None =>
       on_world (log (ModelCall input_data)) ;;;
       e <~ lift (model self input_data) ;;
       e <~ lift (view_rows e) ;;
       assign (set_embeddings (Some e))
   | Some _ => ret tt
   end) ;;;
  self <~ self_ ;;
  e <~ lift (not_none (embeddings self)) ;;
  on_world (log (KMeansFit (n_clusters self) e)) ;;;
  fit <~ lift (kmeans_fit (n_clusters self) e) ;;
  let assignments := amap (fun z => (z + 1)%Z) (fst fit) in
  m <~ lift (attribute "shape" (mel_spectrogram self)) ;;
  assignments <~ lift (reshape assignments (shape m)) ;;
  assign (set_assignments (Some assignments)) ;;;
  assign (set_centroids (Some (snd fit))).

(** [np.dstack] of matrices: the stack along a new last axis. *)
Definition dstack (l : list (ndarray (option R))) : result (ndarray (option R)) :=
  stack_last None l.

(** Lines 253-262, for one collated mask. *)
Definition make_mask_object (self : DeepClustering) (mask : ndarray (option R))
  : result mask_object :=
  if String.eqb (mask_type self) BINARY_MASK
  then Ok (BinaryMask (amap (option_map np.round) mask))
  else if String.eqb (mask_type self) SOFT_MASK
  then Ok (SoftMask mask)
  else Raise (ValueError (String.append "Unknown mask type "
                            (String.append (mask_type self) "!"))).

(** [self.masks.append(m)]. *)
Definition append_mask (m : mask_object) (self : DeepClustering) : DeepClustering :=
  set_masks (Some (match masks self with Some l => l | None => [] end ++ [m])) self.

(** A [for] loop whose body runs in the state monad. *)
Fixpoint for_each {S A : Type} (l : list A) (body : A -> M S unit) : M S unit :=
  match l with
  | [] => ret tt
  | x :: xs => body x ;;; for_each xs body
  end.

(** Lines 243-245: the masks of every channel, in order. *)
Definition extract_all : M State (list (ndarray (option R))) :=
  fun st =>
    (l <- mapM (fun i => _extract_masks (this st) (heap (world st)) i)
              (seq 0 (num_channels (heap (world st) (audio_signal (this st))))) ;;
     Ok (concat l),
     st).

(** Lines 247-249: one array per source, stacked across channels. *)
Definition collate (self : DeepClustering) (sig : AudioSignal)
    (uncollated_masks : list (ndarray (option R)))
  : result (list (ndarray (option R))) :=
  mapM (fun s =>
     l <- mapM (fun ch => list_index uncollated_masks (s + ch * num_sources self))
               (seq 0 (num_channels sig)) ;;
     dstack l)
   (seq 0 (num_sources self)).

(** Lines 251-263: the mask objects. *)
Definition assemble (collated_masks : list (ndarray (option R)))
  : M State (list mask_object) :=
  assign (set_masks (Some [])) ;;;
  for_each collated_masks (fun mask =>
    self <~ self_ ;;
    mask_object <~ lift (make_mask_object self mask) ;;
    assign (append_mask mask_object)) ;;;
  self <~ self_ ;;
  lift (attribute "masks" (masks self)).

(** Lines 240-263. *)
Definition run : M State (list mask_object) :=
  _compute_spectrograms ;;;
  deep_clustering ;;;
  uncollated_masks <~ extract_all ;;
  self <~ self_ ;;
  sig <~ signal_ ;;
  collated_masks <~ lift (collate self sig uncollated_masks) ;;
  assemble collated_masks.


End Methods.

(** ** Reading one entry

    [a[i, j]] of a matrix and [a[i, j, k]] of a 3-D array, in the terms of
    the flat buffer. *)

Definition get2 {A : Type} (d : A) (a : ndarray A) (i j : nat) : A :=
  match shape a with
  | [_; m] => nth (i * m + j) (data a) d
  | _ => d
  end.

Definition get3 {A : Type} (d : A) (a : ndarray A) (i j k : nat) : A :=
  match shape a with
  | [_; n; m] => nth ((i * n + j) * m + k) (data a) d
  | _ => d
  end.

(** ** The soft mask in the words of the specification (section 4.4)

    For each bin: the Euclidean distance from its embedding to centroid [s];
    the minimum of the distances added to each; each divided by the maximum
    plus epsilon; a distance above [max_distance] set to 1; one minus the
    distance; times the silence mask. *)

Definition row (a : ndarray R) (i : nat) : list R :=
  match shape a with
  | [_; k] => firstn k (skipn (i * k) (data a))
  | _ => []
  end.

Definition euclidean (x c : list R) : R :=
  sqrt (lsum (map (fun p => (fst p - snd p) ^ 2) (combine x c))).

Definition minimum (l : list R) : R :=
  match l with
  | [] => 0
  | x :: xs => fold_right Rmin x xs
  end.

Definition maximum (l : list R) : R :=
  match l with
  | [] => 0
  | x :: xs => fold_right Rmax x xs
  end.

Definition spec_soft_value (max_distance : R) (e c : ndarray R)
    (sil : ndarray bool) (s ch t m : nat) : R :=
  let bins := seq 0 (hd 0%nat (shape e)) in
  let distance i := euclidean (row e i) (row c (s - 1)) in
  let shifted i := distance i + minimum (map distance bins) in
  let scaled i := shifted i / (maximum (map shifted bins) + eps) in
  let clipped i := if Rlt_dec max_distance (scaled i) then 1 else scaled i in
  let bin := match shape sil with
             | [_; T; M] => ((ch * T + t) * M + m)%nat
             | _ => 0%nat
             end in
  b2r (get3 false sil ch t m) * (1 - clipped bin).

(** ** The features in the words of the specification (section 4.1)

    Per channel the magnitude is projected onto the mel filter bank; the
    log-power is [10 log10 (power^2 + epsilon)]; the normalisation subtracts
    the global mean and divides by the global standard deviation plus
    epsilon. *)

Definition mel_power (magnitude bank : ndarray R) (c t m : nat) : R :=
  lsum (map (fun f => get3 0 magnitude f t c * get2 0 bank f m)
            (seq 0 (hd 0%nat (shape bank)))).

Definition log_power (p : R) : R := 10 * log10 (p ^ 2 + eps).

Definition log_mel (magnitude bank : ndarray R) (C T M : nat) : list R :=
  flat_map (fun c =>
    flat_map (fun t =>
      map (fun m => log_power (mel_power magnitude bank c t m)) (seq 0 M))
      (seq 0 T))
    (seq 0 C).

Definition global_mean (l : list R) : R := lsum l / INR (length l).

Definition global_std (l : list R) : R :=
  sqrt (global_mean (map (fun x => (x - global_mean l) ^ 2) l)).

(** ** A small configuration

    One channel, one frame, two mel bands and two frequency bins; the filter
    bank is the identity, and so is its pseudo-inverse.  Embeddings have one
    coordinate; the two bins sit on the two centroids. *)

Definition identity2 : ndarray R := array [2; 2]%nat [1; 0; 0; 1].

(** The transform of the mixture: frequency x time x channel. *)
Definition demo_stft : ndarray complex := array [2; 1; 1]%nat [(1, 0); (0, 2)].

Definition demo_signal : AudioSignal :=
  {| sample_rate := 44100; num_channels := 1; n_fft_bins := 2;
     signal_length := 2; audio_data := array [1; 2]%nat [1; -1];
     stft_data := Some demo_stft |}.

Definition demo_heap : store := fun _ => demo_signal.

Definition demo_network (x : ndarray R) : result (ndarray R) :=
  Ok (array [1; 1; 2; 1]%nat [0; 1]).

Definition demo_with (mask_type : string) (silence : list bool) : DeepClustering :=
  {| audio_signal := 0%nat; mask_type := mask_type; model_path := "model.h5";
     resample_rate := 44100; use_librosa_stft := false; num_mels := 2;
     num_sources := 2; num_fft := 2; mel_filter_bank := identity2;
     inverse_mel_filter_bank := identity2; max_distance := 1;
     use_cuda := false; stft := stft_data demo_signal;
     mel_spectrogram := Some (array [1; 1; 2]%nat [-1; 1]);
     silence_mask := Some (array [1; 1; 2]%nat silence);
     cutoff := -40; model := demo_network; n_clusters := 2;
     embeddings := Some (array [2; 1]%nat [0; 1]); do_mono := false;
     assignments := Some (array [1; 1; 2]%nat [1%Z; 2%Z]);
     centroids := Some (array [2; 1]%nat [0; 1]); masks := None |}.

Definition demo_soft : DeepClustering := demo_with SOFT_MASK [true; true].
Definition demo_binary : DeepClustering := demo_with BINARY_MASK [true; true].
(** The same mixture at silence: no bin passes the cutoff. *)
Definition demo_silent : DeepClustering := demo_with SOFT_MASK [false; false].

(** A binary mel-domain mask whose two bands both belong to the source. *)
Definition both_bands : ndarray R := array [1; 2]%nat [1; 1].

(** ** Shapes

    The arrays [_extract_masks] reads, with the shapes the earlier stages
    give them: [C] channels, [T] frames, [M] mel bands, [F] frequency bins,
    embeddings of width [K]. *)

Definition well_shaped (self : DeepClustering) (C T M F K : nat) : Prop :=
  exists e c mel sil,
    embeddings self = Some e /\ shape e = [(C * (T * M))%nat; K] /\
    centroids self = Some c /\ shape c = [num_sources self; K] /\
    mel_spectrogram self = Some mel /\ shape mel = [C; T; M] /\
    silence_mask self = Some sil /\ shape sil = [C; T; M] /\ wf sil /\
    shape (inverse_mel_filter_bank self) = [M; F] /\
    (0 < T * M)%nat /\ (0 < F)%nat.

(** No bin passes the cutoff. *)
Definition silent (self : DeepClustering) : Prop :=
  exists sil, silence_mask self = Some sil /\ forall b, In b (data sil) -> b = false.

(** The property of section 8 for two soft masks: every entry in [0, 1] and
    the two entries of each bin summing to 1 within 1e-6. *)
Definition bins_sum_to_one (m1 m2 : ndarray (option R)) : Prop :=
  forall j, (j < length (data m1))%nat ->
    exists x y,
      nth j (data m1) None = Some x /\ nth j (data m2) None = Some y /\
      0 <= x <= 1 /\ 0 <= y <= 1 /\ Rabs (x + y - 1) <= 1e-6.

(** A mask of two bins, both undefined. *)
Definition undefined_mask : ndarray (option R) := array [2; 1]%nat [None; None].

(** The collaborators of the small configuration, for a given transform. *)
Definition demo_externals_with (s : ndarray complex) : Externals :=
  {| separation_base_init := fun l mt => ret (l, mt);
     resample := fun rate a =>
       {| sample_rate := rate; num_channels := num_channels a;
          n_fft_bins := n_fft_bins a; signal_length := signal_length a;
          audio_data := audio_data a; stft_data := stft_data a |};
     to_mono := fun a =>
       {| sample_rate := sample_rate a; num_channels := 1;
          n_fft_bins := n_fft_bins a; signal_length := signal_length a;
          audio_data := audio_data a; stft_data := stft_data a |};
     stft_transform := fun _ _ => Ok s;
     mel_filters_T := fun _ _ _ => identity2;
     pinv := fun a => a;
     cuda_is_available := false;
     load_network := fun _ _ _ _ => Ok demo_network;
     kmeans_fit := fun _ _ =>
       Ok (array [2]%nat [0%Z; 1%Z], array [2; 1]%nat [0; 1]) |}.

Definition demo_externals : Externals := demo_externals_with demo_stft.

(** The transform of a mixture of zeros, and the collaborators that return it. *)
Definition zero_stft : ndarray complex := array [2; 1; 1]%nat [(0, 0); (0, 0)].
Definition silent_externals : Externals := demo_externals_with zero_stft.

(** A collated mask of two bins and one channel, both entries undefined. *)
Definition undefined_mask3 : ndarray (option R) := array [2; 1; 1]%nat [None; None].

Definition demo_world : World := {| heap := demo_heap; trace := [] |}.

Definition demo_state (mask_type : string) : State :=
  {| this := demo_with mask_type [true; true]; world := demo_world |}.

(** The model was called this many times. *)
Definition model_calls (t : list event) : nat :=
  length (filter (fun e => match e with ModelCall _ => true | _ => false end) t).

(** [n] invocations of the clustering step in a row, whatever each returns. *)
Fixpoint repeat_clustering {ext : Externals} (n : nat) (st : State) : State :=
  match n with
  | O => st
  | S n => repeat_clustering n (snd (deep_clustering st))
  end.

(** The constructor's defaults, with a model path, two mel bands, and the
    mask type, downmix flag and rate given. *)
Definition small_args (mask_type : string) (mono : bool) (rate : Z) : InitArgs :=
  {| arg_model_path := Some "model.h5"%string; arg_mask_type := mask_type;
     arg_num_sources := arg_num_sources default_args;
     arg_num_layers := arg_num_layers default_args;
     arg_hidden_size := arg_hidden_size default_args;
     arg_max_distance := arg_max_distance default_args;
     arg_embedding_size := arg_embedding_size default_args;
     arg_num_mels := 2; arg_do_mono := mono; arg_resample_rate := rate;
     arg_use_librosa_stft := arg_use_librosa_stft default_args;
     arg_cutoff := arg_cutoff default_args |}.

(** Arguments that ask for another rate and for a mono signal. *)
Definition demo_args : InitArgs := small_args SOFT_MASK true 22050.

(** A mixture of zeros, the default arguments with a model path and two mel
    bands, and the separator the constructor builds over them. *)
Definition silent_signal : AudioSignal :=
  {| sample_rate := 44100; num_channels := 1; n_fft_bins := 2;
     signal_length := 2; audio_data := array [1; 2]%nat [0; 0];
     stft_data := None |}.

Definition silent_world : World := {| heap := fun _ => silent_signal; trace := [] |}.

Definition silent_args : InitArgs := small_args SOFT_MASK false 44100.

(** [DeepClustering(signal, ...)]: the object and the world after construction. *)
Definition construct {ext : Externals} (l : loc) (a : InitArgs) (w : World)
  : option State :=
  match __init__ l a w with
  | (Ok self, w') => Some {| this := self; world := w' |}
  | _ => None
  end.


(** ** The rest of the class *)

(** Lines 208-228: [generate_mask(ch, assignments)].  The product of line 220
    is taken entry by entry, for an [assignments] of the shape of one channel
    of the silence mask; numpy's broadcasting of other shapes is not
    modelled. *)
Definition generate_mask (self : DeepClustering) (h : store) (ch : nat)
    (assignments : ndarray R) : result mask_object :=
  match stft_data (h (audio_signal self)) with
  | None => Raise (ValueError "Cannot extract masks with no signal_stft data")
  | Some _ =>
      s <- not_none (silence_mask self) ;;
      s <- channel s ch ;;
      mask <- elementwise (fun (b : bool) (x : R) => b2r b * x) s assignments ;;
      mask <- project_and_normalize self mask ;;
      Ok (BinaryMask (amap (fun x => Some (np.round x)) mask))
  end.

(** The arrays the binary policy reads, with the shapes the earlier stages
    give them. *)
Definition binary_shaped (self : DeepClustering) (C T M F : nat) : Prop :=
  exists sil asg,
    silence_mask self = Some sil /\ shape sil = [C; T; M] /\
    assignments self = Some asg /\ shape asg = [C; T; M] /\
    shape (inverse_mel_filter_bank self) = [M; F] /\
    (0 < T)%nat /\ (0 < F)%nat.

(** Every entry is defined and lies in [0, 1). *)
Definition unit_valued (m : ndarray (option R)) : Prop :=
  forall v, In v (data m) -> exists x, v = Some x /\ 0 <= x < 1.

(** Every entry is 0 or 1. *)
Definition zero_one (m : ndarray (option R)) : Prop :=
  forall v, In v (data m) -> v = Some 0 \/ v = Some 1.

(** A separator with a single source, one band and one frequency bin. *)
Definition demo_single : DeepClustering :=
  {| audio_signal := 0%nat; mask_type := SOFT_MASK; model_path := "model.h5";
     resample_rate := 44100; use_librosa_stft := false; num_mels := 1;
     num_sources := 1; num_fft := 1; mel_filter_bank := array [1; 1]%nat [1];
     inverse_mel_filter_bank := array [1; 1]%nat [1]; max_distance := 1;
     use_cuda := false; stft := stft_data demo_signal;
     mel_spectrogram := Some (array [1; 1; 1]%nat [0]);
     silence_mask := Some (array [1; 1; 1]%nat [true]);
     cutoff := -40; model := demo_network; n_clusters := 1;
     embeddings := Some (array [1; 1]%nat [0]); do_mono := false;
     assignments := Some (array [1; 1; 1]%nat [1%Z]);
     centroids := Some (array [1; 1]%nat [0]); masks := None |}.

(** [b] is [a] with the three fields of [_compute_spectrograms] rebound. *)
Definition same_except_spectrograms (a b : DeepClustering) : Prop :=
  exists s m k,
    b = rebind a s m k (embeddings a) (assignments a) (centroids a) (masks a).

(** [b] is [a] with another transform. *)
Definition same_except_stft (a b : AudioSignal) : Prop :=
  exists s, b = set_stft_data s a.

(** [b] is [a] with the three fields of [deep_clustering] rebound. *)
Definition same_except_clustering (a b : DeepClustering) : Prop :=
  exists e asg c,
    b = rebind a (stft a) (mel_spectrogram a) (silence_mask a) e asg c (masks a).

(** [b] has the configuration of [a]: the same signal, policy, sizes, filter
    banks, network and clusterer. *)
Definition same_except_results (a b : DeepClustering) : Prop :=
  exists s m k e asg c ms, b = rebind a s m k e asg c ms.

(** What a method may have done to the state [st0] it started from. *)
Definition run_frame (st0 st : State) : Prop :=
  same_except_results (this st0) (this st) /\
  (forall l, l <> audio_signal (this st0) -> heap (world st) l = heap (world st0) l) /\
  same_except_stft (heap (world st0) (audio_signal (this st0)))
                   (heap (world st) (audio_signal (this st0))) /\
  exists t, trace (world st) = trace (world st0) ++ t.

(** The kind of a mask object agrees with the policy of the separator. *)
Definition of_policy (self : DeepClustering) (o : mask_object) : Prop :=
  match o with
  | BinaryMask _ => mask_type self = BINARY_MASK
  | SoftMask _ => mask_type self = SOFT_MASK
  end.


(** The same separator asked for no source at all. *)
Definition no_sources (self : DeepClustering) : DeepClustering :=
  {| audio_signal := audio_signal self; mask_type := mask_type self;
     model_path := model_path self; resample_rate := resample_rate self;
     use_librosa_stft := use_librosa_stft self; num_mels := num_mels self;
     num_sources := 0; num_fft := num_fft self;
     mel_filter_bank := mel_filter_bank self;
     inverse_mel_filter_bank := inverse_mel_filter_bank self;
     max_distance := max_distance self; use_cuda := use_cuda self;
     stft := stft self; mel_spectrogram := mel_spectrogram self;
     silence_mask := silence_mask self; cutoff := cutoff self;
     model := model self; n_clusters := 0; embeddings := embeddings self;
     do_mono := do_mono self; assignments := assignments self;
     centroids := centroids self; masks := masks self |}.

(** ** Other collaborators

    [MaskSeparationBase] is not among the sources, and the collaborators of
    the small configuration give it the simplest constructor: it binds the
    object it is handed and stores any mask type.  The ones below differ. *)

(** A base class constructor that accepts only the two mask types and keeps
    a copy of the signal it is given: the copy is stored at the next location
    and [self.audio_signal] refers to it. *)
Definition copying_externals : Externals :=
  {| separation_base_init := fun l mt w =>
       if String.eqb mt BINARY_MASK || String.eqb mt SOFT_MASK
       then (Ok (S l, mt), set_heap (upd (heap w) (S l) (heap w l)) w)
       else (Raise (ValueError "Invalid mask type"), w);
     resample := resample (Externals := demo_externals);
     to_mono := to_mono (Externals := demo_externals);
     stft_transform := stft_transform (Externals := demo_externals);
     mel_filters_T := mel_filters_T (Externals := demo_externals);
     pinv := pinv (Externals := demo_externals);
     cuda_is_available := false;
     load_network := load_network (Externals := demo_externals);
     kmeans_fit := kmeans_fit (Externals := demo_externals) |}.

(** Collaborators whose model file cannot be read. *)
Definition unloadable_externals : Externals :=
  {| separation_base_init := separation_base_init (Externals := demo_externals);
     resample := resample (Externals := demo_externals);
     to_mono := to_mono (Externals := demo_externals);
     stft_transform := stft_transform (Externals := demo_externals);
     mel_filters_T := mel_filters_T (Externals := demo_externals);
     pinv := pinv (Externals := demo_externals);
     cuda_is_available := false;
     load_network := fun _ _ _ _ => Raise (ExternalError "No such file");
     kmeans_fit := kmeans_fit (Externals := demo_externals) |}.


(** A separator over three frequency bins and two mel bands whose filter
    bank gives no weight to the lowest bin, as the mel filters of line 89 do
    with their default lower edge of 0 Hz: the row of that bin is zero in the
    bank and its column is zero in the pseudo-inverse. *)
Definition demo_dc : DeepClustering :=
  {| audio_signal := 0%nat; mask_type := BINARY_MASK; model_path := "model.h5";
     resample_rate := 44100; use_librosa_stft := false; num_mels := 2;
     num_sources := 2; num_fft := 4;
     mel_filter_bank := array [3; 2]%nat [0; 0; 1; 0; 0; 1];
     inverse_mel_filter_bank := array [2; 3]%nat [0; 1; 0; 0; 0; 1];
     max_distance := 1; use_cuda := false; stft := None;
     mel_spectrogram := None; silence_mask := None;
     cutoff := -40; model := demo_network; n_clusters := 2;
     embeddings := None; do_mono := false;
     assignments := None; centroids := None; masks := None |}.

(** Column [f] of the inverse filter bank is zero. *)
Definition zero_column (self : DeepClustering) (M f : nat) : Prop :=
  forall m, (m < M)%nat -> get2 0 (inverse_mel_filter_bank self) m f = 0.

(** * Properties *)

(** ** Lists and reductions *)

Lemma eps_pos : 0 < eps.
Proof. unfold eps; lra. Qed.

Lemma fold_min_le (xs : list R) (x y : R) :
  In y (x :: xs) -> fold_right Rmin x xs <= y.
Proof.
  induction xs as [|z zs IH]; simpl.
  - intros [->|[]]; lra.
  - intros [->|[->|H]].
    + eapply Rle_trans; [apply Rmin_r|]. apply IH; now left.
    + apply Rmin_l.
    + eapply Rle_trans; [apply Rmin_r|]. apply IH; now right.
Qed.

Lemma fold_min_in (xs : list R) (x : R) : In (fold_right Rmin x xs) (x :: xs).
Proof.
  induction xs as [|z zs IH]; simpl.
  - now left.
  - destruct (Rle_dec z (fold_right Rmin x zs)).
    + rewrite Rmin_left by assumption. right; now left.
    + rewrite Rmin_right by lra.
      destruct IH as [H|H]; [now left | right; now right].
Qed.

Lemma fold_max_ge (xs : list R) (x y : R) :
  In y (x :: xs) -> y <= fold_right Rmax x xs.
Proof.
  induction xs as [|z zs IH]; simpl.
  - intros [->|[]]; lra.
  - intros [->|[->|H]].
    + eapply Rle_trans; [|apply Rmax_r]. apply IH; now left.
    + apply Rmax_l.
    + eapply Rle_trans; [|apply Rmax_r]. apply IH; now right.
Qed.

Lemma fold_max_in (xs : list R) (x : R) : In (fold_right Rmax x xs) (x :: xs).
Proof.
  induction xs as [|z zs IH]; simpl.
  - now left.
  - destruct (Rle_dec z (fold_right Rmax x zs)).
    + rewrite Rmax_right by assumption.
      destruct IH as [H|H]; [now left | right; now right].
    + rewrite Rmax_left by lra. right; now left.
Qed.

(** What [np.min] and [np.max] return on a buffer that is not empty. *)
Lemma min_spec (a : ndarray R) :
  data a <> [] ->
  exists m, np.min a = Ok m /\ In m (data a) /\ forall y, In y (data a) -> m <= y.
Proof.
  unfold np.min. destruct (data a) as [|x xs]; [congruence|]. intros _.
  eexists; split; [reflexivity|]. split.
  - apply fold_min_in.
  - intros y Hy. now apply fold_min_le.
Qed.

Lemma max_spec (a : ndarray R) :
  data a <> [] ->
  exists m, np.max a = Ok m /\ In m (data a) /\ forall y, In y (data a) -> y <= m.
Proof.
  unfold np.max. destruct (data a) as [|x xs]; [congruence|]. intros _.
  eexists; split; [reflexivity|]. split.
  - apply fold_max_in.
  - intros y Hy. now apply fold_max_ge.
Qed.

Lemma min_ok_inv (a : ndarray R) (m : R) :
  np.min a = Ok m -> In m (data a) /\ forall y, In y (data a) -> m <= y.
Proof.
  unfold np.min. destruct (data a) as [|x xs]; [discriminate|].
  intros H; injection H as <-. split.
  - apply fold_min_in.
  - intros y Hy. now apply fold_min_le.
Qed.

Lemma max_ok_inv (a : ndarray R) (m : R) :
  np.max a = Ok m -> In m (data a) /\ forall y, In y (data a) -> y <= m.
Proof.
  unfold np.max. destruct (data a) as [|x xs]; [discriminate|].
  intros H; injection H as <-. split.
  - apply fold_max_in.
  - intros y Hy. now apply fold_max_ge.
Qed.

(** Row-major buffers built row by row. *)
Lemma length_rows {A : Type} (g : nat -> nat -> A) (m n s : nat) :
  length (flat_map (fun i => map (g i) (seq 0 m)) (seq s n)) = (n * m)%nat.
Proof.
  revert s; induction n as [|n IH]; intros s; simpl; [reflexivity|].
  rewrite length_app, length_map, length_seq, IH. reflexivity.
Qed.

Lemma nth_rows {A : Type} (g : nat -> nat -> A) (d : A) (m n s i j : nat) :
  (i < n)%nat -> (j < m)%nat ->
  nth (i * m + j) (flat_map (fun i => map (g i) (seq 0 m)) (seq s n)) d
  = g (s + i)%nat j.
Proof.
  revert s i; induction n as [|n IH]; intros s i Hi Hj; [lia|].
  simpl. destruct i as [|i].
  - rewrite app_nth1 by (rewrite length_map, length_seq; lia).
    simpl. rewrite (nth_indep _ d (g s 0%nat))
      by (rewrite length_map, length_seq; lia).
    rewrite (map_nth (g s) (seq 0 m) 0%nat j), seq_nth by lia.
    now rewrite Nat.add_0_r.
  - rewrite app_nth2 by (rewrite length_map, length_seq; simpl; lia).
    rewrite length_map, length_seq.
    replace (S i * m + j - m)%nat with (i * m + j)%nat by (simpl; lia).
    rewrite IH by lia. f_equal; lia.
Qed.

Lemma flat_map_agree {A B : Type} (f g : A -> list B) (l : list A) :
  (forall a, In a l -> f a = g a) -> flat_map f l = flat_map g l.
Proof.
  intros H. rewrite !flat_map_concat_map. f_equal. now apply map_ext_in.
Qed.

Lemma nth_map_seq {A : Type} (g : nat -> A) (d : A) (n j : nat) :
  (j < n)%nat -> nth j (map g (seq 0 n)) d = g j.
Proof.
  intros Hj. rewrite (nth_indep _ d (g 0%nat)) by (rewrite length_map, length_seq; lia).
  rewrite (map_nth g (seq 0 n) 0%nat j), seq_nth by lia. reflexivity.
Qed.

(** ** Outcomes *)

Lemma bind_ok {A B : Type} (c : result A) (k : A -> result B) (b : B) :
  bind c k = Ok b -> exists a, c = Ok a /\ k a = Ok b.
Proof. destruct c; simpl; try discriminate. intros H; now exists a. Qed.

Tactic Notation "bind_inv" hyp(H) "as" ident(x) ident(Hx) :=
  apply bind_ok in H; destruct H as (x & Hx & H).

Lemma same_shape_refl (s : list nat) : same_shape s s = true.
Proof. unfold same_shape. destruct (list_eq_dec Nat.eq_dec s s); congruence. Qed.

(** ** The array operations on well-shaped arguments *)

Lemma index0_ok {A : Type} (a : ndarray A) (c i : nat) (rest : list nat) :
  shape a = c :: rest -> (i < c)%nat ->
  index0 a i = Ok (array rest (firstn (size rest) (skipn (i * size rest) (data a)))).
Proof.
  intros Hs Hi. unfold index0. rewrite Hs.
  apply Nat.ltb_lt in Hi. now rewrite Hi.
Qed.

Lemma channel_ok {A : Type} (a : ndarray A) (C T M ch : nat) :
  shape a = [C; T; M] -> (ch < C)%nat ->
  channel a ch
  = Ok (array [T; M] (firstn (T * M) (skipn (ch * (T * M)) (data a)))).
Proof.
  intros Hs Hc. unfold channel. rewrite Hs. simpl length. simpl Nat.leb.
  rewrite (index0_ok a C ch [T; M] Hs Hc). simpl size.
  now rewrite Nat.mul_1_r.
Qed.

Lemma nth_channel {A : Type} (l : list A) (d : A) (n k j : nat) :
  (j < n)%nat -> nth j (firstn n (skipn k l)) d = nth (k + j) l d.
Proof.
  intros Hj. rewrite nth_firstn. apply Nat.ltb_lt in Hj. rewrite Hj.
  apply nth_skipn.
Qed.

Lemma length_channel {A : Type} (l : list A) (C n ch : nat) :
  length l = (C * n)%nat -> (ch < C)%nat ->
  length (firstn n (skipn (ch * n) l)) = n.
Proof.
  intros Hl Hc. rewrite length_firstn, length_skipn, Hl. nia.
Qed.

Lemma distances_to_ok (e c : ndarray R) (N K : nat) :
  shape e = [N; K] -> shape c = [K] ->
  distances_to e c
  = Ok (array [N]
          (map (fun i =>
             sqrt (lsum (map (fun j =>
               (nth (i * K + j) (data e) 0 - nth j (data c) 0) ^ 2) (seq 0 K))))
             (seq 0 N))).
Proof.
  intros He Hc. unfold distances_to. rewrite He, Hc. simpl rev. cbv iota beta.
  rewrite Nat.eqb_refl. simpl orb. cbv iota. simpl size. rewrite Nat.mul_1_r.
  do 2 f_equal. apply map_ext. intros i. do 2 f_equal.
  apply map_ext_in. intros j Hj. apply in_seq in Hj.
  destruct (Nat.eqb_spec K 1) as [->|_]; [|reflexivity].
  replace j with 0%nat by lia. reflexivity.
Qed.

Lemma distances_to_nonneg (e c d : ndarray R) :
  distances_to e c = Ok d -> forall x, In x (data d) -> 0 <= x.
Proof.
  unfold distances_to. destruct (rev (shape e)) as [|k pre]; [discriminate|].
  destruct (shape c) as [|k' [|? ?]]; try discriminate.
  destruct (_ || _ || _); [|discriminate].
  intros H; injection H as <-. simpl. intros x Hx.
  apply in_map_iff in Hx. destruct Hx as (i & <- & _). apply sqrt_pos.
Qed.

Lemma elementwise_ok {A B C : Type} (f : A -> B -> C) (a : ndarray A) (b : ndarray B) :
  shape a = shape b ->
  elementwise f a b
  = Ok (array (shape a) (map (fun p => f (fst p) (snd p)) (combine (data a) (data b)))).
Proof. intros H. unfold elementwise. now rewrite H, same_shape_refl. Qed.

Lemma nth_zip {A B C : Type} (f : A -> B -> C) (la : list A) (lb : list B)
    (da : A) (db : B) (dc : C) (j : nat) :
  length la = length lb -> (j < length la)%nat ->
  nth j (map (fun p => f (fst p) (snd p)) (combine la lb)) dc
  = f (nth j la da) (nth j lb db).
Proof.
  intros Hl Hj.
  rewrite (nth_indep _ dc (f da db))
    by (rewrite length_map, length_combine; lia).
  change (f da db) with ((fun p => f (fst p) (snd p)) (da, db)).
  rewrite map_nth. now rewrite combine_nth.
Qed.

Lemma reshape_ok {A : Type} (a : ndarray A) (shp : list nat) :
  size shp = length (data a) -> reshape a shp = Ok (array shp (data a)).
Proof. intros H. unfold reshape. now rewrite H, Nat.eqb_refl. Qed.

Lemma dot_ok (a b : ndarray R) (n k m : nat) :
  shape a = [n; k] -> shape b = [k; m] ->
  np.dot a b
  = Ok (array [n; m]
          (flat_map (fun i =>
             map (fun j =>
               lsum (map (fun l => nth (i * k + l) (data a) 0
                                    * nth (l * m + j) (data b) 0) (seq 0 k)))
                 (seq 0 m))
             (seq 0 n))).
Proof. intros Ha Hb. unfold np.dot. now rewrite Ha, Hb, Nat.eqb_refl. Qed.

(** ** Scaling by the maximum plus epsilon *)

Lemma div_range (x m : R) : 0 <= x <= m -> 0 <= x / (m + eps) < 1.
Proof.
  intros [H0 Hm]. pose proof eps_pos as He. split.
  - unfold Rdiv. apply Rmult_le_pos; [lra|].
    left. apply Rinv_0_lt_compat. lra.
  - apply (Rmult_lt_reg_r (m + eps)); [lra|].
    unfold Rdiv. rewrite Rmult_assoc, Rinv_l by lra. lra.
Qed.

Lemma div_scalar_ok (a : ndarray R) (d : R) :
  d <> 0 -> div_scalar a d = Ok (amap (fun x => x / d) a).
Proof. intros H. unfold div_scalar. destruct (Req_dec_T d 0); congruence. Qed.

(** Dividing an array of non-negative entries by its maximum plus epsilon is
    defined and lands in [0, 1). *)
Lemma div_by_max (a : ndarray R) (mx : R) :
  np.max a = Ok mx ->
  (forall x, In x (data a) -> 0 <= x) ->
  0 <= mx /\
  div_scalar a (mx + eps) = Ok (amap (fun x => x / (mx + eps)) a) /\
  forall x, In x (data a) -> 0 <= x / (mx + eps) < 1.
Proof.
  intros Hmx Hpos. apply max_ok_inv in Hmx. destruct Hmx as [Hin Hge].
  pose proof eps_pos as He. pose proof (Hpos mx Hin) as H0.
  split; [assumption|]. split.
  - apply div_scalar_ok. lra.
  - intros x Hx. apply div_range. split; [now apply Hpos | now apply Hge].
Qed.

Lemma amap_id {A : Type} (f : A -> A) (a : ndarray A) :
  (forall x, In x (data a) -> f x = x) -> amap f a = a.
Proof.
  intros H. destruct a as [s l]. unfold amap; simpl in *. f_equal.
  rewrite <- (map_id l) at 2. now apply map_ext_in.
Qed.

(** ** Lines 187-190: the distances *)

(** The entries of the scaled distances lie in [0, 1). *)
Lemma normalized_distances_range (self : DeepClustering) (s : nat) (d : ndarray R) :
  normalized_distances self s = Ok d ->
  forall x, In x (data d) -> 0 <= x < 1.
Proof.
  unfold normalized_distances. intros H.
  bind_inv H as c Hc. bind_inv H as row Hrow. bind_inv H as e He.
  bind_inv H as dist Hdist. bind_inv H as mn Hmin. bind_inv H as mx Hmax.
  pose proof (distances_to_nonneg _ _ _ Hdist) as Hpos.
  apply min_ok_inv in Hmin. destruct Hmin as [Hmn _].
  assert (Hshift : forall y, In y (data (amap (fun x => x + mn) dist)) -> 0 <= y).
  { simpl. intros y Hy. apply in_map_iff in Hy. destruct Hy as (z & <- & Hz).
    pose proof (Hpos z Hz). pose proof (Hpos mn Hmn). lra. }
  destruct (div_by_max _ _ Hmax Hshift) as (_ & Hdiv & Hrange).
  rewrite Hdiv in H. injection H as <-. simpl.
  intros x Hx. apply in_map_iff in Hx. destruct Hx as (z & <- & Hz).
  now apply Hrange.
Qed.

Lemma normalized_distances_ok (self : DeepClustering) (e c : ndarray R)
    (S N K s : nat) :
  centroids self = Some c -> shape c = [S; K] ->
  embeddings self = Some e -> shape e = [N; K] ->
  (1 <= s <= S)%nat -> (0 < N)%nat ->
  exists dist mn mx,
    dist = map (fun i =>
             sqrt (lsum (map (fun j =>
               (nth (i * K + j) (data e) 0
                - nth j (firstn K (skipn ((s - 1) * K) (data c))) 0) ^ 2)
               (seq 0 K))))
             (seq 0 N) /\
    length dist = N /\
    np.min (array [N] dist) = Ok mn /\
    np.max (array [N] (map (fun x => x + mn) dist)) = Ok mx /\
    normalized_distances self s
      = Ok (array [N] (map (fun x => (x + mn) / (mx + eps)) dist)).
Proof.
  intros Hc Hsc He Hse Hs HN.
  unfold normalized_distances. rewrite Hc, He. simpl.
  rewrite (index0_ok c S (s - 1) [K] Hsc) by lia. simpl size.
  rewrite Nat.mul_1_r. simpl.
  rewrite (distances_to_ok e
             (array [K] (firstn K (skipn ((s - 1) * K) (data c)))) N K Hse eq_refl).
  simpl.
  set (dist := map _ (seq 0 N)).
  assert (Hlen : length dist = N) by (unfold dist; now rewrite length_map, length_seq).
  assert (Hne : data (array [N] dist) <> []).
  { simpl. intros E. rewrite E in Hlen. simpl in Hlen. lia. }
  destruct (min_spec _ Hne) as (mn & Hmin & Hmn_in & _).
  rewrite Hmin. simpl.
  assert (Hpos : forall x, In x dist -> 0 <= x).
  { intros x Hx. unfold dist in Hx. apply in_map_iff in Hx.
    destruct Hx as (i & <- & _). apply sqrt_pos. }
  assert (Hne' : data (amap (fun x => x + mn) (array [N] dist)) <> []).
  { simpl. intros E. apply (f_equal (@length R)) in E.
    rewrite length_map in E. simpl in E. lia. }
  destruct (max_spec _ Hne') as (mx & Hmax & _ & _).
  rewrite Hmax. simpl.
  assert (Hshift : forall y, In y (data (amap (fun x => x + mn) (array [N] dist)))
                             -> 0 <= y).
  { simpl. intros y Hy. apply in_map_iff in Hy. destruct Hy as (z & <- & Hz).
    pose proof (Hpos z Hz). pose proof (Hpos mn Hmn_in). lra. }
  destruct (div_by_max _ _ Hmax Hshift) as (_ & Hdiv & _).
  rewrite Hdiv. exists dist, mn, mx.
  repeat split; try assumption. unfold amap; simpl. now rewrite map_map.
Qed.

(** C10.  With [max_distance >= 1] (the default is 1), line 190 changes
    nothing: once the shifted distances are divided by their maximum plus
    epsilon, every one of them is strictly below 1, so none exceeds
    [max_distance] and the clipped array is the array itself. *)
Theorem clip_is_identity_from_one (self : DeepClustering) (s : nat) (d : ndarray R) :
  1 <= max_distance self ->
  normalized_distances self s = Ok d ->
  (forall x, In x (data d) -> x < 1) /\
  clip (max_distance self) d = d /\
  soft_distances self s = Ok d.
Proof.
  intros Hmax Hd.
  pose proof (normalized_distances_range self s d Hd) as Hrange.
  assert (Hclip : clip (max_distance self) d = d).
  { unfold clip. apply amap_id. intros x Hx.
    destruct (Rlt_dec (max_distance self) x) as [Hlt|_]; [|reflexivity].
    destruct (Hrange x Hx). lra. }
  split; [intros x Hx; now apply Hrange|]. split; [assumption|].
  unfold soft_distances. rewrite Hd. simpl. now rewrite Hclip.
Qed.

Lemma clip_is_identity_from_one_witness :
  exists d : ndarray R,
    (1 <= max_distance demo_soft /\ normalized_distances demo_soft 1 = Ok d) /\
    ((forall x, In x (data d) -> x < 1) /\
     clip (max_distance demo_soft) d = d /\
     soft_distances demo_soft 1 = Ok d).
Proof.
  destruct (normalized_distances_ok demo_soft (array [2; 1]%nat [0; 1])
              (array [2; 1]%nat [0; 1]) 2 2 1 1
              eq_refl eq_refl eq_refl eq_refl)
    as (dist & mn & mx & _ & _ & _ & _ & Hd); [lia | lia |].
  eexists. split.
  - split; [simpl; lra | exact Hd].
  - apply (clip_is_identity_from_one demo_soft 1 _); [simpl; lra | exact Hd].
Defined.

(** ** Line 185: the binary mask *)

Lemma binary_mel_mask_ok (self : DeepClustering) (sil : ndarray bool)
    (asg : ndarray Z) (C T M ch s : nat) :
  silence_mask self = Some sil -> shape sil = [C; T; M] ->
  assignments self = Some asg -> shape asg = [C; T; M] ->
  (ch < C)%nat ->
  binary_mel_mask self ch s
  = Ok (array [T; M]
          (map (fun z => Z.eqb z (Z.of_nat s))
             (map (fun p : bool * Z => if fst p then snd p else 0%Z)
                (combine (firstn (T * M) (skipn (ch * (T * M)) (data sil)))
                         (firstn (T * M) (skipn (ch * (T * M)) (data asg))))))).
Proof.
  intros Hsil Hss Hasg Hsa Hch. unfold binary_mel_mask.
  rewrite Hsil, Hasg. simpl.
  rewrite (channel_ok sil C T M ch Hss Hch). simpl.
  rewrite (channel_ok asg C T M ch Hsa Hch). simpl.
  rewrite elementwise_ok by reflexivity. reflexivity.
Qed.

Lemma size3 (C T M : nat) : size [C; T; M] = (C * (T * M))%nat.
Proof. simpl. now rewrite Nat.mul_1_r. Qed.

Lemma index3 (T M ch t m : nat) :
  ((ch * T + t) * M + m = ch * (T * M) + (t * M + m))%nat.
Proof. ring. Qed.

Lemma bin_in_range (T M t m : nat) :
  (t < T)%nat -> (m < M)%nat -> (t * M + m < T * M)%nat.
Proof. nia. Qed.

(** C3.  Under the binary policy the mel-domain mask of source [s], for [s]
    in the range [1 .. num_sources] of the loop, is 1 at the bins of the
    channel where the silence mask is true and the assignment is [s], and 0
    at every other bin. *)
Theorem binary_mask_is_gated_assignment (self : DeepClustering)
    (sil : ndarray bool) (asg : ndarray Z) (C T M ch s : nat) :
  silence_mask self = Some sil -> shape sil = [C; T; M] -> wf sil ->
  assignments self = Some asg -> shape asg = [C; T; M] -> wf asg ->
  (ch < C)%nat -> In s (seq 1 (num_sources self)) ->
  exists mask,
    binary_mel_mask self ch s = Ok mask /\
    shape mask = [T; M] /\
    forall t m, (t < T)%nat -> (m < M)%nat ->
      get2 0 (amap b2r mask) t m
      = if get3 false sil ch t m && Z.eqb (get3 0%Z asg ch t m) (Z.of_nat s)
        then 1 else 0.
Proof.
  intros Hsil Hss Hws Hasg Hsa Hwa Hch Hs.
  rewrite (binary_mel_mask_ok self sil asg C T M ch s Hsil Hss Hasg Hsa Hch).
  eexists. split; [reflexivity|]. split; [reflexivity|].
  intros t m Ht Hm. unfold get2, get3. rewrite Hss, Hsa. simpl shape. cbv iota.
  simpl data. rewrite !map_map.
  unfold wf in Hws, Hwa. rewrite Hss, size3 in Hws. rewrite Hsa, size3 in Hwa.
  pose proof (bin_in_range T M t m Ht Hm) as Hj.
  assert (Hls : length (firstn (T * M) (skipn (ch * (T * M)) (data sil))) = (T * M)%nat)
    by now apply (length_channel _ C).
  assert (Hla : length (firstn (T * M) (skipn (ch * (T * M)) (data asg))) = (T * M)%nat)
    by now apply (length_channel _ C).
  rewrite (nth_zip (fun (b : bool) (z : Z) =>
                      b2r (Z.eqb (if b then z else 0%Z) (Z.of_nat s)))
             _ _ false 0%Z 0 (t * M + m)) by lia.
  rewrite !nth_channel by assumption. rewrite !index3.
  apply in_seq in Hs.
  destruct (nth _ (data sil) false); cbn [andb].
  - destruct (Z.eqb _ _); reflexivity.
  - destruct (Z.eqb_spec 0 (Z.of_nat s)) as [E|_]; [lia | reflexivity].
Qed.

Lemma binary_mask_is_gated_assignment_witness :
  exists mask,
    binary_mel_mask demo_binary 0 2 = Ok mask /\
    shape mask = [1; 2]%nat /\
    forall t m, (t < 1)%nat -> (m < 2)%nat ->
      get2 0 (amap b2r mask) t m
      = if get3 false (array [1; 1; 2]%nat [true; true]) 0 t m
           && Z.eqb (get3 0%Z (array [1; 1; 2]%nat [1%Z; 2%Z]) 0 t m) (Z.of_nat 2)
        then 1 else 0.
Proof.
  apply (binary_mask_is_gated_assignment demo_binary
           (array [1; 1; 2]%nat [true; true])
           (array [1; 1; 2]%nat [1%Z; 2%Z]) 1 1 2 0 2);
    try reflexivity; try lia.
  simpl. tauto.
Defined.

(** ** Lines 187-192: the soft mask *)

Lemma nth_map_in {A B : Type} (f : A -> B) (l : list A) (d : A) (d' : B) (j : nat) :
  (j < length l)%nat -> nth j (map f l) d' = f (nth j l d).
Proof.
  intros Hj. rewrite (nth_indep _ d' (f d)) by now rewrite length_map.
  apply map_nth.
Qed.

Lemma zip_as_seq {C : Type} (f : R -> R -> C) (x y : list R) (k : nat) :
  length x = k -> length y = k ->
  map (fun p => f (fst p) (snd p)) (combine x y)
  = map (fun j => f (nth j x 0) (nth j y 0)) (seq 0 k).
Proof.
  revert y k. induction x as [|a x IH]; intros y k Hx Hy.
  - simpl in Hx; subst k. reflexivity.
  - destruct y as [|b y]; [simpl in *; lia|].
    destruct k as [|k]; [simpl in Hx; lia|].
    simpl in Hx, Hy. simpl. f_equal.
    rewrite <- seq_shift, map_map. apply IH; lia.
Qed.

Lemma min_is_minimum (a : ndarray R) (m : R) :
  np.min a = Ok m -> m = minimum (data a).
Proof.
  unfold np.min, minimum. destruct (data a); [discriminate|].
  now intros H; injection H.
Qed.

Lemma max_is_maximum (a : ndarray R) (m : R) :
  np.max a = Ok m -> m = maximum (data a).
Proof.
  unfold np.max, maximum. destruct (data a); [discriminate|].
  now intros H; injection H.
Qed.

(** The distance computed by line 187 is the Euclidean distance of the rows. *)
Lemma distance_is_euclidean (e c : ndarray R) (N S K i r : nat) :
  shape e = [N; K] -> wf e -> shape c = [S; K] -> wf c ->
  (i < N)%nat -> (r < S)%nat ->
  sqrt (lsum (map (fun j =>
          (nth (i * K + j) (data e) 0
           - nth j (firstn K (skipn (r * K) (data c))) 0) ^ 2) (seq 0 K)))
  = euclidean (row e i) (row c r).
Proof.
  intros He Hwe Hc Hwc Hi Hr. unfold euclidean, row. rewrite He, Hc.
  unfold wf in Hwe, Hwc. rewrite He in Hwe. rewrite Hc in Hwc.
  simpl in Hwe, Hwc. rewrite Nat.mul_1_r in Hwe, Hwc.
  rewrite (zip_as_seq (fun a b => (a - b) ^ 2) _ _ K).
  - do 2 f_equal. apply map_ext_in. intros j Hj. apply in_seq in Hj.
    rewrite (nth_channel (data e)) by lia. reflexivity.
  - now apply (length_channel _ N).
  - now apply (length_channel _ S).
Qed.

Lemma soft_mel_mask_from (self : DeepClustering) (nd mel : ndarray R)
    (sil : ndarray bool) (C T M ch s : nat) :
  normalized_distances self s = Ok nd ->
  length (data nd) = (C * (T * M))%nat ->
  mel_spectrogram self = Some mel -> shape mel = [C; T; M] ->
  silence_mask self = Some sil -> shape sil = [C; T; M] ->
  (ch < C)%nat ->
  soft_mel_mask self ch s
  = Ok (array [T; M]
          (map (fun p : bool * R => b2r (fst p) * snd p)
             (combine
                (firstn (T * M) (skipn (ch * (T * M)) (data sil)))
                (firstn (T * M) (skipn (ch * (T * M))
                   (map (fun x => 1 - x)
                      (map (fun x => if Rlt_dec (max_distance self) x then 1 else x)
                         (data nd)))))))).
Proof.
  intros Hnd Hlen Hmel Hsm Hsil Hss Hch.
  unfold soft_mel_mask, soft_distances. rewrite Hnd. simpl.
  rewrite Hmel. simpl. rewrite Hsm.
  rewrite reshape_ok by (rewrite size3; simpl; now rewrite length_map).
  simpl. rewrite Hsil. simpl.
  rewrite (channel_ok sil C T M ch Hss Hch). simpl.
  rewrite (channel_ok (amap _ (array [C; T; M] _)) C T M ch eq_refl Hch). simpl.
  rewrite elementwise_ok by reflexivity. reflexivity.
Qed.

(** C1.  Under the soft policy the mel-domain mask of source [s] is, bin by
    bin, the value the specification describes: Euclidean distance to
    centroid [s], plus the minimum distance, over the maximum plus epsilon,
    set to 1 above [max_distance], subtracted from 1, times the silence mask
    of the channel. *)
Theorem soft_mask_follows_spec (self : DeepClustering) (e c mel : ndarray R)
    (sil : ndarray bool) (C T M K ch s : nat) :
  embeddings self = Some e -> shape e = [(C * (T * M))%nat; K] -> wf e ->
  centroids self = Some c -> shape c = [num_sources self; K] -> wf c ->
  mel_spectrogram self = Some mel -> shape mel = [C; T; M] ->
  silence_mask self = Some sil -> shape sil = [C; T; M] -> wf sil ->
  (ch < C)%nat -> (0 < T * M)%nat -> In s (seq 1 (num_sources self)) ->
  exists mask,
    soft_mel_mask self ch s = Ok mask /\
    shape mask = [T; M] /\
    forall t m, (t < T)%nat -> (m < M)%nat ->
      get2 0 mask t m = spec_soft_value (max_distance self) e c sil s ch t m.
Proof.
  intros He Hse Hwe Hc Hsc Hwc Hmel Hsm Hsil Hss Hws Hch HTM Hs.
  apply in_seq in Hs.
  set (N := (C * (T * M))%nat) in *.
  assert (HN : (0 < N)%nat) by (unfold N; nia).
  destruct (normalized_distances_ok self e c (num_sources self) N K s
              Hc Hsc He Hse) as (dist & mn & mx & Hdist & Hlen & Hmin & Hmax & Hnd);
    [lia | assumption |].
  simpl data in Hdist.
  apply min_is_minimum in Hmin. apply max_is_maximum in Hmax.
  simpl data in Hmin, Hmax.
  rewrite (soft_mel_mask_from self _ mel sil C T M ch s Hnd) ; try assumption;
    [| simpl; now rewrite length_map].
  eexists. split; [reflexivity|]. split; [reflexivity|].
  intros t m Ht Hm.
  pose proof (bin_in_range T M t m Ht Hm) as Hj.
  unfold wf in Hws. rewrite Hss, size3 in Hws.
  unfold get2. simpl shape. cbv iota. simpl data.
  rewrite (nth_zip (fun (b : bool) (x : R) => b2r b * x) _ _ false 0 0).
  2:{ rewrite (length_channel _ C) by assumption.
      rewrite (length_channel _ C); [reflexivity | | assumption].
      now rewrite !length_map. }
  2:{ now rewrite (length_channel _ C). }
  rewrite !nth_channel by assumption. rewrite <- index3.
  set (bin := ((ch * T + t) * M + m)%nat).
  assert (Hbin : (bin < N)%nat) by (unfold bin, N; rewrite index3; nia).
  unfold spec_soft_value, get3. rewrite Hss, Hse. simpl hd. fold bin. fold N.
  f_equal. f_equal.
  rewrite (nth_map_in _ _ 0) by (rewrite !length_map; lia).
  rewrite (nth_map_in _ _ 0) by (rewrite length_map; lia).
  rewrite (nth_map_in _ _ 0) by lia.
  assert (Hd : forall i, (i < N)%nat ->
             nth i dist 0 = euclidean (row e i) (row c (s - 1))).
  { intros i Hi. rewrite Hdist. rewrite nth_map_seq by assumption.
    apply (distance_is_euclidean e c N (num_sources self) K); try assumption. lia. }
  assert (Hall : dist = map (fun i => euclidean (row e i) (row c (s - 1))) (seq 0 N)).
  { apply (nth_ext _ _ 0 0).
    - now rewrite length_map, length_seq.
    - intros i Hi. rewrite Hlen in Hi. rewrite nth_map_seq by assumption.
      now apply Hd. }
  assert (Hshift : map (fun x => x + mn) dist
                   = map (fun i => euclidean (row e i) (row c (s - 1))
                                   + minimum (map (fun i => euclidean (row e i)
                                                   (row c (s - 1))) (seq 0 N)))
                         (seq 0 N)).
  { rewrite Hmin. rewrite Hall at 1. rewrite map_map. rewrite <- Hall. reflexivity. }
  rewrite Hshift in Hmax. rewrite Hd by assumption.
  rewrite <- Hmax, <- Hall, <- Hmin. reflexivity.
Qed.

Lemma soft_mask_follows_spec_witness :
  exists mask,
    soft_mel_mask demo_soft 0 1 = Ok mask /\
    shape mask = [1; 2]%nat /\
    forall t m, (t < 1)%nat -> (m < 2)%nat ->
      get2 0 mask t m
      = spec_soft_value 1 (array [2; 1]%nat [0; 1]) (array [2; 1]%nat [0; 1])
          (array [1; 1; 2]%nat [true; true]) 1 0 t m.
Proof.
  apply (soft_mask_follows_spec demo_soft
           (array [2; 1]%nat [0; 1]) (array [2; 1]%nat [0; 1])
           (array [1; 1; 2]%nat [-1; 1]) (array [1; 1; 2]%nat [true; true])
           1 1 2 1 0 1);
    try reflexivity; try lia.
  simpl. tauto.
Defined.

(** ** Lines 193-195: projection and normalisation *)

Lemma T_array (n m : nat) (l : list R) :
  np.T (array [n; m] l)
  = Ok (array [m; n]
          (flat_map (fun j => map (fun i => nth (i * m + j) l 0) (seq 0 n))
                    (seq 0 m))).
Proof. reflexivity. Qed.

Lemma dot_array (n k m : nat) (la lb : list R) :
  np.dot (array [n; k] la) (array [k; m] lb)
  = Ok (array [n; m]
          (flat_map (fun i =>
             map (fun j =>
               lsum (map (fun l => nth (i * k + l) la 0 * nth (l * m + j) lb 0)
                         (seq 0 k)))
                 (seq 0 m))
             (seq 0 n))).
Proof. now apply dot_ok. Qed.

Lemma project_ok (self : DeepClustering) (mask : ndarray R) (T M F : nat) :
  shape mask = [T; M] -> shape (inverse_mel_filter_bank self) = [M; F] ->
  project self mask
  = Ok (array [F; T]
          (flat_map (fun f =>
             map (fun t =>
               lsum (map (fun l =>
                 nth (t * M + l) (data mask) 0
                 * nth (l * F + f) (data (inverse_mel_filter_bank self)) 0)
                 (seq 0 M)))
               (seq 0 T))
             (seq 0 F))).
Proof.
  intros Hm Hi. unfold project.
  rewrite (dot_ok mask _ T M F Hm Hi). simpl.
  rewrite T_array. do 2 f_equal.
  apply flat_map_agree. intros f Hf. apply in_seq in Hf.
  apply map_ext_in. intros t Ht. apply in_seq in Ht.
  rewrite (nth_rows _ 0 F T 0 t f) by lia. reflexivity.
Qed.

(** The normalisation, on any array that is not empty. *)
Lemma normalize_ok (mask : ndarray R) :
  data mask <> [] ->
  exists mn mx,
    np.min mask = Ok mn /\
    np.max (amap (fun x => x + Rabs mn) mask) = Ok mx /\
    0 <= mx /\
    normalize mask
    = Ok (array (shape mask) (map (fun x => (x + Rabs mn) / (mx + eps)) (data mask))) /\
    (forall x, In x (data mask) -> 0 <= x + Rabs mn <= mx).
Proof.
  intros Hne. destruct (min_spec mask Hne) as (mn & Hmin & Hin & Hle).
  assert (Hne' : data (amap (fun x => x + Rabs mn) mask) <> []).
  { simpl. intros E. apply map_eq_nil in E. contradiction. }
  destruct (max_spec _ Hne') as (mx & Hmax & Hmx_in & Hmx_ge).
  assert (Hshift : forall y, In y (data (amap (fun x => x + Rabs mn) mask)) -> 0 <= y).
  { simpl. intros y Hy. apply in_map_iff in Hy. destruct Hy as (z & <- & Hz).
    pose proof (Hle z Hz). pose proof (Rle_abs mn).
    pose proof (Rabs_pos mn). unfold Rabs in *. destruct (Rcase_abs mn); lra. }
  destruct (div_by_max _ _ Hmax Hshift) as (Hmx0 & Hdiv & _).
  exists mn, mx. split; [assumption|]. split; [assumption|]. split; [assumption|].
  split.
  - unfold normalize. rewrite Hmin. simpl. rewrite Hmax. simpl.
    rewrite Hdiv. unfold amap; simpl. now rewrite map_map.
  - intros x Hx.
    assert (Hx' : In (x + Rabs mn) (data (amap (fun x => x + Rabs mn) mask))).
    { simpl. apply in_map_iff. exists x. split; [reflexivity | assumption]. }
    split; [now apply Hshift | now apply Hmx_ge].
Qed.

Lemma min_of_scaled (l : ndarray R) (mn k d : R) :
  0 < d ->
  np.min l = Ok mn ->
  np.min (array (shape l) (map (fun x => (x + k) / d) (data l)))
  = Ok ((mn + k) / d).
Proof.
  intros Hd Hmin. apply min_ok_inv in Hmin. destruct Hmin as [Hin Hle].
  set (out := array (shape l) (map (fun x => (x + k) / d) (data l))).
  assert (Hne : data out <> []).
  { simpl. intros E. apply map_eq_nil in E. rewrite E in Hin. contradiction. }
  destruct (min_spec out Hne) as (m' & Hm' & Hin' & Hle').
  rewrite Hm'. f_equal. simpl in Hin', Hle'.
  assert (Hmono : forall x y, x <= y -> (x + k) / d <= (y + k) / d).
  { intros x y Hxy. unfold Rdiv. apply Rmult_le_compat_r; [|lra].
    left. now apply Rinv_0_lt_compat. }
  apply Rle_antisym.
  - apply Hle'. apply in_map_iff. exists mn. split; [reflexivity | assumption].
  - apply in_map_iff in Hin'. destruct Hin' as (z & <- & Hz).
    apply Hmono. now apply Hle.
Qed.

Lemma normalization_floor (proj : ndarray R) :
  data proj <> [] ->
  exists mn mx,
    np.min proj = Ok mn /\
    normalize proj
    = Ok (array (shape proj) (map (fun x => (x + Rabs mn) / (mx + eps)) (data proj))) /\
    (forall x,
       In x (map (fun x => (x + Rabs mn) / (mx + eps)) (data proj)) -> 0 <= x < 1).
Proof.
  intros Hne.
  destruct (normalize_ok proj Hne) as (mn & mx & Hmin & _ & _ & Hnorm & Hrange).
  exists mn, mx. split; [assumption|]. split; [assumption|].
  intros x Hx. apply in_map_iff in Hx. destruct Hx as (z & <- & Hz).
  apply div_range. now apply Hrange.
Qed.

Lemma lsum_zero (l : list R) : (forall x, In x l -> x = 0) -> lsum l = 0.
Proof.
  induction l as [|x l IH]; intros H; simpl; [reflexivity|].
  rewrite (H x) by now left. rewrite IH; [lra|].
  intros y Hy. apply H. now right.
Qed.

(** The pseudo-inverse has a zero column: that frequency bin of the
    projected mask is zero at every frame. *)
Lemma zero_column_projects_to_zero (self : DeepClustering) (mask : ndarray R)
    (T M F f0 : nat) :
  shape mask = [T; M] -> shape (inverse_mel_filter_bank self) = [M; F] ->
  (0 < T)%nat -> (f0 < F)%nat -> zero_column self M f0 ->
  exists proj,
    project self mask = Ok proj /\ shape proj = [F; T] /\ In 0 (data proj).
Proof.
  intros Hm Hi HT Hf Hzero. rewrite (project_ok self mask T M F Hm Hi).
  eexists. split; [reflexivity|]. split; [reflexivity|].
  cbn [data]. apply in_flat_map. exists f0. split; [apply in_seq; lia|].
  apply in_map_iff. exists 0%nat. split; [|apply in_seq; lia].
  apply lsum_zero. intros x Hx. apply in_map_iff in Hx.
  destruct Hx as (l & <- & Hl). apply in_seq in Hl.
  assert (E : nth (l * F + f0) (data (inverse_mel_filter_bank self)) 0 = 0).
  { specialize (Hzero l ltac:(lia)). unfold get2 in Hzero.
    now rewrite Hi in Hzero. }
  rewrite E. ring.
Qed.

(** C7.  Every per-source mask, of either policy, is projected to linear
    frequency and then normalised by adding the absolute value of its minimum
    and dividing by the maximum of the shifted mask plus epsilon.  With an
    inverse filter bank that has a zero column, as the pseudo-inverse of a
    mel filter bank that gives no weight to the lowest frequency bin has, the
    projected minimum is not positive, so the minimum of the normalised mask
    is zero; its values lie in [0, 1]. *)
Theorem normalization_floor_is_zero (self : DeepClustering) (mask : ndarray R)
    (T M F f0 : nat) :
  shape mask = [T; M] -> shape (inverse_mel_filter_bank self) = [M; F] ->
  (0 < T)%nat -> (f0 < F)%nat -> zero_column self M f0 ->
  exists proj mn mx out,
    project self mask = Ok proj /\
    np.min proj = Ok mn /\
    np.max (amap (fun x => x + Rabs mn) proj) = Ok mx /\
    project_and_normalize self mask = Ok out /\
    out = array [F; T] (map (fun x => (x + Rabs mn) / (mx + eps)) (data proj)) /\
    np.min out = Ok 0 /\
    (forall x, In x (data out) -> 0 <= x <= 1).
Proof.
  intros Hm Hi HT Hf Hzero.
  destruct (zero_column_projects_to_zero self mask T M F f0 Hm Hi HT Hf Hzero)
    as (proj & Hproj & Hsp & Hin).
  assert (Hne : data proj <> []) by (intros E; rewrite E in Hin; contradiction).
  destruct (normalize_ok proj Hne) as (mn & mx & Hmin & Hmax & Hmx & Hnorm & Hrange).
  pose proof eps_pos as He.
  assert (Hle : mn <= 0) by (apply min_ok_inv in Hmin; now apply Hmin).
  exists proj, mn, mx. eexists.
  split; [exact Hproj|]. split; [exact Hmin|]. split; [exact Hmax|].
  split; [unfold project_and_normalize; rewrite Hproj; cbn [bind]; exact Hnorm|].
  rewrite Hsp. split; [reflexivity|]. split.
  - rewrite <- Hsp. rewrite (min_of_scaled proj mn (Rabs mn) (mx + eps)) by (lra || exact Hmin).
    f_equal. rewrite Rabs_left1 by exact Hle.
    replace (mn + - mn) with 0 by ring. unfold Rdiv. apply Rmult_0_l.
  - cbn [data]. intros x Hx. apply in_map_iff in Hx. destruct Hx as (z & <- & Hz).
    destruct (div_range (z + Rabs mn) mx (Hrange z Hz)) as [H0 H1]. lra.
Qed.

Lemma demo_dc_zero_column : zero_column demo_dc 2 0.
Proof.
  intros m Hm. destruct m as [|[|m]]; [reflexivity | reflexivity | lia].
Qed.

Lemma normalization_floor_is_zero_witness :
  exists proj mn mx out,
    project demo_dc both_bands = Ok proj /\
    np.min proj = Ok mn /\
    np.max (amap (fun x => x + Rabs mn) proj) = Ok mx /\
    project_and_normalize demo_dc both_bands = Ok out /\
    out = array [3; 1]%nat (map (fun x => (x + Rabs mn) / (mx + eps)) (data proj)) /\
    np.min out = Ok 0 /\
    (forall x, In x (data out) -> 0 <= x <= 1).
Proof.
  apply (normalization_floor_is_zero demo_dc both_bands 1 2 3 0);
    [reflexivity | reflexivity | lia | lia | exact demo_dc_zero_column].
Defined.

(** ** Lines 199-204: sharpening across two sources *)

Lemma length_pairs {A : Type} (u v : nat -> A) (l : list nat) :
  length (flat_map (fun j => [u j; v j]) l) = (2 * length l)%nat.
Proof. induction l as [|x l IH]; simpl; [reflexivity | rewrite IH; lia]. Qed.

Lemma nth_pairs {A : Type} (u v : nat -> A) (d : A) (n s j : nat) :
  (j < n)%nat ->
  nth (j * 2) (flat_map (fun j => [u j; v j]) (seq s n)) d = u (s + j)%nat /\
  nth (j * 2 + 1) (flat_map (fun j => [u j; v j]) (seq s n)) d = v (s + j)%nat.
Proof.
  revert s j. induction n as [|n IH]; intros s j Hj; [lia|].
  destruct j as [|j]; simpl.
  - now rewrite Nat.add_0_r.
  - destruct (IH (S s) j) as [H1 H2]; [lia|].
    rewrite H1, H2. split; f_equal; lia.
Qed.

Lemma rows_div_sum_pairs (f : R -> R) (u v : nat -> R) (l : list nat) :
  rows_div_sum (map f (flat_map (fun j => [u j; v j]) l))
  = flat_map (fun j => [fdiv (f (u j)) (lsum [f (u j); f (v j)]);
                        fdiv (f (v j)) (lsum [f (u j); f (v j)])]) l.
Proof. induction l as [|x l IH]; simpl; [reflexivity | now rewrite IH]. Qed.

Lemma even_double (n : nat) : Nat.even (2 * n) = true.
Proof. rewrite Nat.even_mul. reflexivity. Qed.

(** The two sharpened masks, entry by entry: the cube of each mask over the
    sum of the two cubes. *)
Lemma sharpen_two (self : DeepClustering) (p q : ndarray R) (F T : nat) :
  num_sources self = 2%nat ->
  shape p = [F; T] -> shape q = [F; T] ->
  sharpen self [p; q]
  = Ok [ array [F; T]
           (map (fun j => fdiv (nth j (data p) 0 ^ 3)
                            (lsum [nth j (data p) 0 ^ 3; nth j (data q) 0 ^ 3]))
                (seq 0 (F * T)));
         array [F; T]
           (map (fun j => fdiv (nth j (data q) 0 ^ 3)
                            (lsum [nth j (data p) 0 ^ 3; nth j (data q) 0 ^ 3]))
                (seq 0 (F * T))) ].
Proof.
  intros Hn Hp Hq. unfold sharpen, stack_last.
  cbn [forallb]. rewrite Hq, Hp, same_shape_refl. cbn [andb bind length app].
  cbn [size fold_right map]. rewrite Nat.mul_1_r.
  unfold reshape_pairs. cbn [data].
  rewrite length_pairs, length_seq, even_double. cbn [bind shape amap data].
  rewrite rows_div_sum_pairs.
  unfold reshape. cbn [data size fold_right].
  rewrite length_pairs, length_seq.
  replace (F * (T * (2 * 1)))%nat with (2 * (F * T))%nat by ring.
  rewrite Nat.eqb_refl. cbn [bind]. rewrite Hn. cbn [seq mapM].
  unfold index_last. cbn [shape data Nat.ltb Nat.leb bind].
  do 2 f_equal.
  - f_equal. apply map_ext_in. intros j Hj. apply in_seq in Hj.
    rewrite Nat.add_0_r.
    destruct (nth_pairs
      (fun j => fdiv (nth j (data p) 0 ^ 3)
                  (lsum [nth j (data p) 0 ^ 3; nth j (data q) 0 ^ 3]))
      (fun j => fdiv (nth j (data q) 0 ^ 3)
                  (lsum [nth j (data p) 0 ^ 3; nth j (data q) 0 ^ 3]))
      None (F * T) 0 j) as [H _]; [lia|]. exact H.
  - do 2 f_equal. apply map_ext_in. intros j Hj. apply in_seq in Hj.
    destruct (nth_pairs
      (fun j => fdiv (nth j (data p) 0 ^ 3)
                  (lsum [nth j (data p) 0 ^ 3; nth j (data q) 0 ^ 3]))
      (fun j => fdiv (nth j (data q) 0 ^ 3)
                  (lsum [nth j (data p) 0 ^ 3; nth j (data q) 0 ^ 3]))
      None (F * T) 0 j) as [_ H]; [lia|]. exact H.
Qed.

(** ** The loop of line 183 under the soft policy *)

Lemma nth_all_zero (l : list R) (i : nat) :
  (forall x, In x l -> x = 0) -> nth i l 0 = 0.
Proof.
  intros H. destruct (nth_in_or_default i l 0) as [Hin|Hd]; [now apply H | exact Hd].
Qed.

Lemma project_and_normalize_total (self : DeepClustering) (mask : ndarray R)
    (T M F : nat) :
  shape mask = [T; M] -> shape (inverse_mel_filter_bank self) = [M; F] ->
  (0 < F * T)%nat ->
  exists out,
    project_and_normalize self mask = Ok out /\
    shape out = [F; T] /\ length (data out) = (F * T)%nat /\
    (forall x, In x (data out) -> 0 <= x < 1) /\
    ((forall x, In x (data mask) -> x = 0) -> forall x, In x (data out) -> x = 0).
Proof.
  intros Hm Hi Hpos.
  pose proof (project_ok self mask T M F Hm Hi) as Hproj.
  set (proj := array [F; T] _) in Hproj.
  assert (Hlen : length (data proj) = (F * T)%nat) by (simpl; apply length_rows).
  assert (Hne : data proj <> []).
  { intros E. rewrite E in Hlen. simpl in Hlen. lia. }
  destruct (normalization_floor proj Hne) as (mn & mx & Hmin & Hnorm & Hrange).
  unfold project_and_normalize. rewrite Hproj. cbn [bind]. rewrite Hnorm.
  eexists. split; [reflexivity|]. split; [reflexivity|]. split; [|split].
  - simpl. now rewrite length_map, length_rows.
  - exact Hrange.
  - intros Hzero x Hx.
    assert (Hpz : forall y, In y (data proj) -> y = 0).
    { simpl. intros y Hy. apply in_flat_map in Hy. destruct Hy as (f & _ & Hy).
      apply in_map_iff in Hy. destruct Hy as (t & <- & _).
      apply lsum_zero. intros z Hz. apply in_map_iff in Hz.
      destruct Hz as (l & <- & _). rewrite (nth_all_zero _ _ Hzero). ring. }
    apply min_ok_inv in Hmin. destruct Hmin as [Hmn _].
    apply Hpz in Hmn. subst mn.
    cbn [data] in Hx. apply in_map_iff in Hx. destruct Hx as (z & <- & Hz).
    rewrite (Hpz z Hz), Rabs_R0. unfold Rdiv. ring.
Qed.

Lemma in_firstn {A : Type} (x : A) (n : nat) (l : list A) :
  In x (firstn n l) -> In x l.
Proof.
  intros H. rewrite <- (firstn_skipn n l). apply in_or_app. now left.
Qed.

Lemma in_skipn {A : Type} (x : A) (n : nat) (l : list A) :
  In x (skipn n l) -> In x l.
Proof.
  intros H. rewrite <- (firstn_skipn n l). apply in_or_app. now right.
Qed.

Lemma soft_mel_mask_total (self : DeepClustering) (C T M F K ch s : nat) :
  well_shaped self C T M F K -> (ch < C)%nat ->
  In s (seq 1 (num_sources self)) ->
  exists mm,
    soft_mel_mask self ch s = Ok mm /\ shape mm = [T; M] /\
    (silent self -> forall x, In x (data mm) -> x = 0).
Proof.
  intros (e & c & mel & sil & He & Hse & Hc & Hsc & Hmel & Hsm & Hsil & Hss
          & Hws & _ & HTM & _) Hch Hs.
  apply in_seq in Hs.
  destruct (normalized_distances_ok self e c (num_sources self)
              (C * (T * M)) K s Hc Hsc He Hse)
    as (dist & mn & mx & _ & Hlen & _ & _ & Hnd); [lia | nia |].
  rewrite (soft_mel_mask_from self _ mel sil C T M ch s Hnd); try assumption;
    [| simpl; now rewrite length_map].
  eexists. split; [reflexivity|]. split; [reflexivity|].
  intros (sil' & Hsil' & Hquiet) x Hx.
  rewrite Hsil in Hsil'. injection Hsil' as <-.
  cbn [data] in Hx. apply in_map_iff in Hx. destruct Hx as ([b y] & <- & Hin).
  apply in_combine_l in Hin. cbn [fst snd].
  apply in_firstn, in_skipn in Hin.
  rewrite (Hquiet b Hin). unfold b2r. ring.
Qed.

Lemma soft_is_not_binary : String.eqb SOFT_MASK BINARY_MASK = false.
Proof. reflexivity. Qed.

Lemma soft_body (self : DeepClustering) (C T M F K ch s : nat)
    (mask : option (ndarray R)) (l : list (ndarray R)) :
  well_shaped self C T M F K -> mask_type self = SOFT_MASK ->
  (ch < C)%nat -> In s (seq 1 (num_sources self)) ->
  exists out,
    mask_loop_body self ch (mask, l) s = Ok (Some out, l ++ [out]) /\
    shape out = [F; T] /\ length (data out) = (F * T)%nat /\
    (forall x, In x (data out) -> 0 <= x < 1) /\
    (silent self -> forall x, In x (data out) -> x = 0).
Proof.
  intros Hw Hmt Hch Hs.
  destruct (soft_mel_mask_total self C T M F K ch s Hw Hch Hs)
    as (mm & Hmm & Hsh & Hquiet).
  destruct Hw as (_ & _ & _ & _ & _ & _ & _ & _ & _ & _ & _ & _ & _ & Hinv & HTM & HF).
  destruct (project_and_normalize_total self mm T M F Hsh Hinv)
    as (out & Hout & Hso & Hlo & Hrange & Hzero); [nia|].
  exists out. split; [|repeat split; try assumption].
  - unfold mask_loop_body. rewrite Hmt, soft_is_not_binary, String.eqb_refl.
    rewrite Hmm. cbn [bind]. rewrite Hout. reflexivity.
  - now apply Hrange.
  - now apply Hrange.
  - intros Hq. apply Hzero. now apply Hquiet.
Qed.

(** With two sources the loop returns two masks of one shape, with entries in
    [0, 1); at silence both are zero everywhere. *)
Lemma soft_loop_two (self : DeepClustering) (C T M F K ch : nat) :
  well_shaped self C T M F K -> mask_type self = SOFT_MASK ->
  num_sources self = 2%nat -> (ch < C)%nat ->
  exists p q,
    mask_loop self ch = Ok [p; q] /\
    shape p = [F; T] /\ shape q = [F; T] /\
    length (data p) = (F * T)%nat /\ length (data q) = (F * T)%nat /\
    (forall x, In x (data p) -> 0 <= x < 1) /\
    (forall x, In x (data q) -> 0 <= x < 1) /\
    (silent self -> (forall x, In x (data p) -> x = 0)
                    /\ (forall x, In x (data q) -> x = 0)).
Proof.
  intros Hw Hmt Hn Hch.
  assert (H1 : In 1%nat (seq 1 (num_sources self))) by (rewrite Hn; simpl; tauto).
  assert (H2 : In 2%nat (seq 1 (num_sources self))) by (rewrite Hn; simpl; tauto).
  destruct (soft_body self C T M F K ch 1 None [] Hw Hmt Hch H1)
    as (p & Hp & Hsp & Hlp & Hrp & Hzp).
  destruct (soft_body self C T M F K ch 2 (Some p) ([] ++ [p]) Hw Hmt Hch H2)
    as (q & Hq & Hsq & Hlq & Hrq & Hzq).
  exists p, q. split.
  - unfold mask_loop. rewrite Hn. cbn [seq foldM]. rewrite Hp. cbn [bind].
    rewrite Hq. reflexivity.
  - repeat split; try assumption; try (now apply Hrp); try (now apply Hrq).
    + now apply Hzp.
    + now apply Hzq.
Qed.

(** ** The returned soft masks *)

Lemma extract_soft_two (self : DeepClustering) (h : store) (p q : ndarray R)
    (F T ch : nat) :
  mask_type self = SOFT_MASK -> num_sources self = 2%nat ->
  stft_data (h (audio_signal self)) <> None ->
  mask_loop self ch = Ok [p; q] -> shape p = [F; T] -> shape q = [F; T] ->
  _extract_masks self h ch
  = Ok [ array [F; T]
           (map (fun j => fdiv (nth j (data p) 0 ^ 3)
                            (lsum [nth j (data p) 0 ^ 3; nth j (data q) 0 ^ 3]))
                (seq 0 (F * T)));
         array [F; T]
           (map (fun j => fdiv (nth j (data q) 0 ^ 3)
                            (lsum [nth j (data p) 0 ^ 3; nth j (data q) 0 ^ 3]))
                (seq 0 (F * T))) ].
Proof.
  intros Hmt Hn Hstft Hloop Hp Hq. unfold _extract_masks.
  destruct (stft_data (h (audio_signal self))); [|congruence].
  rewrite Hloop. cbn [bind]. rewrite Hmt, String.eqb_refl.
  now apply sharpen_two.
Qed.

Lemma cube_share (a b : R) :
  0 <= a -> 0 <= b -> a <> 0 \/ b <> 0 ->
  lsum [a ^ 3; b ^ 3] <> 0 /\
  0 <= a ^ 3 / lsum [a ^ 3; b ^ 3] <= 1 /\
  0 <= b ^ 3 / lsum [a ^ 3; b ^ 3] <= 1 /\
  a ^ 3 / lsum [a ^ 3; b ^ 3] + b ^ 3 / lsum [a ^ 3; b ^ 3] = 1.
Proof.
  intros Ha Hb Hab. cbn [lsum fold_right].
  assert (Ha3 : 0 <= a ^ 3) by now apply pow_le.
  assert (Hb3 : 0 <= b ^ 3) by now apply pow_le.
  assert (Hs : 0 < a ^ 3 + (b ^ 3 + 0)).
  { destruct Hab as [H|H].
    - assert (0 < a ^ 3) by (apply pow_lt; lra). lra.
    - assert (0 < b ^ 3) by (apply pow_lt; lra). lra. }
  set (S := a ^ 3 + (b ^ 3 + 0)) in *.
  assert (Hinv : 0 < / S) by now apply Rinv_0_lt_compat.
  assert (Hone : S * / S = 1) by (apply Rinv_r; lra).
  assert (Hshare : forall u, 0 <= u <= S -> 0 <= u * / S <= 1).
  { intros u [Hu0 HuS]. split.
    - apply Rmult_le_pos; lra.
    - rewrite <- Hone. apply Rmult_le_compat_r; lra. }
  unfold Rdiv. split; [lra|]. split; [apply Hshare; unfold S; lra|].
  split; [apply Hshare; unfold S; lra|].
  replace (a ^ 3 * / S + b ^ 3 * / S) with (S * / S) by (unfold S; ring).
  exact Hone.
Qed.

(** X24.  In the two-source soft configuration, at every time-frequency bin
    where the two normalised masks are not both zero, the two returned values
    lie in [0, 1] and sum to 1. *)
Lemma sharpened_masks_sum_to_one (self : DeepClustering) (h : store)
    (C T M F K ch : nat) :
  well_shaped self C T M F K -> mask_type self = SOFT_MASK ->
  num_sources self = 2%nat -> stft_data (h (audio_signal self)) <> None ->
  (ch < C)%nat ->
  exists p q m1 m2,
    mask_loop self ch = Ok [p; q] /\
    _extract_masks self h ch = Ok [m1; m2] /\
    shape m1 = [F; T] /\ shape m2 = [F; T] /\
    forall j, (j < F * T)%nat ->
      nth j (data p) 0 <> 0 \/ nth j (data q) 0 <> 0 ->
      exists x y,
        nth j (data m1) None = Some x /\ nth j (data m2) None = Some y /\
        0 <= x <= 1 /\ 0 <= y <= 1 /\ x + y = 1.
Proof.
  intros Hw Hmt Hn Hstft Hch.
  destruct (soft_loop_two self C T M F K ch Hw Hmt Hn Hch)
    as (p & q & Hloop & Hp & Hq & Hlp & Hlq & Hrp & Hrq & _).
  exists p, q. eexists. eexists. split; [exact Hloop|].
  split; [exact (extract_soft_two self h p q F T ch Hmt Hn Hstft Hloop Hp Hq)|].
  split; [reflexivity|]. split; [reflexivity|].
  intros j Hj Hab. cbn [data]. rewrite !nth_map_seq by assumption.
  assert (Ha : 0 <= nth j (data p) 0) by (apply Hrp, nth_In; lia).
  assert (Hb : 0 <= nth j (data q) 0) by (apply Hrq, nth_In; lia).
  destruct (cube_share _ _ Ha Hb Hab) as (Hs & Hx & Hy & Hsum).
  unfold fdiv. destruct (Req_dec_T _ 0) as [E|_]; [contradiction|].
  eexists. eexists. split; [reflexivity|]. split; [reflexivity|].
  repeat split; try apply Hx; try apply Hy. exact Hsum.
Qed.

Lemma demo_well_shaped (mt : string) (sil : list bool) :
  length sil = 2%nat -> well_shaped (demo_with mt sil) 1 1 2 2 1.
Proof.
  intros Hl. unfold well_shaped, demo_with. cbn.
  exists (array [2; 1]%nat [0; 1]), (array [2; 1]%nat [0; 1]),
         (array [1; 1; 2]%nat [-1; 1]), (array [1; 1; 2]%nat sil).
  repeat split; try reflexivity; try lia. unfold wf; simpl. exact Hl.
Qed.

Lemma sharpened_masks_sum_to_one_example :
  exists p q m1 m2,
    mask_loop demo_soft 0 = Ok [p; q] /\
    _extract_masks demo_soft demo_heap 0 = Ok [m1; m2] /\
    shape m1 = [2; 1]%nat /\ shape m2 = [2; 1]%nat /\
    forall j, (j < 2 * 1)%nat ->
      nth j (data p) 0 <> 0 \/ nth j (data q) 0 <> 0 ->
      exists x y,
        nth j (data m1) None = Some x /\ nth j (data m2) None = Some y /\
        0 <= x <= 1 /\ 0 <= y <= 1 /\ x + y = 1.
Proof.
  apply (sharpened_masks_sum_to_one demo_soft demo_heap 1 1 2 2 1 0).
  - apply demo_well_shaped. reflexivity.
  - reflexivity.
  - reflexivity.
  - discriminate.
  - lia.
Defined.

(** At silence every entry of both returned masks is undefined. *)
Lemma silent_masks_undefined (self : DeepClustering) (h : store)
    (C T M F K ch : nat) :
  well_shaped self C T M F K -> mask_type self = SOFT_MASK ->
  num_sources self = 2%nat -> stft_data (h (audio_signal self)) <> None ->
  (ch < C)%nat -> silent self ->
  _extract_masks self h ch
  = Ok [ array [F; T] (map (fun _ => None) (seq 0 (F * T)));
         array [F; T] (map (fun _ => None) (seq 0 (F * T))) ].
Proof.
  intros Hw Hmt Hn Hstft Hch Hq.
  destruct (soft_loop_two self C T M F K ch Hw Hmt Hn Hch)
    as (p & q & Hloop & Hp & Hq' & _ & _ & _ & _ & Hzero).
  destruct (Hzero Hq) as [Hzp Hzq].
  rewrite (extract_soft_two self h p q F T ch Hmt Hn Hstft Hloop Hp Hq').
  assert (Hnone : forall j, fdiv (nth j (data p) 0 ^ 3)
                    (lsum [nth j (data p) 0 ^ 3; nth j (data q) 0 ^ 3]) = None
                  /\ fdiv (nth j (data q) 0 ^ 3)
                    (lsum [nth j (data p) 0 ^ 3; nth j (data q) 0 ^ 3]) = None).
  { intros j. rewrite (nth_all_zero _ j Hzp), (nth_all_zero _ j Hzq).
    unfold fdiv. destruct (Req_dec_T _ 0) as [_|Hne]; [now split|].
    exfalso. apply Hne. cbn [lsum fold_right]. ring. }
  do 2 f_equal.
  - f_equal. apply map_ext. intros j. apply Hnone.
  - do 2 f_equal. apply map_ext. intros j. apply Hnone.
Qed.

Lemma demo_silent_is_silent : silent demo_silent.
Proof.
  exists (array [1; 1; 2]%nat [false; false]). split; [reflexivity|].
  cbn [data]. intros b [<-|[<-|[]]]; reflexivity.
Qed.

Lemma demo_silent_masks :
  _extract_masks demo_silent demo_heap 0 = Ok [undefined_mask; undefined_mask].
Proof.
  rewrite (silent_masks_undefined demo_silent demo_heap 1 1 2 2 1 0).
  - reflexivity.
  - apply demo_well_shaped. reflexivity.
  - reflexivity.
  - reflexivity.
  - discriminate.
  - lia.
  - apply demo_silent_is_silent.
Qed.

(** C5: the code at the failing input.  For the silent mixture the loop
    returns two masks that are zero at every bin, so every denominator
    [np.sum(data, axis=-1)] of line 202 is zero: that division has no epsilon,
    and every entry of the returned masks is undefined. *)
Theorem sharpening_divides_by_zero_at_silence :
  exists p q,
    mask_loop demo_silent 0 = Ok [p; q] /\
    (forall j, lsum [nth j (data p) 0 ^ 3; nth j (data q) 0 ^ 3] = 0) /\
    _extract_masks demo_silent demo_heap 0 = Ok [undefined_mask; undefined_mask].
Proof.
  destruct (soft_loop_two demo_silent 1 1 2 2 1 0)
    as (p & q & Hloop & _ & _ & _ & _ & _ & _ & Hzero);
    [apply demo_well_shaped; reflexivity | reflexivity | reflexivity | lia |].
  destruct (Hzero demo_silent_is_silent) as [Hzp Hzq].
  exists p, q. split; [exact Hloop|]. split; [|exact demo_silent_masks].
  intros j. rewrite (nth_all_zero _ j Hzp), (nth_all_zero _ j Hzq).
  cbn [lsum fold_right]. ring.
Qed.

(** ** An unknown mask type *)

(** With a mask type that is neither binary nor soft, no branch of the loop
    binds [mask], and line 193 reads it unbound in the first turn. *)
Lemma unknown_type_unbound (self : DeepClustering) (h : store) (ch : nat) :
  String.eqb (mask_type self) BINARY_MASK = false ->
  String.eqb (mask_type self) SOFT_MASK = false ->
  stft_data (h (audio_signal self)) <> None ->
  (1 <= num_sources self)%nat ->
  _extract_masks self h ch = Raise (UnboundLocalError "mask").
Proof.
  intros Hb Hs Hstft Hn. unfold _extract_masks.
  destruct (stft_data (h (audio_signal self))); [|congruence].
  unfold mask_loop. destruct (num_sources self) as [|k]; [lia|].
  cbn [seq foldM]. unfold mask_loop_body at 1. rewrite Hb, Hs. reflexivity.
Qed.

(** ** Lines 136-146: the spectrograms *)

Lemma mapM_ok {A B : Type} (f : A -> result B) (g : A -> B) (l : list A) :
  (forall x, In x l -> f x = Ok (g x)) -> mapM f l = Ok (map g l).
Proof.
  induction l as [|x l IH]; intros H; simpl; [reflexivity|].
  rewrite (H x) by now left. simpl. rewrite IH; [reflexivity|].
  intros y Hy. apply H. now right.
Qed.

Lemma map_flat_map_rows {A B C : Type} (f : B -> C) (g : A -> list B) (l : list A) :
  map f (flat_map g l) = flat_map (fun x => map f (g x)) l.
Proof.
  induction l as [|x l IH]; simpl; [reflexivity|].
  now rewrite map_app, IH.
Qed.

(** Line 141 for channel [c]: the projection, frame by frame and band by band. *)
Lemma mel_projection_ok (self : DeepClustering) (magnitude : ndarray R)
    (F T C' M c : nat) :
  shape magnitude = [F; T; C'] -> shape (mel_filter_bank self) = [F; M] ->
  num_mels self = M -> (c < C')%nat ->
  mel_projection self magnitude T c
  = Ok (flat_map (fun t =>
          map (fun m => mel_power magnitude (mel_filter_bank self) c t m) (seq 0 M))
          (seq 0 T)).
Proof.
  intros Hmag Hbank Hnm Hc. unfold mel_projection, index_last.
  rewrite Hmag. apply Nat.ltb_lt in Hc. rewrite Hc. cbn [bind].
  rewrite T_array. cbn [bind].
  rewrite (dot_ok (array [T; F] _) (mel_filter_bank self) T F M eq_refl Hbank).
  cbn [bind shape data].
  rewrite Hnm, same_shape_refl. f_equal.
  apply flat_map_agree. intros t Ht. apply in_seq in Ht.
  apply map_ext_in. intros m Hm. apply in_seq in Hm.
  unfold mel_power, get3, get2. rewrite Hmag, Hbank. cbn [hd]. f_equal.
  apply map_ext_in. intros f Hf. apply in_seq in Hf. f_equal.
  rewrite (nth_rows _ 0 F T 0 t f) by lia. cbn [Nat.add].
  rewrite nth_map_seq by nia. reflexivity.
Qed.

Lemma lsum_shift (l : list R) (k : R) :
  lsum (map (fun x => x - k) l) = lsum l - INR (length l) * k.
Proof.
  induction l as [|x l IH]; [simpl; ring|].
  cbn [map lsum fold_right length]. fold (lsum (map (fun x => x - k) l)).
  fold (lsum l). rewrite IH, S_INR. ring.
Qed.

Lemma mean_ok (a : ndarray R) :
  data a <> [] -> np.mean a = Ok (global_mean (data a)).
Proof.
  unfold np.mean, global_mean, np.sum. destruct (data a); [congruence | reflexivity].
Qed.

(** The mean of the centred values is zero, so the standard deviation taken
    after line 145 is the standard deviation of the log-power itself. *)
Lemma std_of_centred (shp : list nat) (l : list R) :
  l <> [] ->
  np.std (array shp (map (fun x => x - global_mean l) l)) = Ok (global_std l).
Proof.
  intros Hne.
  assert (Hlen : INR (length l) <> 0).
  { apply not_0_INR. destruct l; [congruence | simpl; lia]. }
  assert (Hne' : map (fun x => x - global_mean l) l <> []).
  { intros E. apply map_eq_nil in E. contradiction. }
  assert (Hzero : global_mean (map (fun x => x - global_mean l) l) = 0).
  { unfold global_mean at 1. rewrite lsum_shift, length_map.
    unfold global_mean. field. assumption. }
  unfold np.std. rewrite mean_ok by assumption. cbn [bind data].
  rewrite Hzero. rewrite mean_ok.
  - cbn [bind amap data]. unfold global_std. do 2 f_equal.
    rewrite map_map. f_equal. apply map_ext. intros x. ring.
  - cbn [amap data]. intros E. apply map_eq_nil in E. contradiction.
Qed.

Lemma upd_same (h : store) (l : loc) (a : AudioSignal) : upd h l a l = a.
Proof. unfold upd. now rewrite Nat.eqb_refl. Qed.

Lemma upd_other (h : store) (l l' : loc) (a : AudioSignal) :
  l' <> l -> upd h l a l' = h l'.
Proof. intros H. unfold upd. apply Nat.eqb_neq in H. now rewrite H. Qed.

Section Spectrograms.

Context {ext : Externals}.

Lemma log_mel_length (magnitude bank : ndarray R) (C T M : nat) :
  length (log_mel magnitude bank C T M) = (C * (T * M))%nat.
Proof.
  unfold log_mel. induction C as [|C IH] using nat_ind.
  - reflexivity.
  - rewrite seq_S, flat_map_app, length_app, IH. cbn [flat_map Nat.add].
    rewrite app_nil_r, length_rows. lia.
Qed.

(** The run of [_compute_spectrograms] on a transform of shape
    [F x T x C'], with the state it ends in. *)
Lemma compute_spectrograms_ok (st : State) (s : ndarray complex)
    (F T C' M : nat) :
  stft_transform (use_librosa_stft (this st))
                 (heap (world st) (audio_signal (this st))) = Ok s ->
  shape s = [F; T; C'] ->
  (num_channels (heap (world st) (audio_signal (this st))) <= C')%nat ->
  shape (mel_filter_bank (this st)) = [F; M] -> num_mels (this st) = M ->
  (0 < num_channels (heap (world st) (audio_signal (this st))) * (T * M))%nat ->
  let sig := heap (world st) (audio_signal (this st)) in
  let C := num_channels sig in
  let logp := log_mel (amap Cabs s) (mel_filter_bank (this st)) C T M in
  _compute_spectrograms st
  = (Ok tt,
     {| this :=
          set_mel_spectrogram
            (Some (array [C; T; M]
                     (map (fun x => (x - global_mean logp) / (global_std logp + eps))
                          logp)))
            (set_silence_mask
               (Some (array [C; T; M] (map (fun x => Rgtb x (cutoff (this st))) logp)))
               (set_stft (Some s) (this st)));
        world :=
          set_heap (upd (heap (world st)) (audio_signal (this st))
                        (set_stft_data (Some s) sig))
                   (world st) |}).
Proof.
  intros Hstft Hs HC Hbank Hnm Hpos sig C logp.
  destruct st as [self w]. cbn [this world] in *.
  assert (Hlen : length logp = (C * (T * M))%nat) by apply log_mel_length.
  assert (Hne : logp <> []).
  { intros E. rewrite E in Hlen. simpl in Hlen. fold sig in Hpos. fold C in Hpos. lia. }
  unfold _compute_spectrograms.
  unfold sbind at 1. cbn [self_ this].
  unfold sbind at 1. cbn [signal_ this world].
  unfold sbind at 1. unfold lift at 1. rewrite Hstft.
  unfold sbind at 1. cbn [on_world modify this world].
  unfold sbind at 1. cbn [assign modify this world].
  unfold sbind at 1. cbn [signal_ this world set_heap heap set_stft rebind audio_signal].
  rewrite !upd_same. cbn [set_stft_data num_channels]. fold sig. fold C.
  unfold sbind at 1. unfold lift at 1. rewrite Hs.
  unfold sbind at 1. unfold lift at 1.
  rewrite (mapM_ok _ (fun c => flat_map (fun t =>
             map (fun m => mel_power (amap Cabs s) (mel_filter_bank self) c t m)
                 (seq 0 M)) (seq 0 T))).
  2:{ intros c Hc. apply in_seq in Hc.
      apply (mel_projection_ok self (amap Cabs s) F T C' M c); try assumption.
      unfold C, sig in Hc. lia. }
  rewrite <- flat_map_concat_map. rewrite Hnm.
  set (mel := amap _ (array [C; T; M] _)).
  assert (Hmel : mel = array [C; T; M] logp).
  { unfold mel, amap, logp, log_mel. cbn [shape data]. f_equal.
    rewrite map_flat_map_rows. apply flat_map_ext. intros c.
    rewrite map_flat_map_rows. apply flat_map_ext. intros t.
    rewrite map_map. reflexivity. }
  rewrite Hmel.
  unfold sbind at 1. cbn [assign modify this world].
  unfold sbind at 1. cbn [assign modify this world].
  unfold sbind at 1. unfold lift at 1. rewrite mean_ok by exact Hne.
  cbn [data amap shape].
  unfold sbind at 1. cbn [assign modify this world].
  unfold sbind at 1. unfold lift at 1. unfold amap. cbn [shape data].
  rewrite std_of_centred by exact Hne.
  unfold sbind at 1. unfold lift at 1.
  rewrite div_scalar_ok.
  2:{ pose proof eps_pos. pose proof (sqrt_pos (global_mean
        (map (fun x => (x - global_mean logp) ^ 2) logp))).
      unfold global_std. lra. }
  cbn [assign modify this world]. unfold amap. cbn [shape data].
  rewrite map_map. reflexivity.
Qed.

(** C4.  After [_compute_spectrograms]: the silence mask is the comparison of
    the log-power [10 log10 (power^2 + epsilon)] of the channel-wise mel
    projection with the cutoff, taken before the normalisation; the mel
    spectrogram is that log-power minus its global mean, over its global
    standard deviation plus epsilon. *)
Theorem spectrograms_follow_spec (st : State) (s : ndarray complex)
    (F T C' M : nat) :
  stft_transform (use_librosa_stft (this st))
                 (heap (world st) (audio_signal (this st))) = Ok s ->
  shape s = [F; T; C'] ->
  (num_channels (heap (world st) (audio_signal (this st))) <= C')%nat ->
  shape (mel_filter_bank (this st)) = [F; M] -> num_mels (this st) = M ->
  (0 < num_channels (heap (world st) (audio_signal (this st))) * (T * M))%nat ->
  exists st',
    _compute_spectrograms st = (Ok tt, st') /\
    silence_mask (this st')
    = Some (array [num_channels (heap (world st) (audio_signal (this st))); T; M]
              (map (fun x => Rgtb x (cutoff (this st)))
                 (log_mel (amap Cabs s) (mel_filter_bank (this st))
                    (num_channels (heap (world st) (audio_signal (this st)))) T M))) /\
    mel_spectrogram (this st')
    = Some (array [num_channels (heap (world st) (audio_signal (this st))); T; M]
              (map (fun x =>
                 (x - global_mean
                        (log_mel (amap Cabs s) (mel_filter_bank (this st))
                           (num_channels (heap (world st) (audio_signal (this st)))) T M))
                 / (global_std
                      (log_mel (amap Cabs s) (mel_filter_bank (this st))
                         (num_channels (heap (world st) (audio_signal (this st)))) T M)
                    + eps))
                 (log_mel (amap Cabs s) (mel_filter_bank (this st))
                    (num_channels (heap (world st) (audio_signal (this st)))) T M))).
Proof.
  intros Hstft Hs HC Hbank Hnm Hpos.
  eexists. split.
  - exact (compute_spectrograms_ok st s F T C' M Hstft Hs HC Hbank Hnm Hpos).
  - split; reflexivity.
Qed.

End Spectrograms.

Lemma spectrograms_follow_spec_witness :
  exists st',
    _compute_spectrograms (ext := demo_externals) (demo_state SOFT_MASK)
    = (Ok tt, st') /\
    silence_mask (this st')
    = Some (array [1; 1; 2]%nat
              (map (fun x => Rgtb x (-40))
                 (log_mel (amap Cabs demo_stft) identity2 1 1 2))) /\
    mel_spectrogram (this st')
    = Some (array [1; 1; 2]%nat
              (map (fun x =>
                 (x - global_mean (log_mel (amap Cabs demo_stft) identity2 1 1 2))
                 / (global_std (log_mel (amap Cabs demo_stft) identity2 1 1 2) + eps))
                 (log_mel (amap Cabs demo_stft) identity2 1 1 2))).
Proof.
  apply (spectrograms_follow_spec (ext := demo_externals) (demo_state SOFT_MASK)
           demo_stft 2 1 1 2);
    try reflexivity; simpl; lia.
Defined.

(** ** Lines 157-167: the embedding cache *)

Section Clustering.

Context {ext : Externals}.

Lemma model_calls_app (t u : list event) :
  model_calls (t ++ u) = (model_calls t + model_calls u)%nat.
Proof. unfold model_calls. now rewrite filter_app, length_app. Qed.

(** One invocation with the cache filled: the field keeps its value, and
    the trace grows by at most the call to the clusterer. *)
Lemma deep_clustering_hit (st : State) (e : ndarray R) :
  embeddings (this st) = Some e ->
  embeddings (this (snd (deep_clustering st))) = Some e /\
  ((mel_spectrogram (this st) = None /\
    trace (world (snd (deep_clustering st))) = trace (world st)) \/
   (mel_spectrogram (this st) <> None /\
    trace (world (snd (deep_clustering st)))
    = trace (world st) ++ [KMeansFit (n_clusters (this st)) e])).
Proof.
  destruct st as [self w]. cbn [this world]. intros He.
  unfold deep_clustering, sbind, self_, lift, on_world, assign, modify, ret.
  cbn [this world].
  destruct (mel_spectrogram self) as [m|] eqn:Hm; cbn [not_none].
  2:{ cbn. split; [assumption | left; now split]. }
  rewrite !He. cbn [this world not_none]. rewrite !He, !Hm. cbn [not_none attribute].
  destruct (kmeans_fit (n_clusters self) e) as [[labels centers]| |];
    cbn [this world snd fst log trace].
  2,3: (split; [assumption | right; split; [discriminate | reflexivity]]).
  destruct (reshape _ _); cbn; (split; [assumption | right; split; [discriminate | reflexivity]]).
Qed.

(** One invocation with the cache empty: the model is called once, and its
    output, flattened to rows, fills the cache. *)
Lemma deep_clustering_miss (st : State) (m : ndarray R) :
  embeddings (this st) = None -> mel_spectrogram (this st) = Some m ->
  match model (this st) m with
  | Ok out =>
      match view_rows out with
      | Ok e =>
          embeddings (this (snd (deep_clustering st))) = Some e /\
          trace (world (snd (deep_clustering st)))
          = trace (world st) ++ [ModelCall m; KMeansFit (n_clusters (this st)) e]
      | _ =>
          embeddings (this (snd (deep_clustering st))) = None /\
          trace (world (snd (deep_clustering st))) = trace (world st) ++ [ModelCall m]
      end
  | _ =>
      embeddings (this (snd (deep_clustering st))) = None /\
      trace (world (snd (deep_clustering st))) = trace (world st) ++ [ModelCall m]
  end.
Proof.
  destruct st as [self w]. cbn [this world]. intros He Hm.
  unfold deep_clustering, sbind, self_, lift, on_world, assign, modify, ret.
  cbn [this world]. rewrite !Hm. cbn [not_none]. rewrite !He.
  cbn [this world log trace].
  destruct (model self m) as [out| |]; cbn [snd this world trace]; try (now split).
  destruct (view_rows out) as [e| |]; cbn [snd this world trace]; try (now split).
  cbn [set_embeddings rebind embeddings mel_spectrogram n_clusters not_none].
  rewrite !Hm. cbn [attribute].
  destruct (kmeans_fit (n_clusters self) e) as [[labels centers]| |];
    cbn [this world snd fst log trace].
  2,3: (rewrite <- app_assoc; now split).
  destruct (reshape _ _); cbn; rewrite <- app_assoc; now split.
Qed.

Lemma repeat_clustering_hit (n : nat) (st : State) (e : ndarray R) :
  embeddings (this st) = Some e ->
  embeddings (this (repeat_clustering n st)) = Some e /\
  model_calls (trace (world (repeat_clustering n st)))
  = model_calls (trace (world st)).
Proof.
  revert st. induction n as [|n IH]; intros st He; [now split|].
  cbn [repeat_clustering].
  destruct (deep_clustering_hit st e He) as [He' Htrace].
  destruct (IH _ He') as [IH1 IH2]. split; [exact IH1|].
  rewrite IH2. destruct Htrace as [[_ ->]|[_ ->]]; [reflexivity|].
  rewrite model_calls_app. cbn. lia.
Qed.

(** C8.  The embeddings are computed at most once.  While the cache is
    filled, any number of invocations of the clustering step leave the
    field as it is and never call the model, and each invocation that has a
    spectrogram runs the clusterer on the cached embeddings.  With the cache
    empty, an invocation calls the model once and stores what it returns. *)
Theorem embeddings_computed_at_most_once (st : State) :
  (forall e n, embeddings (this st) = Some e ->
     embeddings (this (repeat_clustering n st)) = Some e /\
     model_calls (trace (world (repeat_clustering n st)))
     = model_calls (trace (world st))) /\
  (forall e m, embeddings (this st) = Some e -> mel_spectrogram (this st) = Some m ->
     trace (world (snd (deep_clustering st)))
     = trace (world st) ++ [KMeansFit (n_clusters (this st)) e]) /\
  (forall m out e, embeddings (this st) = None -> mel_spectrogram (this st) = Some m ->
     model (this st) m = Ok out -> view_rows out = Ok e ->
     embeddings (this (snd (deep_clustering st))) = Some e /\
     trace (world (snd (deep_clustering st)))
     = trace (world st) ++ [ModelCall m; KMeansFit (n_clusters (this st)) e]).
Proof.
  split; [|split].
  - intros e n He. now apply repeat_clustering_hit.
  - intros e m He Hm. destruct (deep_clustering_hit st e He) as [_ [[H _]|[_ H]]].
    + congruence.
    + exact H.
  - intros m out e He Hm Hout Hrows.
    pose proof (deep_clustering_miss st m He Hm) as H.
    rewrite Hout, Hrows in H. exact H.
Qed.

End Clustering.

(** ** Lines 57-113: construction *)

Section Construction.

Context {ext : Externals}.

(** C9 (amended).  A construction that succeeds has changed, in place, the
    signal the base class constructor bound to [self.audio_signal]: it is
    resampled when its rate differs from [resample_rate], then downmixed when
    [do_mono] is set.  Lines 72-113 touch no other signal, so the caller's
    object is altered only when it is the very object the base class bound. *)
Theorem construction_mutates_own_signal (l sig : loc) (mt : string)
    (a : InitArgs) (w w0 : World) (path : string)
    (net : ndarray R -> result (ndarray R)) :
  separation_base_init l (arg_mask_type a) w = (Ok (sig, mt), w0) ->
  truthy (arg_model_path a) = Some path ->
  load_network (arg_num_layers a) (arg_hidden_size a) (arg_embedding_size a) path
  = Ok net ->
  exists self w',
    __init__ l a w = (Ok self, w') /\
    audio_signal self = sig /\
    heap w' sig
    = (if arg_do_mono a then to_mono else fun s => s)
        ((if Z.eqb (sample_rate (heap w0 sig)) (arg_resample_rate a)
          then fun s => s else resample (arg_resample_rate a))
           (heap w0 sig)) /\
    (forall l', l' <> sig -> heap w' l' = heap w0 l') /\
    trace w' = trace w0.
Proof.
  intros Hbase Hpath Hload.
  unfold __init__, sbind. rewrite Hbase, Hpath. cbn [fst snd get].
  destruct (Z.eqb (sample_rate (heap w0 sig)) (arg_resample_rate a)) eqn:Hrate;
    cbn [negb ret in_place modify set_heap heap lift];
    rewrite Hload; destruct (arg_do_mono a);
    cbn [ret in_place modify set_heap heap];
    eexists; eexists; (split; [reflexivity|]); (split; [reflexivity|]);
    unfold set_heap; cbn [heap trace]; rewrite ?upd_same; (split; [reflexivity|]);
    (split; [|reflexivity]);
    intros l' Hl'; rewrite ?upd_other by assumption; reflexivity.
Qed.

End Construction.

Lemma construction_mutates_own_signal_witness :
  exists self w',
    __init__ (ext := copying_externals) 0%nat demo_args demo_world = (Ok self, w') /\
    audio_signal self = 1%nat /\
    heap w' 1%nat
    = to_mono (Externals := copying_externals)
        (resample (Externals := copying_externals) 22050 demo_signal) /\
    (forall l', l' <> 1%nat ->
       heap w' l' = heap (set_heap (upd demo_heap 1%nat demo_signal) demo_world) l') /\
    trace w' = [].
Proof.
  exact (construction_mutates_own_signal (ext := copying_externals) 0%nat 1%nat
           SOFT_MASK demo_args demo_world
           (set_heap (upd demo_heap 1%nat demo_signal) demo_world)
           "model.h5"%string demo_network eq_refl eq_refl eq_refl).
Defined.

(** C9, as stated, fails when the base class keeps a copy of the signal it is
    given: the construction is asked for another rate and for a mono signal
    and succeeds, and the caller's signal, at location 0, is what it was. *)
Lemma copying_base_leaves_caller_untouched :
  exists self w',
    __init__ (ext := copying_externals) 0%nat demo_args demo_world = (Ok self, w') /\
    sample_rate (heap demo_world 0%nat) <> arg_resample_rate demo_args /\
    arg_do_mono demo_args = true /\
    heap w' 0%nat = heap demo_world 0%nat.
Proof.
  eexists. eexists. split.
  - unfold __init__, sbind, demo_args, small_args, truthy.
    cbn [separation_base_init copying_externals arg_mask_type arg_model_path
         String.eqb Ascii.eqb Bool.eqb orb SOFT_MASK BINARY_MASK fst snd get lift ret
         arg_do_mono arg_resample_rate load_network demo_externals
         demo_externals_with in_place modify].
    reflexivity.
  - split; [discriminate|]. split; reflexivity.
Qed.

(** ** Lines 240-263: a run with an unknown mask type *)

Section Run.

Context {ext : Externals}.

(** The clustering step on an empty cache, when model and clusterer succeed. *)
Lemma deep_clustering_miss_ok (st : State) (m out e : ndarray R)
    (labels : ndarray Z) (centers : ndarray R) :
  embeddings (this st) = None -> mel_spectrogram (this st) = Some m ->
  model (this st) m = Ok out -> view_rows out = Ok e ->
  kmeans_fit (n_clusters (this st)) e = Ok (labels, centers) ->
  size (shape m) = length (data labels) ->
  deep_clustering st
  = (Ok tt,
     {| this :=
          set_centroids (Some centers)
            (set_assignments
               (Some (array (shape m) (map (fun z => (z + 1)%Z) (data labels))))
               (set_embeddings (Some e) (this st)));
        world := log (KMeansFit (n_clusters (this st)) e)
                     (log (ModelCall m) (world st)) |}).
Proof.
  destruct st as [self w]. cbn [this world]. intros He Hm Hout Hrows Hfit Hsize.
  unfold deep_clustering, sbind, self_, lift, on_world, assign, modify, ret.
  cbn [this world]. rewrite !Hm. cbn [not_none]. rewrite !He.
  cbn [this world]. rewrite Hout, Hrows.
  cbn [this world set_embeddings rebind embeddings mel_spectrogram n_clusters
       not_none].
  rewrite Hfit, !Hm. cbn [not_none attribute fst snd].
  rewrite reshape_ok by (cbn [amap data]; now rewrite length_map).
  reflexivity.
Qed.


(** Lines 251-263 under the soft policy: each collated mask becomes a soft
    mask object. *)
Lemma assemble_soft_two (st : State) (m1 m2 : ndarray (option R)) :
  mask_type (this st) = SOFT_MASK ->
  fst (assemble [m1; m2] st) = Ok [SoftMask m1; SoftMask m2].
Proof.
  destruct st as [self w]. cbn [this]. intros Hmt.
  unfold assemble, for_each, sbind, self_, lift, assign, modify, ret,
    make_mask_object, append_mask, set_masks, rebind.
  cbn [this world mask_type masks].
  rewrite Hmt, soft_is_not_binary, String.eqb_refl.
  cbn [this world mask_type masks app attribute fst]. reflexivity.
Qed.


Lemma nth_all_none {A : Type} (l : list nat) (j : nat) :
  nth j (map (fun _ => @None A) l) None = None.
Proof.
  destruct (nth_in_or_default j (map (fun _ => @None A) l) None) as [H|H];
    [|exact H].
  apply in_map_iff in H. now destruct H as (x & <- & _).
Qed.

Lemma dstack_one_undefined (F T : nat) :
  dstack [array [F; T] (map (fun _ => @None R) (seq 0 (F * T)))]
  = Ok (array [F; T; 1%nat] (map (fun _ => None) (seq 0 (F * T)))).
Proof.
  unfold dstack, stack_last. cbn [forallb bind shape data app length map size
                                  fold_right].
  rewrite Nat.mul_1_r. do 2 f_equal.
  generalize (seq 0 (F * T)) at 2 3. intros l.
  induction l as [|j l IH]; [reflexivity|].
  cbn [flat_map map app]. rewrite IH. f_equal. apply nth_all_none.
Qed.

(** A first run on one channel, two sources and the soft policy, for a
    mixture whose log-power passes the cutoff at no bin: the two mask objects
    hold only undefined entries. *)
Lemma run_at_silence (st : State) (s : ndarray complex) (out e : ndarray R)
    (labels : ndarray Z) (centers : ndarray R) (F T C' M K Fq : nat) :
  stft_transform (use_librosa_stft (this st))
                 (heap (world st) (audio_signal (this st))) = Ok s ->
  shape s = [F; T; C'] -> (1 <= C')%nat ->
  num_channels (heap (world st) (audio_signal (this st))) = 1%nat ->
  shape (mel_filter_bank (this st)) = [F; M] -> num_mels (this st) = M ->
  (0 < T * M)%nat ->
  embeddings (this st) = None ->
  (forall x, model (this st) x = Ok out) -> view_rows out = Ok e ->
  shape e = [(1 * (T * M))%nat; K] ->
  kmeans_fit (n_clusters (this st)) e = Ok (labels, centers) ->
  (T * M)%nat = length (data labels) -> shape centers = [2%nat; K] ->
  mask_type (this st) = SOFT_MASK -> num_sources (this st) = 2%nat ->
  shape (inverse_mel_filter_bank (this st)) = [M; Fq] -> (0 < Fq)%nat ->
  (forall x, In x (log_mel (amap Cabs s) (mel_filter_bank (this st)) 1 T M) ->
             Rgtb x (cutoff (this st)) = false) ->
  fst (run st)
  = Ok [ SoftMask (array [Fq; T; 1%nat] (map (fun _ => None) (seq 0 (Fq * T))));
         SoftMask (array [Fq; T; 1%nat] (map (fun _ => None) (seq 0 (Fq * T)))) ].
Proof.
  intros Hstft Hs HC Hch Hbank Hnm Hpos He Hmodel Hrows Hse Hfit Hlab Hsc Hmt Hn
         Hinv HFq Hquiet.
  unfold run. unfold sbind at 1.
  rewrite (compute_spectrograms_ok st s F T C' M Hstft Hs);
    [ | rewrite Hch; exact HC | exact Hbank | exact Hnm | rewrite Hch; lia ].
  rewrite Hch.
  unfold sbind at 1.
  erewrite deep_clustering_miss_ok;
    [ | exact He | reflexivity | apply Hmodel | exact Hrows | exact Hfit
      | cbn [shape]; rewrite size3; rewrite <- Hlab; lia ].
  set (st2 := Build_State _ _).
  assert (Hsig2 : heap (world st2) (audio_signal (this st2))
                  = set_stft_data (Some s) (heap (world st) (audio_signal (this st)))).
  { unfold st2. cbn [this world]. unfold log, set_heap. cbn [heap].
    change (audio_signal (set_centroids _ _)) with (audio_signal (this st)).
    apply upd_same. }
  assert (Hch2 : num_channels (heap (world st2) (audio_signal (this st2))) = 1%nat)
    by (rewrite Hsig2; exact Hch).
  assert (Hw2 : well_shaped (this st2) 1 T M Fq K).
  { exists e, centers,
      (array [1%nat; T; M]
         (map (fun x =>
            (x - global_mean (log_mel (amap Cabs s) (mel_filter_bank (this st)) 1 T M))
            / (global_std (log_mel (amap Cabs s) (mel_filter_bank (this st)) 1 T M)
               + eps))
            (log_mel (amap Cabs s) (mel_filter_bank (this st)) 1 T M))),
      (array [1%nat; T; M]
         (map (fun x => Rgtb x (cutoff (this st)))
            (log_mel (amap Cabs s) (mel_filter_bank (this st)) 1 T M))).
    split; [reflexivity|]. split; [exact Hse|]. split; [reflexivity|].
    split; [change (num_sources (this st2)) with (num_sources (this st));
            rewrite Hn; exact Hsc|].
    split; [reflexivity|]. split; [reflexivity|].
    split; [reflexivity|]. split; [reflexivity|].
    split; [unfold wf; cbn [data shape]; rewrite length_map, log_mel_length, size3;
            reflexivity|].
    split; [exact Hinv|]. split; assumption. }
  assert (Hq2 : silent (this st2)).
  { eexists. split; [reflexivity|]. cbn [data]. intros b Hb.
    apply in_map_iff in Hb. destruct Hb as (x & <- & Hx). now apply Hquiet. }
  assert (Hstft2 : stft_data (heap (world st2) (audio_signal (this st2))) <> None)
    by (rewrite Hsig2; discriminate).
  assert (Hmt2 : mask_type (this st2) = SOFT_MASK) by exact Hmt.
  assert (Hn2 : num_sources (this st2) = 2%nat) by exact Hn.
  clearbody st2.
  unfold sbind at 1. unfold extract_all. rewrite Hch2. cbn [seq mapM].
  rewrite (silent_masks_undefined (this st2) _ 1 T M Fq K 0 Hw2 Hmt2 Hn2 Hstft2)
    by (lia || exact Hq2).
  cbn [bind concat app].
  unfold sbind at 1. cbn [self_]. unfold sbind at 1. cbn [signal_].
  unfold sbind at 1. unfold lift at 1. unfold collate.
  rewrite Hch2, Hn2.
  cbn [seq mapM list_index nth_error Nat.add Nat.mul bind].
  rewrite dstack_one_undefined. cbn [bind].
  now apply assemble_soft_two.
Qed.

End Run.

(** ** A mixture of zeros, end to end *)

Lemma Cabs_zero : Cabs (0, 0) = 0.
Proof.
  unfold Cabs. cbn [fst snd]. replace (0 * 0 + 0 * 0) with 0 by ring.
  apply sqrt_0.
Qed.

Lemma mel_power_zero (magnitude bank : ndarray R) (c t m : nat) :
  (forall x, In x (data magnitude) -> x = 0) ->
  mel_power magnitude bank c t m = 0.
Proof.
  intros Hz. unfold mel_power. apply lsum_zero. intros x Hx.
  apply in_map_iff in Hx. destruct Hx as (f & <- & _).
  assert (H0 : get3 0 magnitude f t c = 0).
  { unfold get3. destruct (shape magnitude) as [|? [|? [|? [|? ?]]]]; try reflexivity.
    now apply nth_all_zero. }
  rewrite H0. ring.
Qed.

(** The log-power of an empty band: [10 log10 (1e-7)] is -70 dB. *)
Lemma log_power_zero : log_power 0 = -70.
Proof.
  unfold log_power, log10, eps.
  replace (0 ^ 2 + 1e-7) with (/ 10 ^ 7) by lra.
  rewrite ln_Rinv by (apply pow_lt; lra). rewrite ln_pow by lra.
  assert (H10 : 0 < ln 10) by (rewrite <- ln_1; apply ln_increasing; lra).
  replace (INR 7) with 7 by (simpl; lra). field. lra.
Qed.

Lemma silent_log_mel (magnitude bank : ndarray R) (C T M : nat) (x : R) :
  (forall y, In y (data magnitude) -> y = 0) ->
  In x (log_mel magnitude bank C T M) -> x = -70.
Proof.
  intros Hz Hx. unfold log_mel in Hx.
  apply in_flat_map in Hx. destruct Hx as (c & _ & Hx).
  apply in_flat_map in Hx. destruct Hx as (t & _ & Hx).
  apply in_map_iff in Hx. destruct Hx as (m & <- & _).
  rewrite mel_power_zero by assumption. apply log_power_zero.
Qed.

(** C2: the code at the failing input.  A separator built with the default
    soft policy and two sources over a mixture of zeros, then run: every bin
    is 70 dB down, below the cutoff of -40 dB, both normalised masks are zero,
    line 202 divides 0 by 0 at every bin, and the two soft masks returned
    hold only undefined entries.  They are not in [0, 1] and do not sum to 1. *)
Theorem silent_run_masks_do_not_sum_to_one :
  exists st,
    construct (ext := silent_externals) 0%nat silent_args silent_world = Some st /\
    fst (run (ext := silent_externals) st)
    = Ok [SoftMask undefined_mask3; SoftMask undefined_mask3] /\
    ~ bins_sum_to_one undefined_mask3 undefined_mask3.
Proof.
  eexists. split; [reflexivity|]. split.
  - apply (run_at_silence (ext := silent_externals) _ zero_stft
             (array [1; 1; 2; 1]%nat [0; 1]) (array [2; 1]%nat [0; 1])
             (array [2]%nat [0%Z; 1%Z]) (array [2; 1]%nat [0; 1]) 2 1 1 2 1 2);
      try reflexivity; try (simpl; lia).
    intros x Hx.
    assert (Hdb : x = -70).
    { eapply silent_log_mel; [|exact Hx].
      cbn [amap data zero_stft map]. intros y [<-|[<-|[]]]; apply Cabs_zero. }
    rewrite Hdb. unfold Rgtb.
    destruct (Rlt_dec _ (-70)) as [H|_]; [|reflexivity].
    cbn in H. lra.
  - intros H. destruct (H 0%nat) as (x & y & Hx & _); [simpl; lia|].
    discriminate Hx.
Qed.

(** * Further properties *)

(** ** Rounding *)

Lemma Int_part_unit (x : R) : 0 <= x < 1 -> Int_part x = 0%Z.
Proof. intros H. symmetry. apply Int_part_spec. simpl. lra. Qed.

(** On [0, 1) [np.round] gives 1 above one half and 0 otherwise; one half
    itself goes to the even neighbour, 0. *)
Lemma round_unit (x : R) :
  0 <= x < 1 -> np.round x = if Rlt_dec (1 / 2) x then 1 else 0.
Proof.
  intros H. unfold np.round. rewrite (Int_part_unit x H).
  replace (x - 0) with x by ring.
  destruct (Rlt_dec x (1 / 2)) as [Hlt|Hge].
  - destruct (Rlt_dec (1 / 2) x); [lra | reflexivity].
  - destruct (Rlt_dec (1 / 2) x); reflexivity.
Qed.

(** ** The loop of line 183, for any number of sources *)

Lemma loop_collects (self : DeepClustering) (ch : nat) (P : ndarray R -> Prop)
    (ss : list nat) :
  (forall s, In s ss -> forall mask l,
     exists out, mask_loop_body self ch (mask, l) s = Ok (Some out, l ++ [out])
                 /\ P out) ->
  forall mask l,
  exists last outs,
    foldM (mask_loop_body self ch) ss (mask, l) = Ok (last, l ++ outs) /\
    length outs = length ss /\ Forall P outs.
Proof.
  induction ss as [|s ss IH]; intros Hbody mask l.
  - exists mask, []. cbn [foldM]. rewrite app_nil_r. repeat split. constructor.
  - destruct (Hbody s (or_introl eq_refl) mask l) as (out & Hout & HP).
    destruct (IH (fun s' Hs' => Hbody s' (or_intror Hs')) (Some out) (l ++ [out]))
      as (last & outs & Hfold & Hlen & HPs).
    exists last, (out :: outs). cbn [foldM]. rewrite Hout. cbn [bind].
    rewrite Hfold, <- app_assoc. cbn [app length]. repeat split.
    + now rewrite Hlen.
    + now constructor.
Qed.

Lemma binary_body (self : DeepClustering) (C T M F ch s : nat)
    (mask : option (ndarray R)) (l : list (ndarray R)) :
  binary_shaped self C T M F -> mask_type self = BINARY_MASK -> (ch < C)%nat ->
  exists out,
    mask_loop_body self ch (mask, l) s = Ok (Some out, l ++ [out]) /\
    (shape out = [F; T] /\ length (data out) = (F * T)%nat /\
     forall x, In x (data out) -> 0 <= x < 1).
Proof.
  intros (sil & asg & Hsil & Hss & Hasg & Hsa & Hinv & HT & HF) Hmt Hch.
  pose proof (binary_mel_mask_ok self sil asg C T M ch s Hsil Hss Hasg Hsa Hch) as Hm.
  set (m := array [T; M] _) in Hm.
  destruct (project_and_normalize_total self (amap b2r m) T M F eq_refl Hinv)
    as (out & Hout & Hso & Hlo & Hrange & _); [nia|].
  exists out. split; [|repeat split; try assumption; now apply Hrange].
  unfold mask_loop_body. rewrite Hmt, String.eqb_refl, Hm. cbn [bind].
  rewrite Hout. reflexivity.
Qed.

Lemma binary_is_not_soft : String.eqb BINARY_MASK SOFT_MASK = false.
Proof. reflexivity. Qed.

(** What [_extract_masks] returns under the binary policy: the masks of the
    loop, none of them sharpened. *)
Lemma extract_binary (self : DeepClustering) (h : store) (ch : nat)
    (outs : list (ndarray R)) :
  mask_type self = BINARY_MASK -> stft_data (h (audio_signal self)) <> None ->
  mask_loop self ch = Ok outs ->
  _extract_masks self h ch = Ok (map (amap Some) outs).
Proof.
  intros Hmt Hstft Hloop. unfold _extract_masks.
  destruct (stft_data (h (audio_signal self))); [|congruence].
  rewrite Hloop. cbn [bind]. now rewrite Hmt, binary_is_not_soft.
Qed.

Lemma binary_loop (self : DeepClustering) (C T M F ch : nat) :
  binary_shaped self C T M F -> mask_type self = BINARY_MASK -> (ch < C)%nat ->
  exists outs,
    mask_loop self ch = Ok outs /\ length outs = num_sources self /\
    Forall (fun m => shape m = [F; T] /\ length (data m) = (F * T)%nat /\
                     forall x, In x (data m) -> 0 <= x < 1) outs.
Proof.
  intros Hw Hmt Hch.
  destruct (loop_collects self ch
              (fun m => shape m = [F; T] /\ length (data m) = (F * T)%nat /\
                        forall x, In x (data m) -> 0 <= x < 1)
              (seq 1 (num_sources self))
              (fun s _ mask l => binary_body self C T M F ch s mask l Hw Hmt Hch)
              None [])
    as (last & outs & Hfold & Hlen & HP).
  exists outs. unfold mask_loop. rewrite Hfold. cbn [bind snd app].
  rewrite length_seq in Hlen. split; [reflexivity|]. split; assumption.
Qed.

(** X1.  Under the binary policy, on arrays of the shapes the earlier stages
    produce, [_extract_masks] returns exactly [num_sources] masks for the
    channel; each has shape frequency x time and every entry is a defined
    number in [0, 1): the division of line 195 never fails and nothing is
    left undefined. *)
Theorem binary_extraction_is_defined (self : DeepClustering) (h : store)
    (C T M F ch : nat) :
  binary_shaped self C T M F -> mask_type self = BINARY_MASK ->
  stft_data (h (audio_signal self)) <> None -> (ch < C)%nat ->
  exists ms,
    _extract_masks self h ch = Ok ms /\ length ms = num_sources self /\
    Forall (fun m => shape m = [F; T] /\ unit_valued m) ms.
Proof.
  intros Hw Hmt Hstft Hch.
  destruct (binary_loop self C T M F ch Hw Hmt Hch) as (outs & Hloop & Hlen & HP).
  exists (map (amap Some) outs).
  split; [now apply extract_binary|]. split; [now rewrite length_map|].
  apply Forall_map. eapply Forall_impl; [|exact HP].
  intros m (Hs & _ & Hr). split; [exact Hs|].
  intros v Hv. cbn [amap data] in Hv. apply in_map_iff in Hv.
  destruct Hv as (x & <- & Hx). exists x. split; [reflexivity | now apply Hr].
Qed.

Lemma demo_binary_shaped : binary_shaped demo_binary 1 1 2 2.
Proof.
  exists (array [1; 1; 2]%nat [true; true]), (array [1; 1; 2]%nat [1%Z; 2%Z]).
  repeat split; try reflexivity; lia.
Qed.

Lemma binary_extraction_is_defined_witness :
  exists ms,
    _extract_masks demo_binary demo_heap 0 = Ok ms /\
    length ms = num_sources demo_binary /\
    Forall (fun m => shape m = [2; 1]%nat /\ unit_valued m) ms.
Proof.
  apply (binary_extraction_is_defined demo_binary demo_heap 1 1 2 2 0).
  - exact demo_binary_shaped.
  - reflexivity.
  - discriminate.
  - lia.
Defined.

(** X2.  Under the soft policy, for any number of sources, the loop of line
    183 returns exactly [num_sources] normalised masks, each of shape
    frequency x time with every entry in [0, 1). *)
Theorem soft_loop_masks (self : DeepClustering) (C T M F K ch : nat) :
  well_shaped self C T M F K -> mask_type self = SOFT_MASK -> (ch < C)%nat ->
  exists outs,
    mask_loop self ch = Ok outs /\ length outs = num_sources self /\
    Forall (fun m => shape m = [F; T] /\ forall x, In x (data m) -> 0 <= x < 1) outs.
Proof.
  intros Hw Hmt Hch.
  destruct (loop_collects self ch
              (fun m => shape m = [F; T] /\ forall x, In x (data m) -> 0 <= x < 1)
              (seq 1 (num_sources self))) with (mask := @None (ndarray R))
                                               (l := @nil (ndarray R))
    as (last & outs & Hfold & Hlen & HP).
  - intros s Hs mask l.
    destruct (soft_body self C T M F K ch s mask l Hw Hmt Hch Hs)
      as (out & Hout & Hso & _ & Hr & _).
    exists out. split; [exact Hout|]. split; [exact Hso | exact Hr].
  - exists outs. unfold mask_loop. rewrite Hfold. cbn [bind snd app].
    rewrite length_seq in Hlen. split; [reflexivity|]. split; assumption.
Qed.

Lemma soft_loop_masks_witness :
  exists outs,
    mask_loop demo_soft 0 = Ok outs /\ length outs = num_sources demo_soft /\
    Forall (fun m => shape m = [2; 1]%nat /\ forall x, In x (data m) -> 0 <= x < 1)
           outs.
Proof.
  apply (soft_loop_masks demo_soft 1 1 2 2 1 0).
  - apply demo_well_shaped. reflexivity.
  - reflexivity.
  - lia.
Defined.

(** X3.  At assembly under the binary policy a collated mask with entries in
    [0, 1) becomes a [BinaryMask] of the same shape whose entries are all 0
    or 1: an entry is 1 exactly when the normalised value is above one half
    (one half itself rounds to 0). *)
Theorem binary_assembly_thresholds (self : DeepClustering)
    (mask : ndarray (option R)) :
  mask_type self = BINARY_MASK -> unit_valued mask ->
  exists b,
    make_mask_object self mask = Ok (BinaryMask b) /\
    shape b = shape mask /\ zero_one b /\
    forall j x, nth j (data mask) None = Some x ->
      nth j (data b) None = Some (if Rlt_dec (1 / 2) x then 1 else 0).
Proof.
  intros Hmt Hunit. eexists. split.
  { unfold make_mask_object. rewrite Hmt, String.eqb_refl. reflexivity. }
  split; [reflexivity|]. split.
  - intros v Hv. cbn [amap data] in Hv. apply in_map_iff in Hv.
    destruct Hv as (u & <- & Hu). destruct (Hunit u Hu) as (x & -> & Hx).
    cbn [option_map]. rewrite (round_unit x Hx).
    destruct (Rlt_dec (1 / 2) x); [now right | now left].
  - intros j x Hj. cbn [amap data].
    destruct (Nat.lt_ge_cases j (length (data mask))) as [Hlt|Hge].
    + rewrite (nth_map_in _ _ None) by assumption. rewrite Hj. cbn [option_map].
      f_equal. apply round_unit.
      destruct (Hunit (Some x)) as (y & Hy & Hr);
        [rewrite <- Hj; now apply nth_In | now injection Hy as ->].
    + rewrite nth_overflow in Hj by assumption. discriminate.
Qed.

Lemma binary_assembly_thresholds_witness :
  exists b,
    make_mask_object demo_binary (array [2; 1; 1]%nat [Some (1 / 4); Some (3 / 4)])
    = Ok (BinaryMask b) /\
    shape b = [2; 1; 1]%nat /\ zero_one b /\
    forall j x,
      nth j (data (array [2; 1; 1]%nat [Some (1 / 4); Some (3 / 4)])) None = Some x ->
      nth j (data b) None = Some (if Rlt_dec (1 / 2) x then 1 else 0).
Proof.
  apply (binary_assembly_thresholds demo_binary
           (array [2; 1; 1]%nat [Some (1 / 4); Some (3 / 4)])).
  - reflexivity.
  - intros v [<-|[<-|[]]]; eexists; (split; [reflexivity | lra]).
Defined.

(** ** Binary masks of different sources *)

Lemma labels_exclude (L : list Z) (s s' : nat) (j : nat) :
  s <> s' ->
  nth j (map (fun z => Z.eqb z (Z.of_nat s)) L) false
  && nth j (map (fun z => Z.eqb z (Z.of_nat s')) L) false = false.
Proof.
  intros Hne. destruct (Nat.lt_ge_cases j (length L)) as [Hlt|Hge].
  - rewrite !(nth_map_in _ _ 0%Z) by assumption.
    destruct (Z.eqb_spec (nth j L 0%Z) (Z.of_nat s)) as [E|_]; [|reflexivity].
    destruct (Z.eqb_spec (nth j L 0%Z) (Z.of_nat s')) as [E'|_]; [|reflexivity].
    exfalso. apply Hne. lia.
  - rewrite nth_overflow by now rewrite length_map. reflexivity.
Qed.

(** X4.  The binary mel-domain masks of two different sources are disjoint:
    no bin of the channel is set in both. *)
Theorem binary_masks_disjoint (self : DeepClustering) (sil : ndarray bool)
    (asg : ndarray Z) (C T M ch s s' : nat) :
  silence_mask self = Some sil -> shape sil = [C; T; M] ->
  assignments self = Some asg -> shape asg = [C; T; M] ->
  (ch < C)%nat -> s <> s' ->
  exists m m',
    binary_mel_mask self ch s = Ok m /\ binary_mel_mask self ch s' = Ok m' /\
    forall j, nth j (data m) false && nth j (data m') false = false.
Proof.
  intros Hsil Hss Hasg Hsa Hch Hne.
  rewrite (binary_mel_mask_ok self sil asg C T M ch s Hsil Hss Hasg Hsa Hch).
  rewrite (binary_mel_mask_ok self sil asg C T M ch s' Hsil Hss Hasg Hsa Hch).
  eexists. eexists. split; [reflexivity|]. split; [reflexivity|].
  intros j. cbn [data]. now apply labels_exclude.
Qed.

Lemma binary_masks_disjoint_witness :
  exists m m',
    binary_mel_mask demo_binary 0 1 = Ok m /\ binary_mel_mask demo_binary 0 2 = Ok m' /\
    forall j, nth j (data m) false && nth j (data m') false = false.
Proof.
  apply (binary_masks_disjoint demo_binary (array [1; 1; 2]%nat [true; true])
           (array [1; 1; 2]%nat [1%Z; 2%Z]) 1 1 2 0 1 2);
    try reflexivity; lia.
Defined.

(** ** Sharpening with a number of sources other than two *)

Lemma length_stacked {A : Type} (d : A) (l : list (ndarray A)) (n s : nat) :
  length (flat_map (fun j => map (fun b => nth j (data b) d) l) (seq s n))
  = (n * length l)%nat.
Proof.
  revert s. induction n as [|n IH]; intros s; [reflexivity|].
  cbn [seq flat_map]. rewrite length_app, length_map, IH. lia.
Qed.

Lemma same_shapes {A : Type} (shp : list nat) (l : list (ndarray A)) :
  Forall (fun m => shape m = shp) l ->
  forallb (fun b => same_shape (shape b) shp) l = true.
Proof.
  induction 1 as [|m l Hm _ IH]; [reflexivity|].
  cbn [forallb]. now rewrite Hm, same_shape_refl, IH.
Qed.

(** The stack of line 199 followed by the reshape of line 201 needs an even
    number of entries. *)
Lemma sharpen_odd (self : DeepClustering) (shp : list nat) (l : list (ndarray R)) :
  l <> [] -> Forall (fun m => shape m = shp) l ->
  Nat.even (size shp * length l) = false ->
  sharpen self l = Raise (ValueError "cannot reshape array").
Proof.
  intros Hne Hall Hodd. destruct l as [|a rest]; [congruence|].
  inversion Hall as [|? ? Ha Hrest]; subst.
  unfold sharpen, stack_last. rewrite (same_shapes (shape a) rest Hrest).
  cbn [bind]. unfold reshape_pairs. cbn [data].
  rewrite (length_stacked 0 (a :: rest)), Hodd. reflexivity.
Qed.

(** X5.  The sharpening pairs the stacked values two by two (line 201), so
    under the soft policy [_extract_masks] raises [ValueError] whenever
    frequency bins x frames x sources is odd, as with one or three sources
    over an odd number of bins. *)
Theorem soft_extraction_needs_even_size (self : DeepClustering) (h : store)
    (C T M F K ch : nat) :
  well_shaped self C T M F K -> mask_type self = SOFT_MASK ->
  stft_data (h (audio_signal self)) <> None -> (ch < C)%nat ->
  (1 <= num_sources self)%nat ->
  Nat.even (F * T * num_sources self) = false ->
  _extract_masks self h ch = Raise (ValueError "cannot reshape array").
Proof.
  intros Hw Hmt Hstft Hch Hn Hodd.
  destruct (loop_collects self ch (fun m => shape m = [F; T])
              (seq 1 (num_sources self))) with (mask := @None (ndarray R))
                                               (l := @nil (ndarray R))
    as (last & outs & Hfold & Hlen & HP).
  { intros s Hs mask l.
    destruct (soft_body self C T M F K ch s mask l Hw Hmt Hch Hs)
      as (out & Hout & Hso & _).
    now exists out. }
  rewrite length_seq in Hlen.
  assert (Hloop : mask_loop self ch = Ok outs).
  { unfold mask_loop. now rewrite Hfold. }
  unfold _extract_masks.
  destruct (stft_data (h (audio_signal self))); [|congruence].
  rewrite Hloop. cbn [bind]. rewrite Hmt, String.eqb_refl.
  apply (sharpen_odd self [F; T]).
  - intros E. rewrite E in Hlen. simpl in Hlen. lia.
  - exact HP.
  - rewrite Hlen. cbn [size fold_right]. rewrite Nat.mul_1_r. exact Hodd.
Qed.

Lemma demo_single_shaped : well_shaped demo_single 1 1 1 1 1.
Proof.
  exists (array [1; 1]%nat [0]), (array [1; 1]%nat [0]),
         (array [1; 1; 1]%nat [0]), (array [1; 1; 1]%nat [true]).
  repeat split; try reflexivity; lia.
Qed.

Lemma soft_extraction_needs_even_size_witness :
  _extract_masks demo_single demo_heap 0 = Raise (ValueError "cannot reshape array").
Proof.
  apply (soft_extraction_needs_even_size demo_single demo_heap 1 1 1 1 1 0).
  - exact demo_single_shaped.
  - reflexivity.
  - discriminate.
  - lia.
  - simpl. lia.
  - reflexivity.
Defined.

(** X6.  With no source at all the binary policy returns the empty list of
    masks, while the soft policy fails: [np.stack] of line 199 is given no
    array and raises [ValueError]. *)
Theorem extraction_without_sources (self : DeepClustering) (h : store) (ch : nat) :
  num_sources self = 0%nat -> stft_data (h (audio_signal self)) <> None ->
  (mask_type self = BINARY_MASK -> _extract_masks self h ch = Ok []) /\
  (mask_type self = SOFT_MASK ->
   _extract_masks self h ch = Raise (ValueError "need at least one array to stack")).
Proof.
  intros Hn Hstft. unfold _extract_masks, mask_loop.
  destruct (stft_data (h (audio_signal self))); [|congruence].
  rewrite Hn. cbn [seq foldM bind snd]. split; intros Hmt; rewrite Hmt.
  - now rewrite binary_is_not_soft.
  - rewrite String.eqb_refl. reflexivity.
Qed.

Lemma extraction_without_sources_witness :
  _extract_masks (no_sources demo_binary) demo_heap 0 = Ok [] /\
  _extract_masks (no_sources demo_soft) demo_heap 0
  = Raise (ValueError "need at least one array to stack").
Proof.
  split.
  - apply (extraction_without_sources (no_sources demo_binary) demo_heap 0);
      [reflexivity | discriminate | reflexivity].
  - apply (extraction_without_sources (no_sources demo_soft) demo_heap 0);
      [reflexivity | discriminate | reflexivity].
Defined.

(** ** [generate_mask] *)

Lemma in_zip {A B C : Type} (f : A -> B -> C) (la : list A) (lb : list B) (z : C) :
  In z (map (fun p => f (fst p) (snd p)) (combine la lb)) ->
  exists a b, In a la /\ In b lb /\ z = f a b.
Proof.
  intros Hin. apply in_map_iff in Hin. destruct Hin as ([a b] & Hz & Hab).
  exists a, b. split; [eapply in_combine_l; exact Hab|].
  split; [eapply in_combine_r; exact Hab | now rewrite <- Hz].
Qed.

(** X7.  Given a signal with a transform and a binary mel-domain assignment of
    the shape of one channel, [generate_mask] returns a [BinaryMask] of shape
    frequency x time whose every entry is 0 or 1, and the mask of an
    assignment that is zero everywhere is zero everywhere. *)
Theorem generate_mask_is_binary (self : DeepClustering) (h : store)
    (sil : ndarray bool) (assignments : ndarray R) (C T M F ch : nat) :
  stft_data (h (audio_signal self)) <> None ->
  silence_mask self = Some sil -> shape sil = [C; T; M] ->
  shape assignments = [T; M] ->
  shape (inverse_mel_filter_bank self) = [M; F] ->
  (ch < C)%nat -> (0 < T)%nat -> (0 < F)%nat ->
  exists b,
    generate_mask self h ch assignments = Ok (BinaryMask b) /\
    shape b = [F; T] /\ zero_one b /\
    ((forall x, In x (data assignments) -> x = 0) ->
     forall v, In v (data b) -> v = Some 0).
Proof.
  intros Hstft Hsil Hss Hsa Hinv Hch HT HF.
  unfold generate_mask.
  destruct (stft_data (h (audio_signal self))); [|congruence].
  rewrite Hsil. cbn [not_none bind].
  rewrite (channel_ok sil C T M ch Hss Hch). cbn [bind].
  rewrite elementwise_ok by (now rewrite Hsa). cbn [bind shape data].
  set (m := array [T; M] _).
  destruct (project_and_normalize_total self m T M F eq_refl Hinv)
    as (out & Hout & Hso & _ & Hrange & Hzero); [nia|].
  rewrite Hout. cbn [bind]. eexists. split; [reflexivity|].
  split; [exact Hso|]. split.
  - intros v Hv. cbn [amap data] in Hv. apply in_map_iff in Hv.
    destruct Hv as (x & Hx & Hin). subst v.
    rewrite (round_unit x (Hrange x Hin)).
    destruct (Rlt_dec (1 / 2) x); [now right | now left].
  - intros Hall v Hv. cbn [amap data] in Hv. apply in_map_iff in Hv.
    destruct Hv as (x & Hx & Hin). subst v.
    assert (Hx0 : x = 0).
    { apply Hzero; [|exact Hin]. intros y Hy. subst m. cbn [data] in Hy.
      apply (in_zip (fun (b : bool) (x : R) => b2r b * x)) in Hy.
      destruct Hy as (a & y' & _ & Hy' & ->).
      rewrite (Hall y' Hy'). ring. }
    rewrite Hx0, round_unit by lra.
    destruct (Rlt_dec (1 / 2) 0); [lra | reflexivity].
Qed.

Lemma generate_mask_is_binary_witness :
  exists b,
    generate_mask demo_binary demo_heap 0 (array [1; 2]%nat [1; 0]) = Ok (BinaryMask b) /\
    shape b = [2; 1]%nat /\ zero_one b /\
    ((forall x, In x [1; 0] -> x = 0) -> forall v, In v (data b) -> v = Some 0).
Proof.
  apply (generate_mask_is_binary demo_binary demo_heap
           (array [1; 1; 2]%nat [true; true]) (array [1; 2]%nat [1; 0]) 1 1 2 2 0);
    try reflexivity; try lia.
  discriminate.
Defined.

(** ** What [_compute_spectrograms] leaves alone *)

Lemma same_except_spectrograms_refl (a : DeepClustering) :
  same_except_spectrograms a a.
Proof.
  exists (stft a), (mel_spectrogram a), (silence_mask a). now destruct a.
Qed.

Lemma same_except_stft_refl (a : AudioSignal) : same_except_stft a a.
Proof. exists (stft_data a). now destruct a. Qed.

Section Frame.

Context {ext : Externals}.

(** The state [_compute_spectrograms] ends in, whatever its outcome: the one
    it started from when the transform fails, and otherwise that state with
    the transform stored twice and some mel spectrogram and silence mask. *)
Lemma compute_spectrograms_state (st : State) :
  ((forall s, stft_transform (use_librosa_stft (this st))
                (heap (world st) (audio_signal (this st))) <> Ok s) /\
   snd (_compute_spectrograms st) = st) \/
  exists s m k,
    stft_transform (use_librosa_stft (this st))
      (heap (world st) (audio_signal (this st))) = Ok s /\
    snd (_compute_spectrograms st)
    = {| this := rebind (this st) (Some s) m k (embeddings (this st))
                   (assignments (this st)) (centroids (this st)) (masks (this st));
         world := set_heap (upd (heap (world st)) (audio_signal (this st))
                    (set_stft_data (Some s)
                       (heap (world st) (audio_signal (this st))))) (world st) |}.
Proof.
  destruct st as [self w]. cbn [this world].
  unfold _compute_spectrograms, sbind, self_, signal_, lift, on_world, assign,
    modify, ret.
  cbn [this world].
  destruct (stft_transform (use_librosa_stft self) (heap w (audio_signal self)))
    as [s| |] eqn:Hstft; cbn [snd this world].
  2,3: (left; split; [discriminate | reflexivity]).
  right. exists s.
  destruct (shape s) as [|d0 [|frames rest]]; cbn [snd this world];
    try (eexists _, _; split; reflexivity).
  destruct (mapM _ _) as [slices| |]; cbn [snd this world];
    try (eexists _, _; split; reflexivity).
  destruct (np.mean _) as [mu| |]; cbn [snd this world];
    try (eexists _, _; split; reflexivity).
  destruct (np.std _) as [sd| |]; cbn [snd this world];
    try (eexists _, _; split; reflexivity).
  destruct (div_scalar _ _) as [mel| |]; cbn [snd this world];
    eexists _, _; split; reflexivity.
Qed.

(** X8.  Whatever its outcome, [_compute_spectrograms] rebinds only
    [stft], [mel_spectrogram] and [silence_mask] of the separator, calls
    neither the model nor the clusterer, leaves every other signal of the
    heap as it was and changes nothing of its own signal but the stored
    transform.  Once the transform has been taken, the signal holds it and
    [self.stft] is the same array, even when a later line fails. *)
Theorem spectrograms_frame (st : State) :
  let st' := snd (_compute_spectrograms st) in
  let sig := audio_signal (this st) in
  same_except_spectrograms (this st) (this st') /\
  trace (world st') = trace (world st) /\
  (forall l, l <> sig -> heap (world st') l = heap (world st) l) /\
  same_except_stft (heap (world st) sig) (heap (world st') sig) /\
  (forall s, stft_transform (use_librosa_stft (this st)) (heap (world st) sig) = Ok s ->
     stft (this st') = Some s /\ stft_data (heap (world st') sig) = Some s).
Proof.
  intros st' sig. subst st' sig.
  destruct (compute_spectrograms_state st) as [[Hfail ->]|(s & m & k & Hs & ->)].
  - split; [apply same_except_spectrograms_refl|]. split; [reflexivity|].
    split; [reflexivity|]. split; [apply same_except_stft_refl|].
    intros s Hs. now destruct (Hfail s).
  - cbn [this world set_heap heap trace].
    split; [now exists (Some s), m, k|]. split; [reflexivity|].
    split; [intros l Hl; now apply upd_other|].
    rewrite upd_same. split; [now exists (Some s)|].
    intros s0 E. rewrite Hs in E. injection E as <-. now split.
Qed.

(** ** What [deep_clustering] leaves alone *)

(** [deep_clustering] against the state it started from, whatever its
    outcome. *)
Lemma clustering_frame (st : State) :
  let st' := snd (deep_clustering st) in
  same_except_clustering (this st) (this st') /\
  heap (world st') = heap (world st) /\
  (exists t, trace (world st') = trace (world st) ++ t /\ (length t <= 2)%nat).
Proof.
  destruct st as [self w]. cbn [this world].
  assert (Hnone : mel_spectrogram self = None ->
                  deep_clustering {| this := self; world := w |}
                  = (Raise (TypeError "NoneType"), {| this := self; world := w |})).
  { intros Hm. unfold deep_clustering, sbind, self_, lift. cbn [this].
    now rewrite Hm. }
  split; [|split].
  all: destruct (mel_spectrogram self) as [m|] eqn:Hm;
    [clear Hnone | rewrite (Hnone eq_refl); cbn [snd this world]].
  2:{ exists (embeddings self), (assignments self), (centroids self). now destruct self. }
  3:{ reflexivity. }
  4:{ exists []. rewrite app_nil_r. split; [reflexivity | simpl; lia]. }
  all: unfold deep_clustering, sbind, self_, lift, on_world, assign, modify, ret;
    cbn [this world]; rewrite Hm; cbn [not_none];
    destruct (embeddings self) as [e|] eqn:He; cbn [this world not_none];
    rewrite ?He; cbn [this world not_none].
  all: try (destruct (model self m) as [out| |]; cbn [this world snd];
            [destruct (view_rows out) as [e| |]; cbn [this world snd]|..]).
  all: try (cbn [set_embeddings rebind embeddings n_clusters mel_spectrogram not_none]).
  all: try (destruct (kmeans_fit (n_clusters self) e) as [[labels centers]| |];
            cbn [this world snd fst];
            [rewrite ?Hm; cbn [attribute];
             destruct (reshape _ _) as [asg| |]; cbn [this world snd]|..]).
  all: unfold log; cbn [heap trace].
  all: try reflexivity.
  all: try (eexists; split; [rewrite <- ?app_assoc; reflexivity | simpl; lia]).
  all: try (eexists _, _, _; unfold set_centroids, set_assignments, set_embeddings;
            cbn [rebind stft mel_spectrogram silence_mask embeddings assignments
                 centroids masks]; rewrite <- ?Hm; reflexivity).
  all: try (exists (embeddings self), (assignments self), (centroids self);
            now destruct self).
Qed.

(** X9.  Whatever its outcome, [deep_clustering] rebinds only [embeddings],
    [assignments] and [centroids], leaves the heap as it is and adds at most
    two events to the trace; called before any spectrogram exists it raises
    [TypeError] and changes nothing. *)
Theorem deep_clustering_frame (st : State) :
  let st' := snd (deep_clustering st) in
  same_except_clustering (this st) (this st') /\
  heap (world st') = heap (world st) /\
  (exists t, trace (world st') = trace (world st) ++ t /\ (length t <= 2)%nat) /\
  (mel_spectrogram (this st) = None ->
   deep_clustering st = (Raise (TypeError "NoneType"), st)).
Proof.
  intros st'. subst st'.
  destruct (clustering_frame st) as (Hthis & Hheap & Htrace).
  split; [exact Hthis|]. split; [exact Hheap|]. split; [exact Htrace|].
  intros Hm. destruct st as [self w]. cbn [this] in Hm.
  unfold deep_clustering, sbind, self_, lift. cbn [this].
  now rewrite Hm.
Qed.

(** ** What [run] leaves alone *)

Lemma sbind_keeps {S A B : Type} (I : S -> Prop) (c : M S A) (k : A -> M S B)
    (st : S) :
  I (snd (c st)) -> (forall a st', I st' -> I (snd (k a st'))) ->
  I (snd (sbind c k st)).
Proof.
  intros Hc Hk. unfold sbind. destruct (c st) as [[a| |] st']; cbn [snd] in *; auto.
Qed.

Lemma run_frame_refl (st : State) : run_frame st st.
Proof.
  split; [|split; [reflexivity|split; [apply same_except_stft_refl|]]].
  - exists (stft (this st)), (mel_spectrogram (this st)), (silence_mask (this st)),
      (embeddings (this st)), (assignments (this st)), (centroids (this st)),
      (masks (this st)).
    now destruct (this st).
  - exists []. now rewrite app_nil_r.
Qed.

Lemma run_frame_trans (st0 st st' : State) :
  run_frame st0 st -> run_frame st st' -> run_frame st0 st'.
Proof.
  intros ((s & m & k & e & asg & c & ms & H1) & Hh1 & (d1 & Hs1) & (t1 & Ht1))
         ((s' & m' & k' & e' & asg' & c' & ms' & H2) & Hh2 & (d2 & Hs2) & (t2 & Ht2)).
  assert (Hsig : audio_signal (this st) = audio_signal (this st0)) by now rewrite H1.
  rewrite Hsig in Hh2, Hs2.
  split; [|split; [|split]].
  - exists s', m', k', e', asg', c', ms'. rewrite H2, H1. reflexivity.
  - intros l Hl. now rewrite Hh2, Hh1.
  - exists d2. rewrite Hs2, Hs1. reflexivity.
  - exists (t1 ++ t2). now rewrite Ht2, Ht1, app_assoc.
Qed.

Lemma spectrograms_in_frame (st : State) :
  run_frame st (snd (_compute_spectrograms st)).
Proof.
  destruct (compute_spectrograms_state st) as [[_ ->]|(s & m & k & _ & ->)];
    [apply run_frame_refl|].
  unfold run_frame. cbn [this world set_heap heap trace]. split; [|split; [|split]].
  - exists (Some s), m, k, (embeddings (this st)), (assignments (this st)),
      (centroids (this st)), (masks (this st)). reflexivity.
  - intros l Hl. now apply upd_other.
  - rewrite upd_same. now exists (Some s).
  - exists []. now rewrite app_nil_r.
Qed.

Lemma clustering_in_frame (st : State) :
  run_frame st (snd (deep_clustering st)).
Proof.
  destruct (clustering_frame st) as ((e & asg & c & H) & Hh & (t & Ht & _)).
  split; [|split; [|split]].
  - exists (stft (this st)), (mel_spectrogram (this st)), (silence_mask (this st)),
      e, asg, c, (masks (this st)). exact H.
  - intros l _. now rewrite Hh.
  - rewrite Hh. apply same_except_stft_refl.
  - now exists t.
Qed.

(** Lines 251-262 change [self.masks] only. *)
Lemma for_each_masks (l : list (ndarray (option R))) (st : State) :
  exists ms,
    snd (for_each l (fun mask =>
           self <~ self_ ;;
           mask_object <~ lift (make_mask_object self mask) ;;
           assign (append_mask mask_object)) st)
    = {| this := set_masks ms (this st); world := world st |}.
Proof.
  revert st. induction l as [|mask l IH]; intros st.
  - exists (masks (this st)). cbn [for_each ret snd]. destruct st as [self w].
    cbn [this world]. now destruct self.
  - cbn [for_each]. unfold sbind at 1. unfold sbind at 1. cbn [self_].
    unfold sbind at 1. unfold lift at 1.
    destruct (make_mask_object (this st) mask) as [o| |].
    + cbn [assign modify]. destruct (IH {| this := append_mask o (this st);
                                           world := world st |}) as (ms & Hms).
      exists ms. rewrite Hms. reflexivity.
    + exists (masks (this st)). cbn [snd]. destruct st as [self w].
      cbn [this world]. now destruct self.
    + exists (masks (this st)). cbn [snd]. destruct st as [self w].
      cbn [this world]. now destruct self.
Qed.

Lemma assemble_masks (l : list (ndarray (option R))) (st : State) :
  exists ms,
    snd (assemble l st) = {| this := set_masks ms (this st); world := world st |}.
Proof.
  unfold assemble. unfold sbind at 1. cbn [assign modify].
  unfold sbind at 1.
  destruct (for_each_masks l {| this := set_masks (Some []) (this st);
                                world := world st |}) as (ms & Hms).
  destruct (for_each l _ _) as [[[]| |] st'] eqn:Hloop; cbn [snd] in Hms; subst st';
    cbn [this world].
  - unfold sbind, self_, lift. cbn [this snd]. now exists ms.
  - now exists ms.
  - now exists ms.
Qed.

Lemma assemble_in_frame (l : list (ndarray (option R))) (st : State) :
  run_frame st (snd (assemble l st)).
Proof.
  destruct (assemble_masks l st) as (ms & ->).
  split; [|split; [reflexivity|split; [apply same_except_stft_refl|]]].
  - exists (stft (this st)), (mel_spectrogram (this st)), (silence_mask (this st)),
      (embeddings (this st)), (assignments (this st)), (centroids (this st)), ms.
    reflexivity.
  - exists []. cbn [world]. now rewrite app_nil_r.
Qed.

Lemma run_in_frame (st : State) : run_frame st (snd (run st)).
Proof.
  unfold run.
  apply (sbind_keeps (run_frame st)).
  { apply spectrograms_in_frame. }
  intros _ st1 H1. apply (sbind_keeps (run_frame st)).
  { eapply run_frame_trans; [exact H1 | apply clustering_in_frame]. }
  intros _ st2 H2. apply (sbind_keeps (run_frame st)); [exact H2|].
  intros u st3 H3. apply (sbind_keeps (run_frame st)); [exact H3|].
  intros self st4 H4. apply (sbind_keeps (run_frame st)); [exact H4|].
  intros sig st5 H5. apply (sbind_keeps (run_frame st)); [exact H5|].
  intros c st6 H6. eapply run_frame_trans; [exact H6 | apply assemble_in_frame].
Qed.

(** X10.  Whatever its outcome, [run] keeps the configuration of the
    separator: the signal it refers to, the mask type, the numbers of
    sources, of mel bands and of clusters, the two filter banks, the maximum
    distance and the cutoff.  It leaves every other signal of the heap
    untouched, changes nothing of its own signal but the stored transform,
    and only adds to the trace of model and clusterer calls. *)
Theorem run_keeps_configuration (st : State) :
  let st' := snd (run st) in
  (audio_signal (this st') = audio_signal (this st) /\
   mask_type (this st') = mask_type (this st) /\
   num_sources (this st') = num_sources (this st) /\
   n_clusters (this st') = n_clusters (this st) /\
   num_mels (this st') = num_mels (this st) /\
   mel_filter_bank (this st') = mel_filter_bank (this st) /\
   inverse_mel_filter_bank (this st') = inverse_mel_filter_bank (this st) /\
   max_distance (this st') = max_distance (this st) /\
   cutoff (this st') = cutoff (this st)) /\
  (forall l, l <> audio_signal (this st) -> heap (world st') l = heap (world st) l) /\
  same_except_stft (heap (world st) (audio_signal (this st)))
                   (heap (world st') (audio_signal (this st))) /\
  exists t, trace (world st') = trace (world st) ++ t.
Proof.
  intros st'. subst st'.
  destruct (run_in_frame st)
    as ((s & m & k & e & asg & c & ms & Hthis) & Hheap & Hsig & Htrace).
  split; [|split; [exact Hheap | split; [exact Hsig | exact Htrace]]].
  rewrite Hthis. repeat split.
Qed.

(** ** The cache of embeddings across a run *)

(** X11.  A run that starts with the cache of embeddings filled never calls
    the model and ends with the same embeddings, whatever its outcome and
    whatever signal the spectrograms were recomputed from. *)
Theorem run_reuses_cached_embeddings (st : State) (e : ndarray R) :
  embeddings (this st) = Some e ->
  embeddings (this (snd (run st))) = Some e /\
  model_calls (trace (world (snd (run st)))) = model_calls (trace (world st)).
Proof.
  intros He.
  set (I := fun s : State => embeddings (this s) = Some e /\
                             model_calls (trace (world s)) = model_calls (trace (world st))).
  change (I (snd (run st))). unfold run.
  assert (H0 : I st) by now split.
  assert (Hspec : forall s, I s -> I (snd (_compute_spectrograms s))).
  { intros s [Hs1 Hs2].
    destruct (compute_spectrograms_state s) as [[_ ->]|(x & m & k & _ & ->)];
      now split. }
  assert (Hclu : forall s, I s -> I (snd (deep_clustering s))).
  { intros s [Hs1 Hs2]. destruct (deep_clustering_hit s e Hs1) as [H1 H2].
    split; [exact H1|].
    destruct H2 as [[_ ->]|[_ ->]]; [exact Hs2|].
    rewrite model_calls_app, Hs2. cbn. lia. }
  assert (Hasm : forall l s, I s -> I (snd (assemble l s))).
  { intros l s [Hs1 Hs2]. destruct (assemble_masks l s) as (ms & ->).
    split; [exact Hs1 | exact Hs2]. }
  apply (sbind_keeps I); [now apply Hspec|].
  intros _ st1 H1. apply (sbind_keeps I); [now apply Hclu|].
  intros _ st2 H2. apply (sbind_keeps I); [exact H2|].
  intros u st3 H3. apply (sbind_keeps I); [exact H3|].
  intros self st4 H4. apply (sbind_keeps I); [exact H4|].
  intros sig st5 H5. apply (sbind_keeps I); [exact H5|].
  intros c st6 H6. now apply Hasm.
Qed.


(** ** The objects a run returns *)

Lemma mapM_cons_ok {A B : Type} (f : A -> result B) (x : A) (xs : list A)
    (r : list B) :
  mapM f (x :: xs) = Ok r ->
  exists y ys, f x = Ok y /\ mapM f xs = Ok ys /\ r = y :: ys.
Proof.
  cbn [mapM]. destruct (f x) as [y| |]; cbn [bind]; try discriminate.
  destruct (mapM f xs) as [ys| |]; cbn [bind]; try discriminate.
  intros E. injection E as <-. now exists y, ys.
Qed.

Lemma mapM_length {A B : Type} (f : A -> result B) (l : list A) (r : list B) :
  mapM f l = Ok r -> length r = length l.
Proof.
  revert r. induction l as [|x xs IH]; intros r H.
  - injection H as <-. reflexivity.
  - apply mapM_cons_ok in H. destruct H as (y & ys & _ & Hys & ->).
    cbn [length]. now rewrite (IH ys Hys).
Qed.

Lemma collate_length (self : DeepClustering) (sig : AudioSignal)
    (u c : list (ndarray (option R))) :
  collate self sig u = Ok c -> length c = num_sources self.
Proof.
  intros H. apply mapM_length in H. now rewrite length_seq in H.
Qed.

Lemma make_mask_object_policy (self : DeepClustering) (mask : ndarray (option R))
    (o : mask_object) :
  make_mask_object self mask = Ok o -> of_policy self o.
Proof.
  unfold make_mask_object.
  destruct (String.eqb_spec (mask_type self) BINARY_MASK) as [Hb|_].
  - intros E. injection E as <-. exact Hb.
  - destruct (String.eqb_spec (mask_type self) SOFT_MASK) as [Hs|_].
    + intros E. injection E as <-. exact Hs.
    + discriminate.
Qed.

(** The collated masks are not empty only when some channel went through
    the loop of line 183 at least once, and that needs a known mask type. *)
Lemma collated_needs_known_type (st : State) (u c : list (ndarray (option R))) :
  fst (extract_all st) = Ok u ->
  collate (this st) (heap (world st) (audio_signal (this st))) u = Ok c ->
  c <> [] ->
  String.eqb (mask_type (this st)) BINARY_MASK = true \/
  String.eqb (mask_type (this st)) SOFT_MASK = true.
Proof.
  intros Hu Hc Hne. unfold extract_all in Hu. cbn [fst] in Hu.
  unfold collate in Hc.
  destruct (num_sources (this st)) as [|n] eqn:Hn.
  { cbn [seq mapM] in Hc. injection Hc as <-. congruence. }
  destruct (num_channels (heap (world st) (audio_signal (this st)))) as [|C] eqn:HC.
  { cbn [seq mapM bind dstack stack_last] in Hc. discriminate. }
  cbn [seq] in Hu.
  destruct (mapM _ (0%nat :: _)) as [l| |] eqn:Hl; try discriminate.
  apply mapM_cons_ok in Hl. destruct Hl as (y & ys & Hy & _).
  destruct (String.eqb (mask_type (this st)) BINARY_MASK) eqn:Hb; [now left|].
  destruct (String.eqb (mask_type (this st)) SOFT_MASK) eqn:Hs; [now right|].
  exfalso.
  destruct (stft_data (heap (world st) (audio_signal (this st)))) as [d|] eqn:Hd.
  - rewrite (unknown_type_unbound (this st) (heap (world st)) 0 Hb Hs) in Hy;
      [discriminate | now rewrite Hd | lia].
  - unfold _extract_masks in Hy. rewrite Hd in Hy. discriminate.
Qed.

(** X12.  In [run] the [raise] of line 261 is never reached: masks that came
    out of the extraction and the collation are all turned into mask
    objects.  With a mask type that is neither binary nor soft, either there
    is no mask to wrap or the extraction has failed before. *)
Theorem unknown_type_error_unreachable (st : State)
    (u c : list (ndarray (option R))) :
  fst (extract_all st) = Ok u ->
  collate (this st) (heap (world st) (audio_signal (this st))) u = Ok c ->
  Forall (fun mask => exists o, make_mask_object (this st) mask = Ok o) c.
Proof.
  intros Hu Hc. destruct c as [|m c]; [constructor|].
  destruct (collated_needs_known_type st u (m :: c) Hu Hc) as [Hb|Hs];
    [discriminate| |].
  - apply Forall_forall. intros mask _. unfold make_mask_object. rewrite Hb.
    now eexists.
  - apply Forall_forall. intros mask _. unfold make_mask_object. rewrite Hs.
    destruct (String.eqb _ BINARY_MASK); now eexists.
Qed.

End Frame.

Lemma run_reuses_cached_embeddings_witness :
  embeddings (this (snd (run (ext := demo_externals) (demo_state SOFT_MASK))))
  = Some (array [2; 1]%nat [0; 1]) /\
  model_calls (trace (world (snd (run (ext := demo_externals) (demo_state SOFT_MASK)))))
  = model_calls (trace (world (demo_state SOFT_MASK))).
Proof.
  apply (run_reuses_cached_embeddings (ext := demo_externals) (demo_state SOFT_MASK)).
  reflexivity.
Defined.

Lemma unknown_type_error_unreachable_witness :
  exists u c,
    fst (extract_all (demo_state BINARY_MASK)) = Ok u /\
    collate demo_binary (demo_heap 0%nat) u = Ok c /\
    length c = 2%nat /\
    Forall (fun mask => exists o, make_mask_object demo_binary mask = Ok o) c.
Proof.
  destruct (binary_loop demo_binary 1 1 2 2 0 demo_binary_shaped eq_refl)
    as (outs & Hloop & Hlen & _); [lia|].
  destruct outs as [|o1 [|o2 [|o3 outs]]]; try discriminate Hlen.
  assert (Hu : fst (extract_all (demo_state BINARY_MASK))
               = Ok [amap Some o1; amap Some o2]).
  { unfold extract_all, demo_state, demo_world. cbn [fst this world heap].
    change (demo_with BINARY_MASK [true; true]) with demo_binary.
    change (num_channels (demo_heap (audio_signal demo_binary))) with 1%nat.
    cbn [seq mapM].
    rewrite (extract_binary demo_binary demo_heap 0 [o1; o2] eq_refl);
      [reflexivity | discriminate | exact Hloop]. }
  exists [amap Some o1; amap Some o2].
  exists [array (shape o1 ++ [1%nat])
            (flat_map (fun j => [nth j (data (amap Some o1)) None])
                      (seq 0 (size (shape o1))));
          array (shape o2 ++ [1%nat])
            (flat_map (fun j => [nth j (data (amap Some o2)) None])
                      (seq 0 (size (shape o2))))].
  assert (Hc : collate demo_binary (demo_heap 0%nat) [amap Some o1; amap Some o2]
               = Ok [array (shape o1 ++ [1%nat])
                       (flat_map (fun j => [nth j (data (amap Some o1)) None])
                                 (seq 0 (size (shape o1))));
                     array (shape o2 ++ [1%nat])
                       (flat_map (fun j => [nth j (data (amap Some o2)) None])
                                 (seq 0 (size (shape o2))))]) by reflexivity.
  split; [exact Hu|]. split; [exact Hc|]. split; [reflexivity|].
  exact (unknown_type_error_unreachable (demo_state BINARY_MASK) _ _ Hu Hc).
Defined.

Section Returned.

Context {ext : Externals}.

Lemma sbind_ok {S A B : Type} (c : M S A) (k : A -> M S B) (st : S) (b : B) :
  fst (sbind c k st) = Ok b ->
  exists a, fst (c st) = Ok a /\ fst (k a (snd (c st))) = Ok b /\
            snd (sbind c k st) = snd (k a (snd (c st))).
Proof.
  unfold sbind. destruct (c st) as [[a| |] st']; cbn [fst snd]; try discriminate.
  intros H. now exists a.
Qed.

(** The loop of line 253 appends one object of the policy's kind per mask. *)
Lemma for_each_objects (l : list (ndarray (option R))) :
  forall (st : State) (acc : list mask_object),
  masks (this st) = Some acc ->
  fst (for_each l (fun mask =>
         self <~ self_ ;;
         mask_object <~ lift (make_mask_object self mask) ;;
         assign (append_mask mask_object)) st) = Ok tt ->
  exists objs,
    snd (for_each l (fun mask =>
           self <~ self_ ;;
           mask_object <~ lift (make_mask_object self mask) ;;
           assign (append_mask mask_object)) st)
    = {| this := set_masks (Some (acc ++ objs)) (this st); world := world st |} /\
    length objs = length l /\ Forall (of_policy (this st)) objs.
Proof.
  induction l as [|mask l IH]; intros st acc Hacc Hok.
  - exists []. cbn [for_each ret snd]. split; [|split; [reflexivity | constructor]].
    rewrite app_nil_r, <- Hacc. destruct st as [self w]. cbn [this world].
    now destruct self.
  - cbn [for_each] in Hok |- *.
    unfold sbind at 1 in Hok. unfold sbind at 1 in Hok. cbn [self_] in Hok.
    unfold sbind at 1 in Hok. unfold lift at 1 in Hok.
    unfold sbind at 1. unfold sbind at 1. cbn [self_].
    unfold sbind at 1. unfold lift at 1.
    destruct (make_mask_object (this st) mask) as [o| |] eqn:Ho;
      try discriminate Hok.
    cbn [assign modify] in Hok |- *.
    assert (Hacc' : masks (this {| this := append_mask o (this st); world := world st |})
                    = Some (acc ++ [o])).
    { cbn [this]. unfold append_mask. rewrite Hacc. reflexivity. }
    destruct (IH _ (acc ++ [o]) Hacc' Hok) as (objs & Hst & Hlen & Hall).
    exists (o :: objs). rewrite Hst. cbn [this world].
    split; [now rewrite <- app_assoc|]. split; [cbn [length]; now rewrite Hlen|].
    constructor; [exact (make_mask_object_policy _ _ _ Ho) | exact Hall].
Qed.

Lemma assemble_ok (l : list (ndarray (option R))) (st : State)
    (ms : list mask_object) :
  fst (assemble l st) = Ok ms ->
  masks (this (snd (assemble l st))) = Some ms /\ length ms = length l /\
  Forall (of_policy (this st)) ms.
Proof.
  unfold assemble. intros H.
  apply sbind_ok in H. destruct H as ([] & _ & H & ->).
  cbn [assign modify snd] in H |- *.
  apply sbind_ok in H. destruct H as ([] & Hloop & H & ->).
  destruct (for_each_objects l {| this := set_masks (Some []) (this st);
                                  world := world st |} [] eq_refl Hloop)
    as (objs & Hst & Hlen & Hall).
  rewrite Hst in H |- *. cbn [app] in H |- *.
  unfold sbind, self_, lift in H |- *. cbn [this fst snd] in H |- *.
  cbn [set_masks rebind masks attribute] in H |- *. injection H as <-.
  split; [reflexivity|]. split; [exact Hlen | exact Hall].
Qed.

(** X13.  A run that returns, returns the list it has stored in
    [self.masks]: one mask object per source, each of the kind of the
    separator's policy. *)
Theorem run_returns_its_masks (st : State) (ms : list mask_object) :
  fst (run st) = Ok ms ->
  masks (this (snd (run st))) = Some ms /\
  length ms = num_sources (this st) /\
  Forall (of_policy (this st)) ms.
Proof.
  unfold run. intros H.
  apply sbind_ok in H. destruct H as ([] & _ & H & ->).
  pose proof (spectrograms_in_frame st) as F1.
  set (st1 := snd (_compute_spectrograms st)) in *. clearbody st1.
  apply sbind_ok in H. destruct H as ([] & _ & H & ->).
  pose proof (run_frame_trans _ _ _ F1 (clustering_in_frame st1)) as F2.
  set (st2 := snd (deep_clustering st1)) in *. clearbody st2. clear F1 st1.
  apply sbind_ok in H. destruct H as (u & _ & H & ->).
  change (snd (extract_all st2)) with st2 in *.
  apply sbind_ok in H. destruct H as (self & Hself & H & ->).
  cbn [self_ fst snd] in Hself, H |- *. injection Hself as <-.
  apply sbind_ok in H. destruct H as (sig & _ & H & ->).
  cbn [signal_ snd] in H |- *.
  apply sbind_ok in H. destruct H as (c & Hc & H & ->).
  cbn [lift fst snd] in Hc, H |- *.
  destruct (assemble_ok c st2 ms H) as (Hm & Hlen & Hall).
  destruct F2 as ((s & m & k & e & asg & cs & ms' & Hthis) & _).
  split; [exact Hm|]. split.
  - rewrite Hlen, (collate_length _ _ _ _ Hc), Hthis. reflexivity.
  - rewrite Hthis in Hall. exact Hall.
Qed.

End Returned.

(** The run of the silent configuration, from construction on. *)
Lemma silent_run :
  exists st,
    construct (ext := silent_externals) 0%nat silent_args silent_world = Some st /\
    fst (run (ext := silent_externals) st)
    = Ok [SoftMask undefined_mask3; SoftMask undefined_mask3].
Proof.
  eexists. split; [reflexivity|].
  apply (run_at_silence (ext := silent_externals) _ zero_stft
           (array [1; 1; 2; 1]%nat [0; 1]) (array [2; 1]%nat [0; 1])
           (array [2]%nat [0%Z; 1%Z]) (array [2; 1]%nat [0; 1]) 2 1 1 2 1 2);
    try reflexivity; try (simpl; lia).
  intros x Hx.
  assert (Hdb : x = -70).
  { eapply silent_log_mel; [|exact Hx].
    cbn [amap data zero_stft map]. intros y [<-|[<-|[]]]; apply Cabs_zero. }
  rewrite Hdb. unfold Rgtb.
  destruct (Rlt_dec _ (-70)) as [H|_]; [|reflexivity].
  cbn in H. lra.
Qed.

Lemma run_returns_its_masks_witness :
  exists st,
    construct (ext := silent_externals) 0%nat silent_args silent_world = Some st /\
    masks (this (snd (run (ext := silent_externals) st)))
    = Some [SoftMask undefined_mask3; SoftMask undefined_mask3] /\
    length [SoftMask undefined_mask3; SoftMask undefined_mask3] = num_sources (this st) /\
    Forall (of_policy (this st)) [SoftMask undefined_mask3; SoftMask undefined_mask3].
Proof.
  destruct silent_run as (st & Hst & Hrun).
  exists st. split; [exact Hst|].
  exact (run_returns_its_masks (ext := silent_externals) st _ Hrun).
Defined.

(** ** Lines 145-146: the standardised spectrogram *)

Lemma lsum_scaled (f : R -> R) (d : R) (l : list R) :
  lsum (map (fun x => f x / d) l) = lsum (map f l) / d.
Proof.
  induction l as [|x l IH]; [simpl; unfold Rdiv; ring|].
  cbn [map lsum fold_right]. fold (lsum (map (fun x => f x / d) l)).
  fold (lsum (map f l)). rewrite IH. unfold Rdiv. ring.
Qed.

Lemma global_std_nonneg (l : list R) : 0 <= global_std l.
Proof. unfold global_std. apply sqrt_pos. Qed.

(** Mean and standard deviation of [(x - mean) / (std + eps)]. *)
Lemma standardised (shp : list nat) (l : list R) :
  l <> [] ->
  let out := array shp (map (fun x => (x - global_mean l) / (global_std l + eps)) l) in
  np.mean out = Ok 0 /\
  np.std out = Ok (global_std l / (global_std l + eps)) /\
  0 <= global_std l / (global_std l + eps) < 1.
Proof.
  intros Hne out.
  pose proof eps_pos as He. pose proof (global_std_nonneg l) as Hs.
  set (d := global_std l + eps) in *.
  assert (Hd : 0 < d) by (unfold d; lra).
  assert (Hlen : INR (length l) <> 0).
  { apply not_0_INR. destruct l; [congruence | simpl; lia]. }
  assert (Hout : data out <> []).
  { unfold out. cbn [data]. intros E. apply map_eq_nil in E. contradiction. }
  assert (Hmean : global_mean (data out) = 0).
  { unfold out. cbn [data]. unfold global_mean at 1.
    rewrite (lsum_scaled (fun x => x - global_mean l) d), lsum_shift, length_map.
    unfold global_mean. field. split; first [assumption | lra]. }
  split; [|split].
  - rewrite mean_ok by exact Hout. now rewrite Hmean.
  - unfold np.std. rewrite mean_ok by exact Hout. cbn [bind]. rewrite Hmean.
    rewrite mean_ok.
    2:{ cbn [amap data]. intros E. apply map_eq_nil in E. contradiction. }
    cbn [bind]. f_equal. unfold out. cbn [amap data]. rewrite map_map.
    unfold global_mean at 1. rewrite length_map.
    rewrite (map_ext _ (fun x => (x - global_mean l) ^ 2 / (d * d))).
    2:{ intros x. field. lra. }
    rewrite (lsum_scaled (fun x => (x - global_mean l) ^ 2) (d * d)).
    replace (lsum (map (fun x => (x - global_mean l) ^ 2) l) / (d * d) / INR (length l))
      with (global_mean (map (fun x => (x - global_mean l) ^ 2) l) / (d * d)).
    2:{ unfold global_mean. rewrite length_map. field. split; first [assumption | lra]. }
    rewrite sqrt_div_alt by nra. rewrite sqrt_square by lra. reflexivity.
  - split.
    + apply Rmult_le_pos; [exact Hs|]. left. now apply Rinv_0_lt_compat.
    + apply (Rmult_lt_reg_r d); [exact Hd|]. unfold Rdiv.
      rewrite Rmult_assoc, Rinv_l by lra. unfold d. lra.
Qed.

Section Standardised.

Context {ext : Externals}.

(** X14.  After a successful [_compute_spectrograms] the stored mel
    spectrogram has mean zero, and its standard deviation is
    [sigma / (sigma + 1e-7)] for the standard deviation [sigma] of the
    log-power: below one, and zero for a constant spectrogram. *)
Theorem spectrogram_is_standardised (st : State) (s : ndarray complex)
    (F T C' M : nat) :
  stft_transform (use_librosa_stft (this st))
                 (heap (world st) (audio_signal (this st))) = Ok s ->
  shape s = [F; T; C'] ->
  (num_channels (heap (world st) (audio_signal (this st))) <= C')%nat ->
  shape (mel_filter_bank (this st)) = [F; M] -> num_mels (this st) = M ->
  (0 < num_channels (heap (world st) (audio_signal (this st))) * (T * M))%nat ->
  let sigma := global_std (log_mel (amap Cabs s) (mel_filter_bank (this st))
                 (num_channels (heap (world st) (audio_signal (this st)))) T M) in
  exists st' mel,
    _compute_spectrograms st = (Ok tt, st') /\
    mel_spectrogram (this st') = Some mel /\
    np.mean mel = Ok 0 /\
    np.std mel = Ok (sigma / (sigma + eps)) /\
    0 <= sigma / (sigma + eps) < 1.
Proof.
  intros Hstft Hs HC Hbank Hnm Hpos sigma.
  eexists. eexists. split.
  - exact (compute_spectrograms_ok st s F T C' M Hstft Hs HC Hbank Hnm Hpos).
  - split; [reflexivity|]. apply standardised.
    intros E.
    pose proof (log_mel_length (amap Cabs s) (mel_filter_bank (this st))
                  (num_channels (heap (world st) (audio_signal (this st)))) T M) as Hl.
    rewrite E in Hl. simpl in Hl. lia.
Qed.

End Standardised.

Lemma spectrogram_is_standardised_witness :
  exists st' mel,
    _compute_spectrograms (ext := demo_externals) (demo_state SOFT_MASK)
    = (Ok tt, st') /\
    mel_spectrogram (this st') = Some mel /\
    np.mean mel = Ok 0 /\
    np.std mel
    = Ok (global_std (log_mel (amap Cabs demo_stft) identity2 1 1 2)
          / (global_std (log_mel (amap Cabs demo_stft) identity2 1 1 2) + eps)) /\
    0 <= global_std (log_mel (amap Cabs demo_stft) identity2 1 1 2)
         / (global_std (log_mel (amap Cabs demo_stft) identity2 1 1 2) + eps) < 1.
Proof.
  apply (spectrogram_is_standardised (ext := demo_externals) (demo_state SOFT_MASK)
           demo_stft 2 1 1 2); try reflexivity; simpl; lia.
Defined.

(** ** Lines 243-249: from channels to sources *)

Lemma mapM_agree {A B : Type} (f g : A -> result B) (l : list A) :
  (forall x, In x l -> f x = g x) -> mapM f l = mapM g l.
Proof.
  induction l as [|x l IH]; intros H; [reflexivity|].
  cbn [mapM]. rewrite (H x (or_introl eq_refl)), IH; [reflexivity|].
  intros y Hy. apply H. now right.
Qed.

(** Entry [s + ch * n] of the concatenation of lists of length [n]. *)
Lemma nth_error_concat {A : Type} (ms : nat -> list A) (n : nat) :
  forall C start ch s,
  (forall c, (c < C)%nat -> length (ms (start + c)%nat) = n) ->
  (ch < C)%nat -> (s < n)%nat ->
  nth_error (concat (map ms (seq start C))) (s + ch * n)
  = nth_error (ms (start + ch)%nat) s.
Proof.
  induction C as [|C IH]; intros start ch s Hlen Hch Hs; [lia|].
  cbn [seq map concat].
  assert (H0 : length (ms start) = n).
  { replace start with (start + 0)%nat by lia. apply Hlen. lia. }
  destruct ch as [|ch].
  - rewrite Nat.add_0_r. cbn [Nat.mul]. rewrite Nat.add_0_r.
    apply nth_error_app1. lia.
  - rewrite nth_error_app2 by (rewrite H0; cbn [Nat.mul]; lia).
    replace (s + S ch * n - length (ms start))%nat with (s + ch * n)%nat
      by (rewrite H0; cbn [Nat.mul]; lia).
    rewrite (IH (S start) ch s); [f_equal; f_equal; lia | | lia | exact Hs].
    intros c Hc. replace (S start + c)%nat with (start + S c)%nat by lia.
    apply Hlen. lia.
Qed.

(** Lines 247-249 on the concatenation of one list of masks per channel. *)
Lemma collate_by_source (self : DeepClustering) (sig : AudioSignal)
    (ms : nat -> list (ndarray (option R))) (d : ndarray (option R)) :
  (forall ch, (ch < num_channels sig)%nat -> length (ms ch) = num_sources self) ->
  collate self sig (concat (map ms (seq 0 (num_channels sig))))
  = mapM (fun s => dstack (map (fun ch => nth s (ms ch) d)
                               (seq 0 (num_channels sig))))
         (seq 0 (num_sources self)).
Proof.
  intros Hlen. unfold collate. apply mapM_agree. intros s Hs. apply in_seq in Hs.
  rewrite (mapM_ok _ (fun ch => nth s (ms ch) d)); [reflexivity|].
  intros ch Hch. apply in_seq in Hch. unfold list_index.
  rewrite (nth_error_concat ms (num_sources self) (num_channels sig) 0 ch s);
    [ | intros c Hc; now apply Hlen | lia | lia ].
  cbn [Nat.add]. rewrite (nth_error_nth' (ms ch) d) by (rewrite Hlen; lia).
  reflexivity.
Qed.

(** X15.  When [_extract_masks] gives one mask per source for every channel
    of the signal, lines 243-249 pair them as intended: the extraction loop
    returns their concatenation, channel after channel, and the array
    collated for source [s] is the stack, along a new last axis, of the
    [s]-th mask of channel 0, of channel 1, and so on. *)
Theorem collation_pairs_source_and_channel (st : State)
    (ms : nat -> list (ndarray (option R))) (d : ndarray (option R)) :
  let self := this st in
  let sig := heap (world st) (audio_signal (this st)) in
  (forall ch, (ch < num_channels sig)%nat ->
     _extract_masks self (heap (world st)) ch = Ok (ms ch) /\
     length (ms ch) = num_sources self) ->
  exists u,
    extract_all st = (Ok u, st) /\
    collate self sig u
    = mapM (fun s => dstack (map (fun ch => nth s (ms ch) d)
                                 (seq 0 (num_channels sig))))
           (seq 0 (num_sources self)).
Proof.
  intros self sig H.
  exists (concat (map ms (seq 0 (num_channels sig)))). split.
  - unfold extract_all. fold sig. fold self.
    rewrite (mapM_ok _ ms); [reflexivity|].
    intros ch Hch. apply in_seq in Hch. apply H. lia.
  - apply collate_by_source. intros ch Hch. now apply H.
Qed.

Lemma collation_pairs_source_and_channel_witness :
  exists u,
    extract_all (demo_state BINARY_MASK) = (Ok u, demo_state BINARY_MASK) /\
    collate demo_binary demo_signal u
    = mapM (fun s =>
              dstack (map (fun ch =>
                             nth s (match _extract_masks demo_binary demo_heap ch with
                                    | Ok l => l
                                    | _ => []
                                    end) undefined_mask)
                          (seq 0 (num_channels demo_signal))))
           (seq 0 (num_sources demo_binary)).
Proof.
  apply (collation_pairs_source_and_channel (demo_state BINARY_MASK)
           (fun ch => match _extract_masks demo_binary demo_heap ch with
                      | Ok l => l
                      | _ => []
                      end) undefined_mask).
  intros ch Hch.
  destruct (binary_loop demo_binary 1 1 2 2 ch demo_binary_shaped eq_refl Hch)
    as (outs & Hloop & Hlen & _).
  change (this (demo_state BINARY_MASK)) with demo_binary.
  change (heap (world (demo_state BINARY_MASK))) with demo_heap.
  rewrite (extract_binary demo_binary demo_heap ch outs eq_refl);
    [ | discriminate | exact Hloop ].
  split; [reflexivity|]. now rewrite length_map.
Defined.

(** ** Lines 57-113: what a construction leaves behind *)

Section Constructed.

Context {ext : Externals}.

(** X16.  A construction that fails after the base class constructor has
    returned.  Without a model path (none, or the empty string) it raises
    [NoModelError] at once and leaves the world as the base class left it.
    When the model file cannot be loaded, the exception surfaces after the
    signal bound to [self.audio_signal] has been resampled in place and
    before it is downmixed: that signal keeps the new rate and its channels,
    and no other signal is touched. *)
Theorem construction_failures (l sig : loc) (mt : string) (a : InitArgs)
    (w w0 : World) :
  separation_base_init l (arg_mask_type a) w = (Ok (sig, mt), w0) ->
  (truthy (arg_model_path a) = None ->
   exists msg, __init__ l a w = (Raise (NoModelError msg), w0)) /\
  (forall path e,
     truthy (arg_model_path a) = Some path ->
     load_network (arg_num_layers a) (arg_hidden_size a) (arg_embedding_size a) path
     = Raise e ->
     exists w',
       __init__ l a w = (Raise e, w') /\
       heap w' sig
       = (if Z.eqb (sample_rate (heap w0 sig)) (arg_resample_rate a)
          then fun s => s else resample (arg_resample_rate a)) (heap w0 sig) /\
       (forall l', l' <> sig -> heap w' l' = heap w0 l') /\
       trace w' = trace w0).
Proof.
  intros Hbase. split.
  - intros Hpath. unfold __init__, sbind. rewrite Hbase, Hpath.
    eexists. reflexivity.
  - intros path e Hpath Hload. unfold __init__, sbind.
    rewrite Hbase, Hpath. cbn [fst snd get].
    destruct (Z.eqb (sample_rate (heap w0 sig)) (arg_resample_rate a)) eqn:Hrate;
      cbn [negb ret in_place modify set_heap heap lift]; rewrite Hload;
      eexists; (split; [reflexivity|]); unfold set_heap; cbn [heap trace].
    + repeat split.
    + rewrite upd_same. split; [reflexivity|]. split; [|reflexivity].
      intros l' Hl'. now apply upd_other.
Qed.

(** X17.  A construction that succeeds returns a separator with no transform,
    no spectrogram, no silence mask and no embeddings (lines 96-98 and 108);
    its clusterer looks for as many clusters as there are sources and its
    inverse filter bank is the pseudo-inverse of its filter bank.  Clustering
    on it before any spectrogram has been computed raises [TypeError] and
    changes nothing. *)
Theorem fresh_separator (l : loc) (a : InitArgs) (w w' : World)
    (self : DeepClustering) :
  __init__ l a w = (Ok self, w') ->
  (stft self = None /\ mel_spectrogram self = None /\ silence_mask self = None /\
   embeddings self = None) /\
  n_clusters self = num_sources self /\
  num_sources self = arg_num_sources a /\
  inverse_mel_filter_bank self = pinv (mel_filter_bank self) /\
  truthy (arg_model_path a) = Some (model_path self) /\
  deep_clustering {| this := self; world := w' |}
  = (Raise (TypeError "NoneType"), {| this := self; world := w' |}).
Proof.
  unfold __init__, sbind.
  destruct (separation_base_init l (arg_mask_type a) w) as [[[sig mt]| |] w0];
    try discriminate.
  destruct (truthy (arg_model_path a)) as [path|]; [|discriminate].
  cbn [fst snd get].
  destruct (negb _); cbn [ret in_place modify lift];
    (destruct (load_network _ _ _ path) as [net| |]; try discriminate);
    (destruct (arg_do_mono a); cbn [ret in_place modify]);
    intros E; injection E as <- <-; repeat split.
Qed.

End Constructed.

Lemma construction_failures_witness :
  (exists msg,
     __init__ (ext := copying_externals) 0%nat default_args demo_world
     = (Raise (NoModelError msg),
        set_heap (upd demo_heap 1%nat demo_signal) demo_world)) /\
  (exists w',
     __init__ (ext := unloadable_externals) 0%nat demo_args demo_world
     = (Raise (ExternalError "No such file"), w') /\
     heap w' 0%nat = resample (Externals := unloadable_externals) 22050 demo_signal /\
     (forall l', l' <> 0%nat -> heap w' l' = heap demo_world l') /\
     trace w' = trace demo_world).
Proof.
  split.
  - apply (proj1 (construction_failures (ext := copying_externals) 0%nat 1%nat
                    SOFT_MASK default_args demo_world
                    (set_heap (upd demo_heap 1%nat demo_signal) demo_world) eq_refl)).
    reflexivity.
  - apply (proj2 (construction_failures (ext := unloadable_externals) 0%nat 0%nat
                    SOFT_MASK demo_args demo_world demo_world eq_refl)
                 "model.h5"%string (ExternalError "No such file"));
      reflexivity.
Defined.

Lemma demo_construction :
  exists self w',
    __init__ (ext := demo_externals) 0%nat demo_args demo_world = (Ok self, w').
Proof.
  unfold __init__, sbind, demo_args, small_args, truthy.
  cbn [separation_base_init demo_externals demo_externals_with ret fst snd get lift
       arg_model_path arg_do_mono arg_resample_rate load_network in_place modify
       demo_world heap demo_heap demo_signal sample_rate Z.eqb negb Pos.eqb].
  eexists. eexists. reflexivity.
Qed.

Lemma fresh_separator_witness :
  exists self w',
    __init__ (ext := demo_externals) 0%nat demo_args demo_world = (Ok self, w') /\
    n_clusters self = num_sources self /\
    embeddings self = None /\
    deep_clustering (ext := demo_externals) {| this := self; world := w' |}
    = (Raise (TypeError "NoneType"), {| this := self; world := w' |}).
Proof.
  destruct demo_construction as (self & w' & Hinit).
  exists self, w'. split; [exact Hinit|].
  destruct (fresh_separator (ext := demo_externals) 0%nat demo_args demo_world w' self
              Hinit) as ((_ & _ & _ & He) & Hn & _ & _ & _ & Hdc).
  split; [exact Hn|]. split; [exact He | exact Hdc].
Defined.

(** ** Sharpening a single source *)

Lemma seq_of_nth {A : Type} (l : list A) (d : A) (n : nat) :
  n = length l -> map (fun j => nth j l d) (seq 0 n) = l.
Proof.
  intros ->. apply (nth_ext _ _ d d).
  - now rewrite length_map, length_seq.
  - intros j Hj. rewrite length_map, length_seq in Hj.
    now rewrite nth_map_seq.
Qed.

Lemma flat_map_singleton {A : Type} (l : list A) :
  flat_map (fun x => [x]) l = l.
Proof. induction l as [|x l IH]; [reflexivity | cbn; now rewrite IH]. Qed.

Lemma length_rows_div_sum (l : list R) :
  Nat.even (length l) = true -> length (rows_div_sum l) = length l.
Proof.
  revert l. fix IH 1. intros [|x [|y rest]] H.
  - reflexivity.
  - discriminate.
  - cbn [rows_div_sum length]. cbn [length Nat.even] in H. now rewrite (IH rest H).
Qed.

Lemma nth_rows_div_sum (i : nat) :
  forall l, (2 * i + 1 < length l)%nat ->
  nth (2 * i) (rows_div_sum l) None
  = fdiv (nth (2 * i) l 0) (lsum [nth (2 * i) l 0; nth (2 * i + 1) l 0]) /\
  nth (2 * i + 1) (rows_div_sum l) None
  = fdiv (nth (2 * i + 1) l 0) (lsum [nth (2 * i) l 0; nth (2 * i + 1) l 0]).
Proof.
  induction i as [|i IH]; intros [|x [|y rest]] H; cbn [length] in H; try lia.
  - split; reflexivity.
  - replace (2 * S i)%nat with (S (S (2 * i))) by lia.
    cbn [rows_div_sum Nat.add nth]. apply IH. lia.
Qed.

(** X18.  With a single source and an even number of bins the sharpening
    does not leave the mask alone: the stacked values are still taken two by
    two (line 201), so each value is cubed and divided by the sum of its
    cube and the cube of its neighbour in the flattened mask. *)
Theorem single_source_sharpening (self : DeepClustering) (p : ndarray R)
    (F T : nat) :
  num_sources self = 1%nat -> shape p = [F; T] -> wf p ->
  Nat.even (F * T) = true ->
  exists m,
    sharpen self [p] = Ok [m] /\ shape m = [F; T] /\
    forall i, (2 * i + 1 < F * T)%nat ->
      nth (2 * i) (data m) None
      = fdiv (nth (2 * i) (data p) 0 ^ 3)
             (lsum [nth (2 * i) (data p) 0 ^ 3; nth (2 * i + 1) (data p) 0 ^ 3]) /\
      nth (2 * i + 1) (data m) None
      = fdiv (nth (2 * i + 1) (data p) 0 ^ 3)
             (lsum [nth (2 * i) (data p) 0 ^ 3; nth (2 * i + 1) (data p) 0 ^ 3]).
Proof.
  intros Hn Hp Hwf Heven.
  assert (Hlen : length (data p) = (F * T)%nat).
  { unfold wf in Hwf. rewrite Hwf, Hp. cbn [size fold_right]. lia. }
  set (cubes := map (fun x => x ^ 3) (data p)).
  assert (Hc : length cubes = (F * T)%nat) by (unfold cubes; now rewrite length_map).
  assert (Hr : length (rows_div_sum cubes) = (F * T)%nat).
  { rewrite length_rows_div_sum; [exact Hc | now rewrite Hc]. }
  exists (array [F; T] (rows_div_sum cubes)). split; [|split; [reflexivity|]].
  - unfold sharpen, stack_last. cbn [forallb bind length map].
    rewrite Hp. cbn [size fold_right app]. rewrite Nat.mul_1_r.
    rewrite flat_map_concat_map, <- (map_map (fun j => nth j (data p) 0) (fun x => [x])).
    rewrite (seq_of_nth (data p) 0 (F * T)) by now rewrite Hlen.
    rewrite <- flat_map_concat_map.
    rewrite flat_map_singleton.
    unfold reshape_pairs. cbn [data]. rewrite Hlen, Heven. cbn [bind amap shape data].
    fold cubes. unfold reshape. cbn [data size fold_right]. rewrite Hr.
    replace (F * (T * (1 * 1)))%nat with (F * T)%nat by lia.
    rewrite Nat.eqb_refl. cbn [bind]. rewrite Hn. cbn [seq mapM].
    unfold index_last. cbn [shape data Nat.ltb Nat.leb bind].
    do 3 f_equal.
    rewrite (map_ext _ (fun j => nth j (rows_div_sum cubes) None))
      by (intros j; f_equal; lia).
    apply seq_of_nth. now rewrite Hr.
  - intros i Hi. cbn [data].
    destruct (nth_rows_div_sum i cubes) as [H1 H2]; [now rewrite Hc|].
    rewrite H1, H2. unfold cubes.
    rewrite !(nth_map_in (fun x => x ^ 3) (data p) 0) by (rewrite Hlen; lia).
    split; reflexivity.
Qed.

Lemma single_source_sharpening_witness :
  exists m,
    sharpen demo_single [array [2; 1]%nat [1; 1]] = Ok [m] /\ shape m = [2; 1]%nat /\
    forall i, (2 * i + 1 < 2 * 1)%nat ->
      nth (2 * i) (data m) None
      = fdiv (nth (2 * i) [1; 1] 0 ^ 3)
             (lsum [nth (2 * i) [1; 1] 0 ^ 3; nth (2 * i + 1) [1; 1] 0 ^ 3]) /\
      nth (2 * i + 1) (data m) None
      = fdiv (nth (2 * i + 1) [1; 1] 0 ^ 3)
             (lsum [nth (2 * i) [1; 1] 0 ^ 3; nth (2 * i + 1) [1; 1] 0 ^ 3]).
Proof.
  apply (single_source_sharpening demo_single (array [2; 1]%nat [1; 1]) 2 1);
    reflexivity.
Defined.

(** ** The shapes the stages hand to each other *)

Section Shapes.

Context {ext : Externals}.

(** A successful [_compute_spectrograms] stores a spectrogram and a silence
    mask of one shape. *)
Lemma spectrograms_shapes (st : State) :
  fst (_compute_spectrograms st) = Ok tt ->
  exists mel sil,
    mel_spectrogram (this (snd (_compute_spectrograms st))) = Some mel /\
    silence_mask (this (snd (_compute_spectrograms st))) = Some sil /\
    shape sil = shape mel /\ length (data sil) = length (data mel).
Proof.
  destruct st as [self w].
  unfold _compute_spectrograms, sbind, self_, signal_, lift, on_world, assign,
    modify, ret.
  cbn [this world].
  destruct (stft_transform (use_librosa_stft self) (heap w (audio_signal self)))
    as [s| |]; cbn [fst snd this world]; try discriminate.
  destruct (shape s) as [|d0 [|frames rest]]; cbn [fst snd this world];
    try discriminate.
  destruct (mapM _ _) as [slices| |]; cbn [fst snd this world]; try discriminate.
  destruct (np.mean _) as [mu| |]; cbn [fst snd this world]; try discriminate.
  destruct (np.std _) as [sd| |]; cbn [fst snd this world]; try discriminate.
  unfold div_scalar. destruct (Req_dec_T (sd + eps) 0) as [_|_];
    cbn [fst snd this world]; try discriminate.
  intros _. eexists. eexists. split; [reflexivity|]. split; [reflexivity|].
  unfold amap. cbn [shape data]. split; [reflexivity|].
  now rewrite !length_map.
Qed.

(** A successful [deep_clustering] stores assignments of the shape of the
    spectrogram it was given, and as many of them as the shape holds. *)
Lemma clustering_shapes (st : State) :
  fst (deep_clustering st) = Ok tt ->
  exists m asg,
    mel_spectrogram (this st) = Some m /\
    assignments (this (snd (deep_clustering st))) = Some asg /\
    shape asg = shape m /\ length (data asg) = size (shape m).
Proof.
  destruct st as [self w].
  unfold deep_clustering, sbind, self_, lift, on_world, assign, modify, ret.
  cbn [this world].
  destruct (mel_spectrogram self) as [m|] eqn:Hm;
    cbn [not_none fst snd this world]; try discriminate.
  destruct (embeddings self) as [e|] eqn:He; cbn [this world not_none];
    rewrite ?He; cbn [this world not_none].
  2:{ destruct (model self m) as [out| |]; cbn [fst snd this world];
        try discriminate.
      destruct (view_rows out) as [e| |]; cbn [fst snd this world];
        try discriminate.
      cbn [set_embeddings rebind embeddings n_clusters mel_spectrogram not_none].
      destruct (kmeans_fit (n_clusters self) e) as [[labels centers]| |];
        cbn [fst snd this world]; try discriminate.
      rewrite Hm. cbn [attribute].
      unfold reshape.
      destruct (Nat.eqb_spec (size (shape m))
                  (length (data (amap (fun z => (z + 1)%Z) labels)))) as [E|_];
        cbn [fst snd this world]; try discriminate.
      intros _. exists m. eexists. split; [reflexivity|].
      split; [reflexivity|]. split; [reflexivity|]. cbn [data]. now rewrite <- E. }
  destruct (kmeans_fit (n_clusters self) e) as [[labels centers]| |];
    cbn [fst snd this world]; try discriminate.
  rewrite Hm. cbn [attribute].
  unfold reshape.
  destruct (Nat.eqb_spec (size (shape m))
              (length (data (amap (fun z => (z + 1)%Z) labels)))) as [E|_];
    cbn [fst snd this world]; try discriminate.
  intros _. exists m. eexists. split; [reflexivity|].
  split; [reflexivity|]. split; [reflexivity|]. cbn [data]. now rewrite <- E.
Qed.

(** X19.  When [_compute_spectrograms] and then [deep_clustering] both
    succeed, as in the first two lines of [run], the separator holds a mel
    spectrogram, a silence mask and cluster assignments of one and the same
    shape, with one silence flag and one assignment per spectrogram value:
    the elementwise product of line 185 is well defined. *)
Theorem stages_agree_on_shape (st : State) :
  fst (_compute_spectrograms st) = Ok tt ->
  fst (deep_clustering (snd (_compute_spectrograms st))) = Ok tt ->
  exists mel sil asg,
    mel_spectrogram (this (snd (deep_clustering (snd (_compute_spectrograms st)))))
    = Some mel /\
    silence_mask (this (snd (deep_clustering (snd (_compute_spectrograms st)))))
    = Some sil /\
    assignments (this (snd (deep_clustering (snd (_compute_spectrograms st)))))
    = Some asg /\
    shape sil = shape mel /\ shape asg = shape mel /\
    length (data sil) = length (data mel) /\
    length (data asg) = size (shape mel).
Proof.
  intros H1 H2.
  destruct (spectrograms_shapes st H1) as (mel & sil & Hmel & Hsil & Hss & Hls).
  set (st1 := snd (_compute_spectrograms st)) in *. clearbody st1.
  destruct (clustering_shapes st1 H2) as (m & asg & Hm & Hasg & Hsa & Hla).
  rewrite Hmel in Hm. injection Hm as <-.
  destruct (clustering_frame st1) as ((e & a & c & Hthis) & _).
  exists mel, sil, asg.
  split; [rewrite Hthis; exact Hmel|]. split; [rewrite Hthis; exact Hsil|].
  split; [exact Hasg|]. repeat split; assumption.
Qed.

End Shapes.

Lemma stages_agree_on_shape_witness :
  exists mel sil asg,
    mel_spectrogram
      (this (snd (deep_clustering (ext := demo_externals)
                    (snd (_compute_spectrograms (ext := demo_externals)
                            (demo_state SOFT_MASK))))))
    = Some mel /\
    silence_mask
      (this (snd (deep_clustering (ext := demo_externals)
                    (snd (_compute_spectrograms (ext := demo_externals)
                            (demo_state SOFT_MASK))))))
    = Some sil /\
    assignments
      (this (snd (deep_clustering (ext := demo_externals)
                    (snd (_compute_spectrograms (ext := demo_externals)
                            (demo_state SOFT_MASK))))))
    = Some asg /\
    shape sil = shape mel /\ shape asg = shape mel /\
    length (data sil) = length (data mel) /\
    length (data asg) = size (shape mel).
Proof.
  assert (H1 : _compute_spectrograms (ext := demo_externals) (demo_state SOFT_MASK)
               = (Ok tt, snd (_compute_spectrograms (ext := demo_externals)
                                (demo_state SOFT_MASK)))).
  { rewrite (compute_spectrograms_ok (ext := demo_externals) (demo_state SOFT_MASK)
               demo_stft 2 1 1 2); try reflexivity; simpl; lia. }
  apply (stages_agree_on_shape (ext := demo_externals) (demo_state SOFT_MASK)).
  - now rewrite H1.
  - rewrite (compute_spectrograms_ok (ext := demo_externals) (demo_state SOFT_MASK)
               demo_stft 2 1 1 2); try reflexivity; simpl; lia.
Defined.

(** ** The range of the soft mel-domain masks *)

(** X20.  On well-shaped arrays every value of a soft mel-domain mask lies in
    [0, 1], whatever [max_distance] is; and with a negative [max_distance]
    every normalised distance is above it, line 190 sets them all to 1 and
    the mask is zero everywhere. *)
Theorem soft_mel_mask_bounds (self : DeepClustering) (C T M F K ch s : nat) :
  well_shaped self C T M F K -> (ch < C)%nat ->
  In s (seq 1 (num_sources self)) ->
  exists mm,
    soft_mel_mask self ch s = Ok mm /\
    (forall x, In x (data mm) -> 0 <= x <= 1) /\
    (max_distance self < 0 -> forall x, In x (data mm) -> x = 0).
Proof.
  intros (e & c & mel & sil & He & Hse & Hc & Hsc & Hmel & Hsm & Hsil & Hss
          & Hws & _ & HTM & _) Hch Hs.
  apply in_seq in Hs.
  destruct (normalized_distances_ok self e c (num_sources self)
              (C * (T * M)) K s Hc Hsc He Hse)
    as (dist & mn & mx & _ & Hlen & _ & _ & Hnd); [lia | nia |].
  pose proof (normalized_distances_range self s _ Hnd) as Hrange.
  rewrite (soft_mel_mask_from self _ mel sil C T M ch s Hnd); try assumption;
    [| simpl; now rewrite length_map].
  eexists. split; [reflexivity|].
  assert (Hval : forall x,
    In x (data (array [T; M]
      (map (fun p : bool * R => b2r (fst p) * snd p)
         (combine (firstn (T * M) (skipn (ch * (T * M)) (data sil)))
            (firstn (T * M) (skipn (ch * (T * M))
               (map (fun x => 1 - x)
                  (map (fun x => if Rlt_dec (max_distance self) x then 1 else x)
                     (data (array [(C * (T * M))%nat]
                        (map (fun x => (x + mn) / (mx + eps)) dist)))))))))))
    -> exists (b : bool) (d : R),
         0 <= d < 1 /\
         x = b2r b * (1 - (if Rlt_dec (max_distance self) d then 1 else d))).
  { intros x Hx. cbn [data] in Hx. apply in_map_iff in Hx.
    destruct Hx as ([b y] & <- & Hin). cbn [fst snd].
    apply in_combine_r in Hin. apply in_firstn, in_skipn in Hin.
    apply in_map_iff in Hin. destruct Hin as (z & <- & Hz).
    apply in_map_iff in Hz. destruct Hz as (d & <- & Hd).
    exists b, d. split; [now apply Hrange | reflexivity]. }
  split.
  - intros x Hx. destruct (Hval x Hx) as (b & d & Hd & ->).
    destruct (Rlt_dec (max_distance self) d); destruct b; unfold b2r; lra.
  - intros Hneg x Hx. destruct (Hval x Hx) as (b & d & Hd & ->).
    destruct (Rlt_dec (max_distance self) d); [ring | lra].
Qed.

Lemma soft_mel_mask_bounds_witness :
  exists mm,
    soft_mel_mask demo_soft 0 1 = Ok mm /\
    (forall x, In x (data mm) -> 0 <= x <= 1) /\
    (max_distance demo_soft < 0 -> forall x, In x (data mm) -> x = 0).
Proof.
  apply (soft_mel_mask_bounds demo_soft 1 1 2 2 1 0 1).
  - apply demo_well_shaped. reflexivity.
  - lia.
  - simpl. tauto.
Defined.

(** ** A channel that is not there *)

Lemma channel_out_of_bounds {A : Type} (a : ndarray A) (C T M ch : nat) :
  shape a = [C; T; M] -> (C <= ch)%nat ->
  channel a ch = Raise (IndexError "index out of bounds").
Proof.
  intros Hs Hc. unfold channel, index0. rewrite Hs. cbn [length Nat.leb].
  apply Nat.ltb_ge in Hc. now rewrite Hc.
Qed.

(** X21.  Asked for a channel beyond those of the silence mask, on a signal
    with a transform, [generate_mask] raises [IndexError], and so does
    [_extract_masks] under the binary policy as soon as there is a source to
    extract: line 185 and line 220 index the silence mask before anything
    else. *)
Theorem channel_out_of_range (self : DeepClustering) (h : store)
    (sil : ndarray bool) (assignments : ndarray R) (C T M ch : nat) :
  stft_data (h (audio_signal self)) <> None ->
  silence_mask self = Some sil -> shape sil = [C; T; M] -> (C <= ch)%nat ->
  generate_mask self h ch assignments = Raise (IndexError "index out of bounds") /\
  (mask_type self = BINARY_MASK -> (1 <= num_sources self)%nat ->
   _extract_masks self h ch = Raise (IndexError "index out of bounds")).
Proof.
  intros Hstft Hsil Hss Hch. split.
  - unfold generate_mask.
    destruct (stft_data (h (audio_signal self))); [|congruence].
    rewrite Hsil. cbn [not_none bind].
    now rewrite (channel_out_of_bounds sil C T M ch Hss Hch).
  - intros Hmt Hn. unfold _extract_masks, mask_loop.
    destruct (stft_data (h (audio_signal self))); [|congruence].
    destruct (num_sources self) as [|k]; [lia|].
    cbn [seq foldM]. unfold mask_loop_body at 1.
    rewrite Hmt, String.eqb_refl. unfold binary_mel_mask.
    rewrite Hsil. cbn [not_none bind].
    now rewrite (channel_out_of_bounds sil C T M ch Hss Hch).
Qed.

Lemma channel_out_of_range_witness :
  generate_mask demo_binary demo_heap 1 (array [1; 2]%nat [1; 0])
  = Raise (IndexError "index out of bounds") /\
  (mask_type demo_binary = BINARY_MASK -> (1 <= num_sources demo_binary)%nat ->
   _extract_masks demo_binary demo_heap 1 = Raise (IndexError "index out of bounds")).
Proof.
  apply (channel_out_of_range demo_binary demo_heap
           (array [1; 1; 2]%nat [true; true]) (array [1; 2]%nat [1; 0]) 1 1 2 1);
    try reflexivity; try lia.
  discriminate.
Defined.

(** ** A whole run under the binary policy *)

Lemma mapM_forall {A B : Type} (f : A -> result B) (P : B -> Prop) (l : list A) :
  (forall x, In x l -> exists y, f x = Ok y /\ P y) ->
  exists ys, mapM f l = Ok ys /\ length ys = length l /\ Forall P ys.
Proof.
  induction l as [|x l IH]; intros H.
  - exists []. repeat split. constructor.
  - destruct (H x (or_introl eq_refl)) as (y & Hy & HP).
    destruct IH as (ys & Hys & Hlen & Hall); [intros z Hz; apply H; now right|].
    exists (y :: ys). cbn [mapM]. rewrite Hy, Hys. cbn [bind length].
    split; [reflexivity|]. split; [now rewrite Hlen | now constructor].
Qed.

(** The stack of masks of one shape whose entries are all defined. *)
Lemma dstack_unit (shp : list nat) (l : list (ndarray (option R))) :
  l <> [] ->
  Forall (fun m => shape m = shp /\ wf m /\ unit_valued m) l ->
  exists a, dstack l = Ok a /\ shape a = shp ++ [length l] /\ unit_valued a.
Proof.
  intros Hne Hall. destruct l as [|a rest]; [congruence|].
  assert (Ha : shape a = shp).
  { rewrite Forall_forall in Hall. apply (Hall a). now left. }
  unfold dstack, stack_last. rewrite Ha.
  rewrite (same_shapes shp rest).
  2:{ rewrite Forall_forall in Hall |- *. intros m Hm. apply (Hall m). now right. }
  eexists. split; [reflexivity|]. split; [reflexivity|].
  intros v Hv. cbn [data] in Hv. apply in_flat_map in Hv.
  destruct Hv as (j & Hj & Hv). apply in_seq in Hj.
  apply in_map_iff in Hv. destruct Hv as (b & <- & Hb).
  rewrite Forall_forall in Hall. destruct (Hall b Hb) as (Hs & Hwf & Hunit).
  apply Hunit, nth_In. unfold wf in Hwf. rewrite Hwf, Hs. lia.
Qed.

Section BinaryRun.

Context {ext : Externals}.

(** Lines 251-263 under the binary policy: each collated mask is rounded and
    wrapped. *)
Lemma for_each_binary (l : list (ndarray (option R))) :
  forall (st : State) (acc : list mask_object),
  mask_type (this st) = BINARY_MASK -> masks (this st) = Some acc ->
  for_each l (fun mask =>
     self <~ self_ ;;
     mask_object <~ lift (make_mask_object self mask) ;;
     assign (append_mask mask_object)) st
  = (Ok tt,
     {| this := set_masks
                  (Some (acc ++ map (fun m => BinaryMask (amap (option_map np.round) m)) l))
                  (this st);
        world := world st |}).
Proof.
  induction l as [|mask l IH]; intros st acc Hmt Hacc.
  - cbn [for_each ret map]. rewrite app_nil_r, <- Hacc.
    destruct st as [self w]. cbn [this world]. now destruct self.
  - cbn [for_each]. unfold sbind at 1. unfold sbind at 1. cbn [self_].
    unfold sbind at 1. unfold lift at 1. unfold make_mask_object at 1.
    rewrite Hmt, String.eqb_refl. cbn [assign modify].
    rewrite (IH _ (acc ++ [BinaryMask (amap (option_map np.round) mask)])).
    + cbn [this world map]. now rewrite <- app_assoc.
    + exact Hmt.
    + cbn [this]. unfold append_mask. now rewrite Hacc.
Qed.

Lemma assemble_binary (l : list (ndarray (option R))) (st : State) :
  mask_type (this st) = BINARY_MASK ->
  fst (assemble l st)
  = Ok (map (fun m => BinaryMask (amap (option_map np.round) m)) l).
Proof.
  intros Hmt. unfold assemble. unfold sbind at 1. cbn [assign modify].
  unfold sbind at 1.
  rewrite (for_each_binary l {| this := set_masks (Some []) (this st);
                                world := world st |} [] Hmt eq_refl).
  reflexivity.
Qed.

(** The masks [_extract_masks] gives for one channel under the binary
    policy. *)
Lemma binary_channel (self : DeepClustering) (h : store) (C T M F ch : nat) :
  binary_shaped self C T M F -> mask_type self = BINARY_MASK ->
  stft_data (h (audio_signal self)) <> None -> (ch < C)%nat ->
  exists ms,
    _extract_masks self h ch = Ok ms /\ length ms = num_sources self /\
    Forall (fun m => shape m = [F; T] /\ wf m /\ unit_valued m) ms.
Proof.
  intros Hw Hmt Hstft Hch.
  destruct (binary_loop self C T M F ch Hw Hmt Hch) as (outs & Hloop & Hlen & HP).
  exists (map (amap Some) outs).
  split; [now apply extract_binary|]. split; [now rewrite length_map|].
  apply Forall_map. eapply Forall_impl; [|exact HP].
  intros m (Hs & Hl & Hr). split; [exact Hs|]. split.
  - unfold wf. cbn [amap data shape]. rewrite length_map, Hl, Hs.
    cbn [size fold_right]. lia.
  - intros v Hv. cbn [amap data] in Hv. apply in_map_iff in Hv.
    destruct Hv as (x & <- & Hx). exists x. split; [reflexivity | now apply Hr].
Qed.

(** From the extraction to the mask objects, on a state whose arrays have
    the shapes of the binary policy. *)
Lemma binary_masks_of_state (st : State) (C T M F : nat) :
  binary_shaped (this st) C T M F -> mask_type (this st) = BINARY_MASK ->
  stft_data (heap (world st) (audio_signal (this st))) <> None ->
  num_channels (heap (world st) (audio_signal (this st))) = C -> (1 <= C)%nat ->
  exists ms,
    fst ((uncollated_masks <~ extract_all ;;
          self <~ self_ ;;
          sig <~ signal_ ;;
          collated_masks <~ lift (collate self sig uncollated_masks) ;;
          assemble collated_masks) st) = Ok ms /\
    length ms = num_sources (this st) /\
    Forall (fun o => exists b, o = BinaryMask b /\ shape b = [F; T; C] /\ zero_one b) ms.
Proof.
  intros Hw Hmt Hstft HC Hpos.
  set (ms := fun ch => match _extract_masks (this st) (heap (world st)) ch with
                       | Ok l => l
                       | _ => []
                       end).
  assert (Hms : forall ch, (ch < C)%nat ->
            _extract_masks (this st) (heap (world st)) ch = Ok (ms ch) /\
            length (ms ch) = num_sources (this st) /\
            Forall (fun m => shape m = [F; T] /\ wf m /\ unit_valued m) (ms ch)).
  { intros ch Hch.
    destruct (binary_channel (this st) (heap (world st)) C T M F ch Hw Hmt Hstft Hch)
      as (l & Hl & Hlen & Hall).
    unfold ms. rewrite Hl. now repeat split. }
  clearbody ms.
  set (d := array [F; T] (@nil (option R))).
  destruct (mapM_forall
              (fun s => dstack (map (fun ch => nth s (ms ch) d) (seq 0 C)))
              (fun a => shape a = [F; T; C] /\ unit_valued a)
              (seq 0 (num_sources (this st))))
    as (cs & Hcs & Hlen & Hall).
  { intros s Hs. apply in_seq in Hs.
    destruct (dstack_unit [F; T] (map (fun ch => nth s (ms ch) d) (seq 0 C)))
      as (a & Ha & Hsa & Hua).
    - destruct C as [|C']; [lia | discriminate].
    - apply Forall_map, Forall_forall. intros ch Hch. apply in_seq in Hch.
      destruct (Hms ch) as (_ & Hl & Hall); [lia|].
      rewrite Forall_forall in Hall. apply Hall, nth_In. lia.
    - exists a. split; [exact Ha|]. split; [|exact Hua].
      rewrite Hsa, length_map, length_seq. reflexivity. }
  exists (map (fun m => BinaryMask (amap (option_map np.round) m)) cs).
  split; [|split].
  - unfold sbind at 1. unfold extract_all. rewrite HC.
    rewrite (mapM_ok _ ms) by (intros ch Hch; apply in_seq in Hch; apply Hms; lia).
    cbn [bind]. unfold sbind at 1. cbn [self_]. unfold sbind at 1. cbn [signal_].
    unfold sbind at 1. unfold lift at 1.
    pose proof (collate_by_source (this st)
                  (heap (world st) (audio_signal (this st))) ms d) as Hcol.
    rewrite HC in Hcol. rewrite Hcol, Hcs by (intros ch Hch; now apply Hms).
    now apply assemble_binary.
  - now rewrite length_map, Hlen, length_seq.
  - apply Forall_map. eapply Forall_impl; [|exact Hall].
    intros m [Hs Hu]. eexists. split; [reflexivity|]. split; [exact Hs|].
    intros v Hv. cbn [amap data] in Hv. apply in_map_iff in Hv.
    destruct Hv as (u & <- & Hu'). destruct (Hu u Hu') as (x & -> & Hx).
    cbn [option_map]. rewrite (round_unit x Hx).
    destruct (Rlt_dec (1 / 2) x); [now right | now left].
Qed.

(** X22.  A run under the binary policy that gets through the transform
    and the clustering returns: it gives one [BinaryMask] per source, of
    shape frequency x time x channel, whose entries are all 0 or 1.  Nothing
    is left undefined, unlike under the soft policy. *)
Theorem binary_run_returns_masks (st : State) (s : ndarray complex)
    (F T C' M Fq : nat) :
  let C := num_channels (heap (world st) (audio_signal (this st))) in
  stft_transform (use_librosa_stft (this st))
                 (heap (world st) (audio_signal (this st))) = Ok s ->
  shape s = [F; T; C'] -> (1 <= C <= C')%nat ->
  shape (mel_filter_bank (this st)) = [F; M] -> num_mels (this st) = M ->
  (0 < T * M)%nat ->
  fst (deep_clustering (snd (_compute_spectrograms st))) = Ok tt ->
  mask_type (this st) = BINARY_MASK ->
  shape (inverse_mel_filter_bank (this st)) = [M; Fq] -> (0 < Fq)%nat ->
  exists ms,
    fst (run st) = Ok ms /\ length ms = num_sources (this st) /\
    Forall (fun o => exists b, o = BinaryMask b /\ shape b = [Fq; T; C] /\ zero_one b)
           ms.
Proof.
  intros C Hstft Hs HC Hbank Hnm Hpos Hclu Hmt Hinv HFq.
  pose proof (compute_spectrograms_ok st s F T C' M Hstft Hs (proj2 HC) Hbank Hnm)
    as H1.
  cbv zeta in H1. fold C in H1. specialize (H1 ltac:(nia)).
  unfold run. unfold sbind at 1. rewrite H1 in Hclu |- *. cbn [snd] in Hclu.
  set (st1 := Build_State _ _) in *.
  assert (Hsil1 : exists sil, silence_mask (this st1) = Some sil /\ shape sil = [C; T; M])
    by (eexists; split; reflexivity).
  assert (Hmel1 : exists mel, mel_spectrogram (this st1) = Some mel /\
                              shape mel = [C; T; M])
    by (eexists; split; reflexivity).
  assert (Hmt1 : mask_type (this st1) = BINARY_MASK) by exact Hmt.
  assert (Hinv1 : shape (inverse_mel_filter_bank (this st1)) = [M; Fq]) by exact Hinv.
  assert (Hn1 : num_sources (this st1) = num_sources (this st)) by reflexivity.
  assert (Hsig1 : heap (world st1) (audio_signal (this st1))
                  = set_stft_data (Some s) (heap (world st) (audio_signal (this st)))).
  { unfold st1. cbn [this world]. unfold set_heap. cbn [heap].
    change (audio_signal (set_mel_spectrogram _ _)) with (audio_signal (this st)).
    apply upd_same. }
  clearbody st1. clear H1.
  destruct (clustering_frame st1) as ((e & asg & c & Hthis) & Hheap & _).
  destruct (clustering_shapes st1 Hclu) as (m & asg' & Hm & Hasg & Hsa & _).
  unfold sbind at 1.
  destruct (deep_clustering st1) as [r st2]. cbn [fst snd] in *. subst r.
  destruct Hsil1 as (sil & Hsil & Hss). destruct Hmel1 as (mel & Hmel & Hsm).
  rewrite Hmel in Hm. injection Hm as <-.
  assert (Hsig2 : audio_signal (this st2) = audio_signal (this st1))
    by now rewrite Hthis.
  destruct (binary_masks_of_state st2 C T M Fq) as (ms & Hrun & Hlen & Hall).
  - exists sil, asg'. rewrite Hthis at 1. cbn [rebind silence_mask].
    split; [exact Hsil|]. split; [exact Hss|]. split; [exact Hasg|].
    split; [now rewrite Hsa|]. split; [rewrite Hthis; exact Hinv1|].
    split; [nia | exact HFq].
  - rewrite Hthis. exact Hmt1.
  - rewrite Hheap, Hsig2, Hsig1. discriminate.
  - rewrite Hheap, Hsig2, Hsig1. reflexivity.
  - lia.
  - exists ms. split; [exact Hrun|]. split; [|exact Hall].
    rewrite Hlen, Hthis. exact Hn1.
Qed.

End BinaryRun.

Lemma binary_run_returns_masks_witness :
  exists ms,
    fst (run (ext := demo_externals) (demo_state BINARY_MASK)) = Ok ms /\
    length ms = 2%nat /\
    Forall (fun o => exists b, o = BinaryMask b /\ shape b = [2; 1; 1]%nat /\ zero_one b)
           ms.
Proof.
  apply (binary_run_returns_masks (ext := demo_externals) (demo_state BINARY_MASK)
           demo_stft 2 1 1 2 2); try reflexivity; try (simpl; lia).
  rewrite (compute_spectrograms_ok (ext := demo_externals) (demo_state BINARY_MASK)
             demo_stft 2 1 1 2); try reflexivity; simpl; lia.
Defined.

(** ** Lines 163-167: what a successful clustering stores *)

Section Clustered.

Context {ext : Externals}.

(** X23.  When [deep_clustering] succeeds, the clusterer has been fitted on
    the embeddings the separator now holds, the centroids are its cluster
    centres, and the assignments are its labels plus one, in the shape of the
    mel spectrogram.  With labels in [0, k) every assignment lies in [1, k]:
    the range of [cluster_index] at line 183, and never 0, the value a silent
    bin is given at line 185. *)
Theorem clustering_assigns_labels_plus_one (st : State) :
  fst (deep_clustering st) = Ok tt ->
  exists m e labels centers,
    mel_spectrogram (this st) = Some m /\
    embeddings (this (snd (deep_clustering st))) = Some e /\
    kmeans_fit (n_clusters (this st)) e = Ok (labels, centers) /\
    assignments (this (snd (deep_clustering st)))
    = Some (array (shape m) (map (fun z => (z + 1)%Z) (data labels))) /\
    centroids (this (snd (deep_clustering st))) = Some centers /\
    forall k, (forall z, In z (data labels) -> (0 <= z < k)%Z) ->
              forall a, In a (map (fun z => (z + 1)%Z) (data labels)) -> (1 <= a <= k)%Z.
Proof.
  assert (Hrange : forall (labels : ndarray Z) k,
            (forall z, In z (data labels) -> (0 <= z < k)%Z) ->
            forall a, In a (map (fun z => (z + 1)%Z) (data labels)) -> (1 <= a <= k)%Z).
  { intros labels k H a Ha. apply in_map_iff in Ha. destruct Ha as (z & <- & Hz).
    specialize (H z Hz). lia. }
  destruct st as [self w].
  unfold deep_clustering, sbind, self_, lift, on_world, assign, modify, ret.
  cbn [this world].
  destruct (mel_spectrogram self) as [m|] eqn:Hm;
    cbn [not_none fst snd this world]; try discriminate.
  destruct (embeddings self) as [e|] eqn:He; cbn [this world not_none];
    rewrite ?He; cbn [this world not_none].
  2:{ destruct (model self m) as [out| |]; cbn [fst snd this world];
        try discriminate.
      destruct (view_rows out) as [e| |]; cbn [fst snd this world];
        try discriminate.
      cbn [set_embeddings rebind embeddings n_clusters mel_spectrogram not_none].
      destruct (kmeans_fit (n_clusters self) e) as [[labels centers]| |] eqn:Hfit;
        cbn [fst snd this world]; try discriminate.
      rewrite Hm. cbn [attribute].
      unfold reshape.
      destruct (Nat.eqb (size (shape m))
                  (length (data (amap (fun z => (z + 1)%Z) labels))));
        cbn [fst snd this world]; try discriminate.
      intros _. exists m, e, labels, centers.
      split; [reflexivity|]. split; [reflexivity|]. split; [exact Hfit|].
      split; [reflexivity|]. split; [reflexivity | apply Hrange]. }
  destruct (kmeans_fit (n_clusters self) e) as [[labels centers]| |] eqn:Hfit;
    cbn [fst snd this world]; try discriminate.
  rewrite Hm. cbn [attribute].
  unfold reshape.
  destruct (Nat.eqb (size (shape m))
              (length (data (amap (fun z => (z + 1)%Z) labels))));
    cbn [fst snd this world]; try discriminate.
  intros _. exists m, e, labels, centers.
  split; [reflexivity|]. split; [exact He|]. split; [exact Hfit|].
  split; [reflexivity|]. split; [reflexivity | apply Hrange].
Qed.

End Clustered.

Lemma clustering_assigns_labels_plus_one_witness :
  exists m e labels centers,
    mel_spectrogram (this (demo_state SOFT_MASK)) = Some m /\
    embeddings (this (snd (deep_clustering (ext := demo_externals)
                             (demo_state SOFT_MASK)))) = Some e /\
    kmeans_fit (Externals := demo_externals)
      (n_clusters (this (demo_state SOFT_MASK))) e = Ok (labels, centers) /\
    assignments (this (snd (deep_clustering (ext := demo_externals)
                              (demo_state SOFT_MASK))))
    = Some (array (shape m) (map (fun z => (z + 1)%Z) (data labels))) /\
    centroids (this (snd (deep_clustering (ext := demo_externals)
                            (demo_state SOFT_MASK)))) = Some centers /\
    forall k, (forall z, In z (data labels) -> (0 <= z < k)%Z) ->
              forall a, In a (map (fun z => (z + 1)%Z) (data labels)) -> (1 <= a <= k)%Z.
Proof.
  apply (clustering_assigns_labels_plus_one (ext := demo_externals)
           (demo_state SOFT_MASK)).
  reflexivity.
Defined.

(** ** Line 178 inside a run *)

Section Precondition.

Context {ext : Externals}.

Lemma spectrograms_need_transform (st : State) :
  fst (_compute_spectrograms st) = Ok tt ->
  exists s, stft_transform (use_librosa_stft (this st))
              (heap (world st) (audio_signal (this st))) = Ok s.
Proof.
  destruct st as [self w].
  unfold _compute_spectrograms, sbind, self_, signal_, lift. cbn [this world].
  destruct (stft_transform (use_librosa_stft self) (heap w (audio_signal self)))
    as [s| |]; cbn [fst]; try discriminate.
  intros _. now exists s.
Qed.

(** X25.  In [run] the check of line 178 never fails: once
    [_compute_spectrograms] has succeeded, and whatever [deep_clustering]
    then does, the signal of the separator holds a transform, the very array
    bound to [self.stft]. *)
Theorem extraction_precondition_holds_in_run (st : State) :
  fst (_compute_spectrograms st) = Ok tt ->
  exists s,
    stft (this (snd (deep_clustering (snd (_compute_spectrograms st))))) = Some s /\
    stft_data (heap (world (snd (deep_clustering (snd (_compute_spectrograms st)))))
                 (audio_signal
                    (this (snd (deep_clustering (snd (_compute_spectrograms st)))))))
    = Some s.
Proof.
  intros Hok. destruct (spectrograms_need_transform st Hok) as (s & Hs).
  destruct (compute_spectrograms_state st) as [[Hfail _]|(s' & m & k & Hs' & Hst)].
  { now destruct (Hfail s). }
  rewrite Hs in Hs'. injection Hs' as <-.
  set (st1 := snd (_compute_spectrograms st)) in *.
  destruct (clustering_frame st1) as ((e & asg & c & Hthis) & Hheap & _).
  exists s. rewrite Hthis, Hheap. cbn [rebind stft audio_signal].
  rewrite Hst. cbn [this world rebind stft audio_signal set_heap heap].
  split; [reflexivity|]. now rewrite upd_same.
Qed.

End Precondition.

Lemma extraction_precondition_holds_in_run_witness :
  exists s,
    stft (this (snd (deep_clustering (ext := demo_externals)
                       (snd (_compute_spectrograms (ext := demo_externals)
                               (demo_state SOFT_MASK)))))) = Some s /\
    stft_data
      (heap (world (snd (deep_clustering (ext := demo_externals)
                           (snd (_compute_spectrograms (ext := demo_externals)
                                   (demo_state SOFT_MASK))))))
         (audio_signal
            (this (snd (deep_clustering (ext := demo_externals)
                          (snd (_compute_spectrograms (ext := demo_externals)
                                  (demo_state SOFT_MASK))))))))
    = Some s.
Proof.
  apply (extraction_precondition_holds_in_run (ext := demo_externals)
           (demo_state SOFT_MASK)).
  rewrite (compute_spectrograms_ok (ext := demo_externals) (demo_state SOFT_MASK)
             demo_stft 2 1 1 2); try reflexivity; simpl; lia.
Defined.

(** ** Mask assembly in a run *)



Section Assembly.

Context {ext : Externals}.




End Assembly.

